(** * antigravity-usage: the wake-up engine

    A shallow embedding of the quota-reset detection and trigger subsystem
    (src/wakeup/storage.ts, account-resolver.ts, reset-detector.ts,
    trigger-service.ts) together with the two project-resolution routines
    (google/oauth.ts and google/cloudcode.ts), and the properties of the
    specification proved or refuted on it.

    Conventions of the embedding
    - A JavaScript [number] that holds a measurement (a percentage, a
      duration) is a rational [Q]: every finite double is a rational and
      [<], [>] on finite doubles are the rational order.  The quota records
      come out of [JSON.parse] and out of [parseResetTime], neither of which
      yields NaN.  Where the code itself can meet NaN (the [getTime()] of an
      unparseable date) the reading is an [option Z] and [None] is NaN.
    - An object used as a dictionary ([ResetState], [ModelMapping]) is the
      [gmap string _] of its own entries; [obj[key]] is [js_get], which also
      finds the members every object inherits from [Object.prototype], and
      [obj[key] = value] is [js_set].  An optional field is an [option].
    - The calls of a [Promise.all] run up to their first [await] in the
      order of the list; they are resumed in the order in which the outside
      world answers them.
    - Code that reads the disk, the clock or the network runs in the monad
      [M]: a state monad over [World] with JavaScript exceptions.  The
      answers of the outside world (clock readings, remote replies) are the
      oracles of an [Env]. *)

From Stdlib Require Import ZArith QArith String List Bool Lia.
From stdpp Require Import base option list gmap strings.

Local Open Scope Z_scope.
Local Open Scope string_scope.

(** ** JavaScript values *)

(** [a < b] and [a > b] on numbers. *)
Definition js_lt (a b : Q) : bool :=
  match Qcompare a b with Lt => true | _ => false end.

Definition js_gt (a b : Q) : bool := js_lt b a.

(** Truthiness of an optional string: [undefined] and [''] are falsy. *)
Definition truthy (o : option string) : option string :=
  match o with
  | Some s => if String.eqb s "" then None else Some s
  | None => None
  end.

(** [a || b] where [a] is an optional string and [b] a string. *)
Definition or_else (a : option string) (b : string) : string :=
  match truthy a with Some s => s | None => b end.

(** [a || b] where both are optional strings. *)
Definition or_opt (a b : option string) : option string :=
  match truthy a with Some s => Some s | None => b end.

(** ** Objects used as dictionaries *)

(** The names every object inherits from [Object.prototype]: eleven
    methods and the accessor [__proto__]. *)
Definition Object_prototype : list string :=
  ["constructor"; "hasOwnProperty"; "isPrototypeOf"; "propertyIsEnumerable";
   "toLocaleString"; "toString"; "valueOf";
   "__defineGetter__"; "__defineSetter__"; "__lookupGetter__";
   "__lookupSetter__"; "__proto__"].

(** What [obj[key]] can be, other than [undefined]: an entry of the
    dictionary, or the member of [Object.prototype] of that name (a
    function; for [__proto__] the prototype itself).  An inherited member
    is truthy and has none of the fields of an entry. *)
Inductive member (V : Type) : Type :=
  | Entry (v : V)
  | Inherited (name : string).
Arguments Entry {V} v.
Arguments Inherited {V} name.

(** [obj[key]]: the object's own entry, else what the prototype has under
    that name; [None] is [undefined]. *)
Definition js_get {V : Type} (obj : gmap string V) (key : string)
    : option (member V) :=
  match obj !! key with
  | Some v => Some (Entry v)
  | None =>
      if existsb (String.eqb key) Object_prototype
      then Some (Inherited key)
      else None
  end.

(** [obj[key] = value], where [value] is an object.  Under a name the
    object has no entry for, [__proto__] is the accessor of
    [Object.prototype]: the assignment calls its setter, which makes
    [value] the prototype of [obj] and adds no entry.  ([JSON.parse] makes a
    [__proto__] of the text an entry, and an entry is overwritten.)  The
    other inherited names are plain data and are shadowed by a new entry. *)
Definition js_set {V : Type} (key : string) (value : V) (obj : gmap string V)
    : gmap string V :=
  match obj !! key with
  | Some _ => <[key := value]> obj
  | None => if String.eqb key "__proto__" then obj else <[key := value]> obj
  end.

(** A string where an entry or an inherited member is expected is the
    entry. *)
Definition string_member (s : string) : member string := Entry s.
Coercion string_member : string >-> member.

(** [a || b] where [a] is what [mapping[key]] gave and [b] a string: the
    empty string and [undefined] are falsy, an inherited member is truthy. *)
Definition member_or (a : option (member string)) (b : string) : member string :=
  match a with
  | Some (Entry s) => if String.eqb s "" then Entry b else Entry s
  | Some (Inherited name) => Inherited name
  | None => Entry b
  end.

(** An exception value.  [DetailedError] is an [Error] that also carries a
    [getDetailedMessage] method (core/errors.ts, [TokenRefreshError]);
    [Thrown] is a thrown value that is not an [Error]. *)
Inductive js_error : Type :=
  | DetailedError (message detailed : string)
  | PlainError (message : string)
  | Thrown (text : string).

(** [err instanceof Error ? err.message : String(err)] *)
Definition error_text (e : js_error) : string :=
  match e with
  | DetailedError m _ => m
  | PlainError m => m
  | Thrown t => t
  end.

(** ** quota/types.ts *)

Record ModelQuotaInfo : Type := {
  label : string;
  modelId : string;
  remainingPercentage : option Q;
  isExhausted : bool;
  resetTime : option string;
  timeUntilResetMs : option Q
}.

Record QuotaSnapshot : Type := {
  snapshot_timestamp : string;
  models : list ModelQuotaInfo
}.

(** ** wakeup/types.ts *)

Inductive ScheduleMode : Type := interval | daily | weekly | custom.

Record WakeupConfig : Type := {
  enabled : bool;
  selectedModels : list string;
  selectedAccounts : option (list string);
  customPrompt : option string;
  maxOutputTokens : Z;
  scheduleMode : ScheduleMode;
  intervalHours : option Z;
  dailyTimes : option (list string);
  weeklySchedule : option (list (Z * list string));
  cronExpression : option string;
  wakeOnReset : bool;
  resetCooldownMinutes : Z
}.

Definition getDefaultConfig : WakeupConfig := {|
  enabled := false;
  selectedModels := ["claude-sonnet-4-5"; "gemini-3-flash"];
  selectedAccounts := None;
  customPrompt := None;
  maxOutputTokens := 1;
  scheduleMode := interval;
  intervalHours := Some 6;
  dailyTimes := Some ["09:00"];
  weeklySchedule := Some [];
  cronExpression := None;
  wakeOnReset := false;
  resetCooldownMinutes := 10
|}.

Inductive TriggerType : Type := trigger_manual | trigger_auto.

Inductive TriggerSource : Type :=
  source_manual | source_scheduled | source_quota_reset.

Record TokenUsage : Type := {
  usage_prompt : Z;
  usage_completion : Z;
  usage_total : Z
}.

Record TriggerRecord : Type := {
  rec_timestamp : string;
  rec_success : bool;
  rec_triggerType : TriggerType;
  rec_triggerSource : TriggerSource;
  rec_models : list string;
  rec_accountEmail : string;
  rec_durationMs : Z;
  rec_prompt : string;
  rec_response : option string;
  rec_error : option string;
  rec_tokensUsed : option TokenUsage
}.

Record ModelResetState : Type := {
  lastResetAt : string;
  lastTriggeredTime : string
}.

(** [ResetState] and [ModelMapping] are dictionaries keyed by strings. *)
Abbreviation ResetState := (gmap string ModelResetState).
Abbreviation ModelMapping := (gmap string string).

Record TriggerOptions : Type := {
  opt_models : list string;
  opt_accountEmail : string;
  opt_triggerType : TriggerType;
  opt_triggerSource : TriggerSource;
  opt_customPrompt : option string;
  opt_maxOutputTokens : option Z
}.

Record ModelTriggerResult : Type := {
  res_modelId : string;
  res_success : bool;
  res_durationMs : Z;
  res_response : option string;
  res_error : option string;
  res_tokensUsed : option TokenUsage
}.

Record TriggerResult : Type := {
  success : bool;
  results : list ModelTriggerResult
}.

Record DetectionResult : Type := {
  triggered : bool;
  triggeredModels : list string
}.

(** ** Cloud Code API replies (google/cloudcode.ts, google/oauth.ts) *)

(** [cloudaicompanionProject?: string | { id?: string }] *)
Inductive ProjectRef : Type :=
  | ProjectString (s : string)
  | ProjectObject (id : option string).

Record Tier : Type := {
  tier_id : option string;
  isDefault : option bool
}.

Record LoadCodeAssistResponse : Type := {
  cloudaicompanionProject : option ProjectRef;
  currentTier : option (option string);
  paidTier : option (option string);
  allowedTiers : option (list Tier)
}.

Record OnboardUserResponse : Type := {
  done : option bool;
  onboard_project : option ProjectRef
}.

Record ProjectIdResult : Type := {
  projectId : option string;
  tierId : option string
}.

(** The settled [fetch] of google/oauth.ts: the request failed, or a response
    came back with a status and a body; [json = None] when [response.json()]
    throws. *)
Inductive FetchReply (T : Type) : Type :=
  | FetchRejected (e : js_error)
  | FetchResponse (status : Z) (json : option T).
Arguments FetchRejected {T} e.
Arguments FetchResponse {T} status json.

(** What [client.generateContent] does within the 30 seconds the caller
    waits: it resolves, it rejects, or it is still pending. *)
Inductive GenerateReply : Type :=
  | Generated (text : string) (tokensUsed : option TokenUsage)
  | GenerateFailed (e : js_error)
  | GeneratePending.

(** ** The world the engine runs in *)

(** Account status as the account manager reports it.

    Modelled from the spec: accounts/manager.ts is not among the sources;
    the status is one of the three tags [valid], [expired] and [invalid]. *)
Inductive AccountStatus : Type := valid | expired | invalid.

(** The account manager (accounts/manager.ts), as far as the engine calls
    it.  Its four operations are taken as given. *)
Record AccountManager : Type := {
  hasAccount : string -> bool;
  getAccountStatus : string -> AccountStatus;
  getActiveEmail : option string;
  getAccountEmails : list string
}.

(** A document of the wakeup directory: not there, there but unreadable or
    not JSON, or holding a value. *)
Inductive file (T : Type) : Type :=
  | Missing
  | Unparseable
  | Stored (v : T).
Arguments Missing {T}.
Arguments Unparseable {T}.
Arguments Stored {T} v.

Record Disk : Type := {
  config_json : file (option WakeupConfig);
  history_json : file (list TriggerRecord);
  reset_state_json : file ResetState;
  model_mapping_json : file ModelMapping;
  (** [Some e]: [mkdirSync] or [writeFileSync] fails with [e]. *)
  write_fault : option js_error
}.

(** The four file names, each with the type of the document it holds. *)
Inductive filename : Type -> Type :=
  | CONFIG_FILE_NAME : filename (option WakeupConfig)
  | HISTORY_FILE_NAME : filename (list TriggerRecord)
  | RESET_STATE_FILE_NAME : filename ResetState
  | MODEL_MAPPING_FILE_NAME : filename ModelMapping.

Definition document {T : Type} (name : filename T) (d : Disk) : file T :=
  match name in filename T return file T with
  | CONFIG_FILE_NAME => config_json d
  | HISTORY_FILE_NAME => history_json d
  | RESET_STATE_FILE_NAME => reset_state_json d
  | MODEL_MAPPING_FILE_NAME => model_mapping_json d
  end.

Definition store {T : Type} (name : filename T) : T -> Disk -> Disk :=
  match name in filename T return T -> Disk -> Disk with
  | CONFIG_FILE_NAME => fun v d =>
      {| config_json := Stored v; history_json := history_json d;
         reset_state_json := reset_state_json d;
         model_mapping_json := model_mapping_json d;
         write_fault := write_fault d |}
  | HISTORY_FILE_NAME => fun v d =>
      {| config_json := config_json d; history_json := Stored v;
         reset_state_json := reset_state_json d;
         model_mapping_json := model_mapping_json d;
         write_fault := write_fault d |}
  | RESET_STATE_FILE_NAME => fun v d =>
      {| config_json := config_json d; history_json := history_json d;
         reset_state_json := Stored v;
         model_mapping_json := model_mapping_json d;
         write_fault := write_fault d |}
  | MODEL_MAPPING_FILE_NAME => fun v d =>
      {| config_json := config_json d; history_json := history_json d;
         reset_state_json := reset_state_json d;
         model_mapping_json := Stored v;
         write_fault := write_fault d |}
  end.

(** Something the engine did to the outside: a remote call or a sleep. *)
Inductive Event : Type :=
  | LoadAccountTokens (account : string)
  | GetValidAccessToken (account : string)
  | LoadCodeAssist (account : string)
  | OnboardUser (account tier : string)
  | GenerateContent (account model prompt : string) (maxTokens : option Z)
  | FetchLoadCodeAssist (accessToken : string)
  | FetchOnboardUser (accessToken tier : string)
  | Sleep (ms : Z).

(** The stored credentials of an account, as far as the engine reads them. *)
Record StoredTokens : Type := {
  stored_projectId : option string
}.

Record World : Type := {
  disk : Disk;
  (** credentials per account (accounts storage) *)
  credentials : gmap string StoredTokens;
  (** how many times the clock was read *)
  ticks : nat;
  (** remote calls and sleeps so far, oldest first *)
  trace : list Event
}.

Definition with_disk (d : Disk) (w : World) : World :=
  {| disk := d; credentials := credentials w; ticks := ticks w;
     trace := trace w |}.

Definition with_credentials (c : gmap string StoredTokens) (w : World) : World :=
  {| disk := disk w; credentials := c; ticks := ticks w; trace := trace w |}.

Definition with_ticks (n : nat) (w : World) : World :=
  {| disk := disk w; credentials := credentials w; ticks := n;
     trace := trace w |}.

Definition with_trace (t : list Event) (w : World) : World :=
  {| disk := disk w; credentials := credentials w; ticks := ticks w;
     trace := t |}.

(** The answers of the outside world.  A remote reply is indexed by the
    number of events before the call, so that the same call can be answered
    differently each time. *)
Record Env : Type := {
  (** [clock n]: what the n-th reading of [Date.now()] returns *)
  clock : nat -> Z;
  (** [new Date(ms).toISOString()] *)
  toISOString : Z -> string;
  (** [new Date(s).getTime()]; [None] is NaN *)
  dateParse : string -> option Z;
  accountManager : AccountManager;
  (** [Some e]: [loadAccountTokens(email)] throws [e] *)
  credential_fault : string -> option js_error;
  (** [tokenManager.getValidAccessToken()]: the token, or the rejection *)
  accessTokenReply : string -> nat -> js_error + string;
  loadCodeAssistReply : string -> nat -> js_error + LoadCodeAssistResponse;
  (** [None]: the onboardUser request went through *)
  onboardUserReply : string -> string -> nat -> option js_error;
  generateContentReply :
    string -> string -> string -> option Z -> nat -> GenerateReply;
  (** [arrival n]: when the request that is event [n] of the trace is
      answered or times out.  Of the requests that are pending together the
      one with the least [arrival] is settled first, and of equal ones the
      one sent first. *)
  arrival : nat -> nat;
  fetchLoadCodeAssistReply : string -> nat -> FetchReply LoadCodeAssistResponse;
  fetchOnboardUserReply : string -> string -> nat -> FetchReply OnboardUserResponse
}.

(** ** The monad of effectful code *)

Inductive Outcome (A : Type) : Type :=
  | Returns (a : A) (w : World)
  | Throws (e : js_error) (w : World).
Arguments Returns {A} & a w.
Arguments Throws {A} e w.

Definition M (A : Type) : Type := World -> Outcome A.

Definition ret {A : Type} (a : A) : M A := fun w => Returns a w.

Definition throw {A : Type} (e : js_error) : M A := fun w => Throws e w.

Definition bind {A B : Type} (c : M A) (k : A -> M B) : M B :=
  fun w =>
    match c w with
    | Returns a w' => k a w'
    | Throws e w' => Throws e w'
    end.

(** [try { c } catch (err) { handler err }] *)
Definition try_catch {A : Type} (c : M A) (handler : js_error -> M A) : M A :=
  fun w =>
    match c w with
    | Returns a w' => Returns a w'
    | Throws e w' => handler e w'
    end.

Definition get_world : M World := fun w => Returns w w.

Definition emit (ev : Event) : M nat :=
  fun w => Returns (length (trace w)) (with_trace (trace w ++ [ev])%list w).

Notation "'let!' x ':=' c 'in' k" := (bind c (fun x => k))
  (at level 10, x pattern, c at level 100, k at level 200).

Notation "c '>>' k" := (bind c (fun _ => k))
  (at level 90, right associativity).

(** A [for ... of] loop whose body may throw. *)
Fixpoint for_each {A : Type} (body : A -> M unit) (l : list A) : M unit :=
  match l with
  | [] => ret tt
  | x :: rest => body x >> for_each body rest
  end.

(** *** Calls that are pending together *)

(** A call of an async function that has run up to its first [await]: it
    waits for the answer to the request it sent as event [request] of the
    trace, and [resume] is the rest of its body. *)
Record Suspended (B : Type) : Type := {
  request : nat;
  resume : M B
}.
Arguments request {B} s.
Arguments resume {B} s.

(** A call given to [Promise.all]: still waiting, or settled with its
    result. *)
Inductive Call (B : Type) : Type :=
  | Waiting (s : Suspended B)
  | Settled (b : B).
Arguments Waiting {B} s.
Arguments Settled {B} b.

(** [l.map(f)]: every call runs up to its first [await], in the order of
    the list. *)
Fixpoint call_all {A B : Type} (f : A -> M (Suspended B)) (l : list A)
    : M (list (Suspended B)) :=
  match l with
  | [] => ret []
  | x :: rest =>
      let! s := f x in
      let! ss := call_all f rest in
      ret (s :: ss)
  end.

(** The waiting call that is settled next, with its place in the list:
    the one of least [arrival], the first of the list among equal ones. *)
Fixpoint first_settled {B : Type} (arrival : nat -> nat) (calls : list (Call B))
    : option (nat * Suspended B) :=
  match calls with
  | [] => None
  | Settled _ :: rest =>
      match first_settled arrival rest with
      | Some (i, s) => Some (S i, s)
      | None => None
      end
  | Waiting s :: rest =>
      match first_settled arrival rest with
      | Some (i, s') =>
          if (arrival (request s') <? arrival (request s))%nat
          then Some (S i, s')
          else Some (O, s)
      | None => Some (O, s)
      end
  end.

(** The event loop while the calls are pending: the call settled next is
    resumed and runs to its end, until none is waiting.  [fuel] bounds the
    number of calls resumed. *)
Fixpoint settle {B : Type} (arrival : nat -> nat) (fuel : nat)
    (calls : list (Call B)) : M (list (Call B)) :=
  match fuel with
  | O => ret calls
  | S fuel =>
      match first_settled arrival calls with
      | None => ret calls
      | Some (i, s) =>
          let! b := resume s in
          settle arrival fuel (<[i := Settled b]> calls)
      end
  end.

Definition results_of {B : Type} (calls : list (Call B)) : list B :=
  omap (fun call => match call with Settled b => Some b | Waiting _ => None end)
       calls.

(** [await Promise.all(l.map(f))]: the calls are made in the order of the
    list, each running up to its first [await]; then they are resumed in
    the order in which they are settled; the results come in the order of
    the list.  (A call that throws makes the whole throw; the calls given
    to it here catch what they throw.) *)
Definition map_all {A B : Type} (arrival : nat -> nat)
    (f : A -> M (Suspended B)) (l : list A) : M (list B) :=
  let! suspended := call_all f l in
  let! calls := settle arrival (length suspended) (map Waiting suspended) in
  ret (results_of calls).

Definition result_of {A : Type} (o : Outcome A) : option A :=
  match o with Returns a _ => Some a | Throws _ _ => None end.

Definition world_of {A : Type} (o : Outcome A) : World :=
  match o with Returns _ w => w | Throws _ w => w end.

Definition thrown {A : Type} (o : Outcome A) : option js_error :=
  match o with Returns _ _ => None | Throws e _ => Some e end.

(** ** The clock *)

Definition Date_now (env : Env) : M Z :=
  fun w => Returns (clock env (ticks w)) (with_ticks (S (ticks w)) w).

(** [new Date().toISOString()] *)
Definition new_Date_toISOString (env : Env) : M string :=
  let! ms := Date_now env in
  ret (toISOString env ms).

(** ** wakeup/storage.ts *)

Module Storage.

Definition MAX_HISTORY_ENTRIES : nat := 100.

(** An unreadable or unparseable file is caught and logged; the default
    value is returned. *)
Definition readJsonFile {T : Type} (name : filename T) (defaultValue : T) : M T :=
  fun w =>
    match document name (disk w) with
    | Stored v => Returns v w
    | Unparseable => Returns defaultValue w
    | Missing => Returns defaultValue w
    end.

(** A failed write is logged and thrown again. *)
Definition writeJsonFile {T : Type} (name : filename T) (data : T) : M unit :=
  fun w =>
    match write_fault (disk w) with
    | Some err => Throws err w
    | None => Returns tt (with_disk (store name data (disk w)) w)
    end.

Definition loadWakeupConfig : M (option WakeupConfig) :=
  readJsonFile CONFIG_FILE_NAME None.

Definition saveWakeupConfig (config : WakeupConfig) : M unit :=
  writeJsonFile CONFIG_FILE_NAME (Some config).

Definition getOrCreateConfig : M WakeupConfig :=
  let! existing := loadWakeupConfig in
  match existing with
  | Some existing =>
      if (length (selectedModels existing) =? 0)%nat then
        let migrated := {|
          enabled := enabled existing;
          selectedModels := ["claude-sonnet-4-5"; "gemini-3-flash"];
          selectedAccounts := selectedAccounts existing;
          customPrompt := customPrompt existing;
          maxOutputTokens := maxOutputTokens existing;
          scheduleMode := scheduleMode existing;
          intervalHours := intervalHours existing;
          dailyTimes := dailyTimes existing;
          weeklySchedule := weeklySchedule existing;
          cronExpression := cronExpression existing;
          wakeOnReset := wakeOnReset existing;
          resetCooldownMinutes := resetCooldownMinutes existing |} in
        saveWakeupConfig migrated >> ret migrated
      else ret existing
  | None =>
      saveWakeupConfig getDefaultConfig >> ret getDefaultConfig
  end.

Definition loadTriggerHistory : M (list TriggerRecord) :=
  readJsonFile HISTORY_FILE_NAME [].

Definition saveTriggerHistory (history : list TriggerRecord) : M unit :=
  writeJsonFile HISTORY_FILE_NAME history.

(** [unshift] puts the record in front; [splice(MAX_HISTORY_ENTRIES)]
    drops everything from index 100 on. *)
Definition addTriggerRecord (record : TriggerRecord) : M unit :=
  let! history := loadTriggerHistory in
  let history := record :: history in
  let history :=
    if (MAX_HISTORY_ENTRIES <? length history)%nat
    then take MAX_HISTORY_ENTRIES history
    else history in
  saveTriggerHistory history.

(** [history.slice(0, limit)]; a negative [limit] counts from the end. *)
Definition getRecentHistory (limit : Z) : M (list TriggerRecord) :=
  let! history := loadTriggerHistory in
  ret (if (limit <? 0)%Z
       then take (Z.to_nat (Z.of_nat (length history) + limit)) history
       else take (Z.to_nat limit) history).

Definition getLastTrigger : M (option TriggerRecord) :=
  let! history := loadTriggerHistory in
  ret (head history).

Definition clearTriggerHistory : M unit := saveTriggerHistory [].

Definition loadResetState : M ResetState :=
  readJsonFile RESET_STATE_FILE_NAME ∅.

Definition saveResetState (state : ResetState) : M unit :=
  writeJsonFile RESET_STATE_FILE_NAME state.

(** [state[modelKey] = {...}] is an assignment to a property of a plain
    object: see [js_set]. *)
Definition updateResetState (env : Env) (modelKey resetAt : string) : M unit :=
  let! state := loadResetState in
  let! stamp := new_Date_toISOString env in
  let state :=
    js_set modelKey {| lastResetAt := resetAt; lastTriggeredTime := stamp |}
      state in
  saveResetState state.

(** [state[modelKey] || null]; [None] is [null]. *)
Definition getModelResetState (modelKey : string)
    : M (option (member ModelResetState)) :=
  let! state := loadResetState in
  ret (js_get state modelKey).

Definition clearResetState : M unit := saveResetState ∅.

Definition loadModelMapping : M ModelMapping :=
  readJsonFile MODEL_MAPPING_FILE_NAME ∅.

Definition saveModelMapping (mapping : ModelMapping) : M unit :=
  writeJsonFile MODEL_MAPPING_FILE_NAME mapping.

(** [{ ...existing, ...newMappings }]: the new entries win. *)
Definition updateModelMapping (newMappings : ModelMapping) : M unit :=
  let! existing := loadModelMapping in
  saveModelMapping (newMappings ∪ existing).

(** [mapping[modelId]]; [None] is [undefined]. *)
Definition getModelConstant (modelId : string) : M (option (member string)) :=
  let! mapping := loadModelMapping in
  ret (js_get mapping modelId).

(** [getModelConstant(modelId) || modelId] *)
Definition getResetKey (modelId : string) : M (member string) :=
  let! constant := getModelConstant modelId in
  ret (member_or constant modelId).

End Storage.

(** ** wakeup/account-resolver.ts *)

Module AccountResolver.

Definition usable (status : AccountStatus) : bool :=
  match status with valid | expired => true | invalid => false end.

Definition resolveAccounts (manager : AccountManager)
    (selectedAccounts : option (list string)) : list string :=
  match selectedAccounts with
  | Some selectedAccounts =>
      List.filter
        (fun email =>
           if negb (hasAccount manager email) then false
           else
             match getAccountStatus manager email with
             | invalid => false
             | _ => true
             end)
        selectedAccounts
  | None =>
      let fallback :=
        match List.find (fun email => usable (getAccountStatus manager email))
                (getAccountEmails manager) with
        | Some email => [email]
        | None => []
        end in
      match truthy (getActiveEmail manager) with
      | Some activeEmail =>
          if usable (getAccountStatus manager activeEmail)
          then [activeEmail]
          else fallback
      | None => fallback
      end
  end.

Definition hasValidAccounts (manager : AccountManager)
    (selectedAccounts : option (list string)) : bool :=
  (0 <? length (resolveAccounts manager selectedAccounts))%nat.

End AccountResolver.

(** ** google/cloudcode.ts: project resolution of the API client *)

Module CloudCode.

Definition DEFAULT_MAX_RETRIES : nat := 5.
Definition DEFAULT_RETRY_DELAY_MS : Z := 2000.

(** The client: the account whose token manager it holds, and its
    [projectId] field. *)
Record Client : Type := {
  client_account : string;
  client_projectId : option string
}.

Definition set_projectId (p : string) (c : Client) : Client :=
  {| client_account := client_account c; client_projectId := Some p |}.

Section WithEnv.
Context (env : Env).

(** [loadCodeAssist]: the request, then the project ID of the response
    is kept when there is one. *)
Definition loadCodeAssist (c : Client) : M (LoadCodeAssistResponse * Client) :=
  let! n := emit (LoadCodeAssist (client_account c)) in
  match loadCodeAssistReply env (client_account c) n with
  | inl err => throw err
  | inr response =>
      let c' :=
        match cloudaicompanionProject response with
        | Some (ProjectString s) =>
            if String.eqb s "" then c else set_projectId s c
        | Some (ProjectObject id) =>
            match truthy id with
            | Some i => set_projectId i c
            | None => c
            end
        | None => c
        end in
      ret (response, c')
  end.

(** Prefer default tier, then paidTier, then currentTier, then the first
    allowed tier. *)
Definition pick_tier (loadResponse : LoadCodeAssistResponse) : option string :=
  let tiers := default [] (allowedTiers loadResponse) in
  match List.find (fun t => match isDefault t with Some true => true | _ => false end)
          tiers with
  | Some defaultTier => tier_id defaultTier
  | None =>
      match truthy (paidTier loadResponse ≫= id) with
      | Some paid => Some paid
      | None =>
          match truthy (currentTier loadResponse ≫= id) with
          | Some current => Some current
          | None =>
              match tiers with
              | first :: _ => tier_id first
              | [] => None
              end
          end
      end
  end.

(** The retry loop: wait, load again, stop as soon as a project ID is
    there. *)
Fixpoint retry_loop (retryDelayMs : Z) (c : Client) (remaining : nat)
    : M (option string * Client) :=
  match remaining with
  | O => ret (None, c)
  | S remaining =>
      emit (Sleep retryDelayMs) >>
      let! r := loadCodeAssist c in
      let c := r.2 in
      match truthy (client_projectId c) with
      | Some p => ret (Some p, c)
      | None => retry_loop retryDelayMs c remaining
      end
  end.

Definition onboardUser (c : Client) (tier : string) : M unit :=
  let! n := emit (OnboardUser (client_account c) tier) in
  match onboardUserReply env (client_account c) tier n with
  | Some err => throw err
  | None => ret tt
  end.

Definition resolveProjectId (maxRetries : nat) (retryDelayMs : Z) (c : Client)
    : M (option string * Client) :=
  match truthy (client_projectId c) with
  | Some p => ret (Some p, c)
  | None =>
      let! r := loadCodeAssist c in
      let loadResponse := r.1 in
      let c := r.2 in
      match truthy (client_projectId c) with
      | Some p => ret (Some p, c)
      | None =>
          match truthy (pick_tier loadResponse) with
          | None => ret (None, c)
          | Some tier =>
              try_catch (onboardUser c tier) (fun _ => ret tt) >>
              retry_loop retryDelayMs c maxRetries
          end
      end
  end.

End WithEnv.

End CloudCode.

(** ** google/oauth.ts: project resolution at login *)

Module OAuth.

Definition onboardAttempts : nat := 5.
Definition onboardDelayMs : Z := 2000.

Definition extractProjectId (value : option ProjectRef) : option string :=
  match value with
  | Some (ProjectString s) => truthy (Some s)
  | Some (ProjectObject id) => truthy id
  | None => None
  end.

(** [t.id && t.id.length > 0] *)
Definition has_id (t : Tier) : bool :=
  match truthy (tier_id t) with Some _ => true | None => false end.

Definition is_default (t : Tier) : bool :=
  match isDefault t with Some true => true | _ => false end.

Definition pickOnboardTier (allowedTiers : option (list Tier))
    (tierIdFromLoad : option string) : option string :=
  match allowedTiers with
  | None => tierIdFromLoad
  | Some [] => tierIdFromLoad
  | Some allowedTiers =>
      match List.find (fun t => is_default t && has_id t) allowedTiers
              ≫= (fun t => truthy (tier_id t)) with
      | Some i => Some i
      | None =>
          match List.find has_id allowedTiers
                  ≫= (fun t => truthy (tier_id t)) with
          | Some i => Some i
          | None =>
              if (0 <? length allowedTiers)%nat then Some "LEGACY"
              else tierIdFromLoad
          end
      end
  end.

(** [response.ok] *)
Definition ok (status : Z) : bool := ((200 <=? status) && (status <=? 299))%Z.

Section WithEnv.
Context (env : Env).

(** The loop of [tryOnboardUser], from attempt number [attempt] on, with
    [remaining] attempts left to make. *)
Fixpoint onboard_loop (accessToken tier : string) (attempt remaining : nat)
    : M (option string) :=
  match remaining with
  | O => ret None
  | S remaining =>
      let next :=
        (if (attempt <? onboardAttempts)%nat
         then emit (Sleep onboardDelayMs) >> ret tt
         else ret tt) >>
        onboard_loop accessToken tier (S attempt) remaining in
      let! n := emit (FetchOnboardUser accessToken tier) in
      match fetchOnboardUserReply env accessToken tier n with
      | FetchRejected _ => next
      | FetchResponse status body =>
          if negb (ok status) then
            if ((status =? 401) || (status =? 403))%Z then ret None
            else next
          else
            match body with
            | None => next
            | Some data =>
                match done data with
                | Some true => ret (extractProjectId (onboard_project data))
                | _ => next
                end
            end
      end
  end.

Definition tryOnboardUser (accessToken tier : string) : M (option string) :=
  onboard_loop accessToken tier 1 onboardAttempts.

Definition resolveProjectId (accessToken : string) : M ProjectIdResult :=
  let nothing := {| projectId := None; tierId := None |} in
  let! n := emit (FetchLoadCodeAssist accessToken) in
  match fetchLoadCodeAssistReply env accessToken n with
  | FetchRejected _ => ret nothing
  | FetchResponse status body =>
      if negb (ok status) then ret nothing
      else
        match body with
        | None => ret nothing
        | Some data =>
            let tier :=
              or_opt (paidTier data ≫= id) (currentTier data ≫= id) in
            match truthy (extractProjectId (cloudaicompanionProject data)) with
            | Some p => ret {| projectId := Some p; tierId := tier |}
            | None =>
                match truthy (pickOnboardTier (allowedTiers data) tier) with
                | None => ret {| projectId := None; tierId := tier |}
                | Some onboardTier =>
                    let! onboarded := tryOnboardUser accessToken onboardTier in
                    ret {| projectId := onboarded;
                           tierId := Some onboardTier |}
                end
            end
        end
  end.

End WithEnv.

End OAuth.

(** ** wakeup/trigger-service.ts *)

Module TriggerService.

Definition DEFAULT_PROMPT : string := "hi".
Definition REQUEST_TIMEOUT_MS : Z := 30000.
Definition MAX_CONCURRENT_REQUESTS : nat := 4.

(** google/token-manager.ts: a token manager holds the account it was
    made for and the tokens it loaded for it. *)
Record TokenManager : Type := {
  tm_accountEmail : string;
  tm_tokens : option StoredTokens
}.

Definition failed (modelId error : string) : ModelTriggerResult :=
  {| res_modelId := modelId; res_success := false; res_durationMs := 0;
     res_response := None; res_error := Some error;
     res_tokensUsed := None |}.

(** The message recorded when [getValidAccessToken] rejects with [err]. *)
Definition refresh_error_message (accountEmail : string) (err : js_error) : string :=
  match err with
  | DetailedError _ detailed => detailed
  | PlainError message => "Token refresh failed: " ++ message
  | Thrown _ => "Authentication failed for " ++ accountEmail
  end.

Section WithEnv.
Context (env : Env).

(** [new TokenManager(email)] loads the tokens of the account. *)
Definition getTokenManagerForAccount (email : string) : M TokenManager :=
  emit (LoadAccountTokens email) >>
  match credential_fault env email with
  | Some err => throw err
  | None =>
      let! w := get_world in
      ret {| tm_accountEmail := email;
             tm_tokens := credentials w !! email |}
  end.

(** The refresh itself belongs to the credential provider: its outcome
    is the reply of the environment. *)
Definition getValidAccessToken (tm : TokenManager) : M string :=
  match tm_tokens tm with
  | None => throw (PlainError "Not logged in. Run: antigravity-usage login")
  | Some _ =>
      let! n := emit (GetValidAccessToken (tm_accountEmail tm)) in
      match accessTokenReply env (tm_accountEmail tm) n with
      | inl err => throw err
      | inr token => ret token
      end
  end.

Definition getProjectId (tm : TokenManager) : option string :=
  tm_tokens tm ≫= stored_projectId.

Definition setProjectId (tm : TokenManager) (p : string) : M unit :=
  match tm_tokens tm with
  | None => ret tt
  | Some _ =>
      fun w =>
        Returns tt
          (with_credentials
             (<[tm_accountEmail tm := {| stored_projectId := Some p |}]>
                (credentials w)) w)
  end.

Definition recordResults (results : list ModelTriggerResult)
    (options : TriggerOptions) : M unit :=
  let prompt := or_else (opt_customPrompt options) DEFAULT_PROMPT in
  for_each
    (fun result =>
       let! stamp := new_Date_toISOString env in
       Storage.addTriggerRecord
         {| rec_timestamp := stamp;
            rec_success := res_success result;
            rec_triggerType := opt_triggerType options;
            rec_triggerSource := opt_triggerSource options;
            rec_models := [res_modelId result];
            rec_accountEmail := opt_accountEmail options;
            rec_durationMs := res_durationMs result;
            rec_prompt := prompt;
            rec_response := res_response result;
            rec_error := res_error result;
            rec_tokensUsed := res_tokensUsed result |})
    results.

(** The request raced against the 30-second timer.  [generateContent]
    is the remote model-invocation client: its reply is the
    environment's.  The call reads the clock and sends the request; the
    rest of it runs when the race is settled. *)
Definition triggerSingleModel (client : CloudCode.Client)
    (modelId prompt : string) (maxTokens : option Z)
    : M (Suspended ModelTriggerResult) :=
  let! startTime := Date_now env in
  let! n := emit (GenerateContent (CloudCode.client_account client)
                    modelId prompt maxTokens) in
  let rejected (err : js_error) : M ModelTriggerResult :=
    let! finish := Date_now env in
    ret {| res_modelId := modelId; res_success := false;
           res_durationMs := finish - startTime;
           res_response := None; res_error := Some (error_text err);
           res_tokensUsed := None |} in
  ret {| request := n;
         resume :=
           match generateContentReply env (CloudCode.client_account client)
                   modelId prompt maxTokens n with
           | Generated text tokensUsed =>
               let! finish := Date_now env in
               ret {| res_modelId := modelId; res_success := true;
                      res_durationMs := finish - startTime;
                      res_response := Some (String.substring 0 500 text);
                      res_error := None; res_tokensUsed := tokensUsed |}
           | GenerateFailed err => rejected err
           | GeneratePending => rejected (PlainError "Request timed out")
           end |}.

(** Batches of [MAX_CONCURRENT_REQUESTS], one after the other, the
    requests of a batch pending together; [fuel] bounds the number of
    batches. *)
Fixpoint trigger_batches (fuel : nat) (client : CloudCode.Client)
    (prompt : string) (maxTokens : option Z) (models : list string)
    : M (list ModelTriggerResult) :=
  match fuel with
  | O => ret []
  | S fuel =>
      match models with
      | [] => ret []
      | _ =>
          let batch := take MAX_CONCURRENT_REQUESTS models in
          let! batchResults :=
            map_all (arrival env)
                    (fun modelId =>
                       triggerSingleModel client modelId prompt maxTokens)
                    batch in
          let! rest :=
            trigger_batches fuel client prompt maxTokens
              (drop MAX_CONCURRENT_REQUESTS models) in
          ret (batchResults ++ rest)%list
      end
  end.

Definition executeTrigger (options : TriggerOptions) : M TriggerResult :=
  let models := opt_models options in
  let accountEmail := opt_accountEmail options in
  if (length models =? 0)%nat then ret {| success := true; results := [] |}
  else
    let! manager :=
      try_catch
        (let! tm := getTokenManagerForAccount accountEmail in ret (Some tm))
        (fun _ => ret None) in
    match manager with
    | None =>
        let results :=
          map (fun modelId =>
                 failed modelId
                   ("Failed to get credentials for " ++ accountEmail))
              models in
        recordResults results options >>
        ret {| success := false; results := results |}
    | Some tokenManager =>
        let! refusal :=
          try_catch (getValidAccessToken tokenManager >> ret None)
                    (fun err => ret (Some err)) in
        match refusal with
        | Some err =>
            let errorMessage := refresh_error_message accountEmail err in
            let results :=
              map (fun modelId => failed modelId errorMessage) models in
            recordResults results options >>
            ret {| success := false; results := results |}
        | None =>
            let client :=
              {| CloudCode.client_account := accountEmail;
                 CloudCode.client_projectId := getProjectId tokenManager |} in
            let! client :=
              try_catch
                (let! r := CloudCode.resolveProjectId env
                             CloudCode.DEFAULT_MAX_RETRIES
                             CloudCode.DEFAULT_RETRY_DELAY_MS client in
                 match truthy r.1 with
                 | Some p => setProjectId tokenManager p >> ret r.2
                 | None => ret r.2
                 end)
                (fun _ => ret client) in
            let userPrompt := or_else (opt_customPrompt options) DEFAULT_PROMPT in
            let! results :=
              trigger_batches (length models) client userPrompt
                (opt_maxOutputTokens options) models in
            recordResults results options >>
            ret {| success := forallb res_success results;
                   results := results |}
        end
    end.

Definition testTrigger (modelId accountEmail : string)
    (prompt : option string) : M ModelTriggerResult :=
  let! result :=
    executeTrigger
      {| opt_models := [modelId]; opt_accountEmail := accountEmail;
         opt_triggerType := trigger_manual;
         opt_triggerSource := source_manual;
         opt_customPrompt := prompt; opt_maxOutputTokens := None |} in
  ret (default (failed modelId "No result returned") (head (results result))).

End WithEnv.

End TriggerService.

(** ** wakeup/reset-detector.ts *)

Module ResetDetectorConstants.

Definition FULL_QUOTA_THRESHOLD : Q := 99.
Definition RESET_TIME_MIN_HOURS : Q := 45 # 10.
Definition RESET_TIME_MAX_HOURS : Q := 55 # 10.
Definition RESET_TIME_MIN_MS : Q := RESET_TIME_MIN_HOURS * 60 * 60 * 1000.
Definition RESET_TIME_MAX_MS : Q := RESET_TIME_MAX_HOURS * 60 * 60 * 1000.
Definition DEFAULT_COOLDOWN_MS : Z := 60 * 60 * 1000.

End ResetDetectorConstants.
Export ResetDetectorConstants.

Definition isModelUnused (model : ModelQuotaInfo) : bool :=
  match remainingPercentage model with
  | None => false
  | Some pct =>
      if js_lt pct FULL_QUOTA_THRESHOLD then false
      else
        match timeUntilResetMs model with
        | None => false
        | Some t =>
            if js_lt t RESET_TIME_MIN_MS || js_gt t RESET_TIME_MAX_MS
            then false
            else true
        end
  end.

Definition findUnusedModels (snapshot : QuotaSnapshot) : list ModelQuotaInfo :=
  List.filter isModelUnused (models snapshot).

Definition hasUnusedModels (snapshot : QuotaSnapshot) : bool :=
  existsb isModelUnused (models snapshot).

Module ResetDetector.

Section WithEnv.
Context (env : Env).

Definition getAllValidAccounts : list string :=
  List.filter
    (fun email =>
       match getAccountStatus (accountManager env) email with
       | valid | expired => true
       | invalid => false
       end)
    (getAccountEmails (accountManager env)).

(** The cooldown test of the scan: [resetState[model.modelId]] is truthy
    and [DEFAULT_COOLDOWN_MS - (now - lastTriggered) > 0].
    An unparseable [lastTriggeredTime] makes the difference NaN, and
    [NaN > 0] is false; so does the [lastTriggeredTime] of an inherited
    member, which is [undefined]. *)
Definition in_cooldown (resetState : ResetState) (now : Z)
    (model : ModelQuotaInfo) : bool :=
  match js_get resetState (modelId model) with
  | Some (Entry previousState) =>
      match dateParse env (lastTriggeredTime previousState) with
      | Some lastTriggered =>
          let cooldownRemaining :=
            DEFAULT_COOLDOWN_MS - (now - lastTriggered) in
          (0 <? cooldownRemaining)%Z
      | None => false
      end
  | Some (Inherited _) => false
  | None => false
  end.

(** The loop over [snapshot.models]; [modelsToTrigger] is the batch
    collected so far. *)
Fixpoint scan (resetState : ResetState) (now : Z)
    (snapshot_models : list ModelQuotaInfo) (modelsToTrigger : list string)
    : M (list string) :=
  match snapshot_models with
  | [] => ret modelsToTrigger
  | model :: rest =>
      if negb (isModelUnused model) then
        scan resetState now rest modelsToTrigger
      else if in_cooldown resetState now model then
        scan resetState now rest modelsToTrigger
      else
        let! resetAt :=
          match truthy (resetTime model) with
          | Some s => ret s
          | None => new_Date_toISOString env
          end in
        Storage.updateResetState env (modelId model) resetAt >>
        scan resetState now rest (modelsToTrigger ++ [modelId model])%list
  end.

(** One account of the fan-out: the trigger, with everything it throws
    caught and logged. *)
Definition trigger_account (config : WakeupConfig)
    (modelsToTrigger : list string) (accountEmail : string) : M unit :=
  try_catch
    (TriggerService.executeTrigger env
       {| opt_models := modelsToTrigger;
          opt_accountEmail := accountEmail;
          opt_triggerType := trigger_auto;
          opt_triggerSource := source_quota_reset;
          opt_customPrompt := customPrompt config;
          opt_maxOutputTokens := Some (maxOutputTokens config) |} >>
     ret tt)
    (fun _ => ret tt).

Definition detectResetAndTrigger (snapshot : QuotaSnapshot) : M DetectionResult :=
  let nothing := {| triggered := false; triggeredModels := [] |} in
  let! config := Storage.loadWakeupConfig in
  match config with
  | None => ret nothing
  | Some config =>
      if negb (enabled config) then ret nothing
      else
        let accounts := getAllValidAccounts in
        if (length accounts =? 0)%nat then ret nothing
        else
          let! resetState := Storage.loadResetState in
          let! now := Date_now env in
          let! modelsToTrigger := scan resetState now (models snapshot) [] in
          if (length modelsToTrigger =? 0)%nat then ret nothing
          else
            for_each (trigger_account config modelsToTrigger) accounts >>
            ret {| triggered := true;
                   triggeredModels := modelsToTrigger |}
  end.

End WithEnv.

End ResetDetector.

(** ** Vocabulary of the statements *)

(** A duration given in hours, in milliseconds. *)
Definition hours_ms (h : Q) : Q := (h * 3600000)%Q.

(** What [loadTriggerHistory] reads from a disk. *)
Definition history_of (d : Disk) : list TriggerRecord :=
  match history_json d with Stored v => v | _ => [] end.

(** What [loadResetState] reads from a disk. *)
Definition reset_state_of (d : Disk) : ResetState :=
  match reset_state_json d with Stored v => v | _ => ∅ end.

(** The account exists in the directory and its status is [valid] or
    [expired]. *)
Definition eligible (manager : AccountManager) (email : string) : bool :=
  hasAccount manager email &&
  match getAccountStatus manager email with
  | valid => true
  | expired => true
  | invalid => false
  end.

(** The history record written for a model that failed before any request
    was made. *)
Definition failure_record (options : TriggerOptions) (stamp modelId message : string)
    : TriggerRecord :=
  {| rec_timestamp := stamp;
     rec_success := false;
     rec_triggerType := opt_triggerType options;
     rec_triggerSource := opt_triggerSource options;
     rec_models := [modelId];
     rec_accountEmail := opt_accountEmail options;
     rec_durationMs := 0;
     rec_prompt := or_else (opt_customPrompt options) TriggerService.DEFAULT_PROMPT;
     rec_response := None;
     rec_error := Some message;
     rec_tokensUsed := None |}.

(** The models the scan selects: unused and not in cooldown. *)
Definition selected (env : Env) (resetState : ResetState) (now : Z)
    (model : ModelQuotaInfo) : bool :=
  isModelUnused model && negb (ResetDetector.in_cooldown env resetState now model).

(** What the scan leaves alone. *)
Definition same_but_reset_state (w w' : World) : Prop :=
  write_fault (disk w') = write_fault (disk w) /\
  config_json (disk w') = config_json (disk w) /\
  history_of (disk w') = history_of (disk w) /\
  model_mapping_json (disk w') = model_mapping_json (disk w) /\
  credentials w' = credentials w /\
  trace w' = trace w.

(** The options with which the orchestrator calls the executor. *)
Definition reset_options (config : WakeupConfig) (batch : list string)
    (accountEmail : string) : TriggerOptions :=
  {| opt_models := batch;
     opt_accountEmail := accountEmail;
     opt_triggerType := trigger_auto;
     opt_triggerSource := source_quota_reset;
     opt_customPrompt := customPrompt config;
     opt_maxOutputTokens := Some (maxOutputTokens config) |}.

(** The tier choice in the words of the specification: the tier flagged
    default; else the account's current paid tier; else the first allowed
    tier. *)
Definition claimed_onboard_tier (allowedTiers : option (list Tier))
    (paid : option string) : option string :=
  let tiers := default [] allowedTiers in
  match List.find OAuth.is_default tiers with
  | Some defaultTier => tier_id defaultTier
  | None =>
      match truthy paid with
      | Some p => Some p
      | None =>
          match tiers with
          | first :: _ => tier_id first
          | [] => None
          end
      end
  end.

(** The tier choice of [pickOnboardTier], case by case. *)
Inductive tier_priority (allowedTiers : option (list Tier))
    (tierIdFromLoad : option string) : option string -> Prop :=
  | default_tier (before after : list Tier) (t : Tier) (i : string) :
      allowedTiers = Some (before ++ t :: after)%list ->
      Forall (fun t' => OAuth.is_default t' && OAuth.has_id t' = false) before ->
      OAuth.is_default t = true ->
      truthy (tier_id t) = Some i ->
      tier_priority allowedTiers tierIdFromLoad (Some i)
  | first_tier (before after : list Tier) (t : Tier) (i : string) :
      allowedTiers = Some (before ++ t :: after)%list ->
      Forall (fun t' => OAuth.is_default t' && OAuth.has_id t' = false)
        (before ++ t :: after)%list ->
      Forall (fun t' => OAuth.has_id t' = false) before ->
      truthy (tier_id t) = Some i ->
      tier_priority allowedTiers tierIdFromLoad (Some i)
  | legacy_tier (tiers : list Tier) :
      allowedTiers = Some tiers ->
      tiers <> [] ->
      Forall (fun t' => OAuth.has_id t' = false) tiers ->
      tier_priority allowedTiers tierIdFromLoad (Some "LEGACY")
  | tier_from_load :
      allowedTiers = None \/ allowedTiers = Some [] ->
      tier_priority allowedTiers tierIdFromLoad tierIdFromLoad.

(** [n] requests to the onboarding endpoint with a 2-second sleep between
    one and the next. *)
Fixpoint polls (accessToken tier : string) (n : nat) : list Event :=
  match n with
  | O => []
  | S k =>
      FetchOnboardUser accessToken tier ::
      match k with
      | O => []
      | S _ => Sleep 2000 :: polls accessToken tier k
      end
  end.

(** [n] reloads of the assist status, each after a 2-second sleep. *)
Definition reloads (account : string) (n : nat) : list Event :=
  concat (repeat [Sleep 2000; LoadCodeAssist account] n).

(** ** Sample data *)

Module Sample.

Definition manager : AccountManager := {|
  hasAccount := fun email => String.eqb email "a@x.com";
  getAccountStatus := fun email =>
    if String.eqb email "a@x.com" then valid else invalid;
  getActiveEmail := Some "a@x.com";
  getAccountEmails := ["a@x.com"]
|}.

(** The [TokenRefreshError] of a revoked refresh token. *)
Definition refresh_rejected : js_error :=
  DetailedError "Refresh token invalid or expired. Please login again."
    "Refresh token invalid or expired. Please login again.: invalid_grant".

(** An environment in which every credential refresh is rejected for
    good and no remote call gets through. *)
Definition env : Env := {|
  clock := fun n => 1767225600000 + Z.of_nat n;
  toISOString := fun _ => "2026-01-01T00:00:00.000Z";
  dateParse := fun s =>
    if String.eqb s "2025-12-31T23:50:00.000Z" then Some 1767225000000
    else None;
  accountManager := manager;
  credential_fault := fun _ => None;
  accessTokenReply := fun _ _ => inl refresh_rejected;
  loadCodeAssistReply := fun _ _ => inl (PlainError "Network error");
  onboardUserReply := fun _ _ _ => None;
  generateContentReply := fun _ _ _ _ _ => GeneratePending;
  arrival := fun n => n;
  fetchLoadCodeAssistReply := fun _ _ =>
    FetchResponse 200
      (Some {| cloudaicompanionProject := None; currentTier := None;
               paidTier := Some (Some "paid-tier");
               allowedTiers :=
                 Some [{| tier_id := Some "free-tier"; isDefault := None |}] |});
  fetchOnboardUserReply := fun _ _ _ => FetchResponse 500 None
|}.

Definition config : WakeupConfig := {|
  enabled := true;
  selectedModels := ["claude-sonnet-4-5"; "gemini-3-flash"];
  selectedAccounts := None;
  customPrompt := None;
  maxOutputTokens := 1;
  scheduleMode := interval;
  intervalHours := Some 6;
  dailyTimes := None;
  weeklySchedule := None;
  cronExpression := None;
  wakeOnReset := true;
  resetCooldownMinutes := 10
|}.

Definition empty_disk : Disk := {|
  config_json := Stored (Some config);
  history_json := Missing;
  reset_state_json := Missing;
  model_mapping_json := Missing;
  write_fault := None
|}.

Definition world (d : Disk) : World := {|
  disk := d;
  credentials := {[ "a@x.com" := {| stored_projectId := None |} ]};
  ticks := 0;
  trace := []
|}.

Definition record (n : nat) : TriggerRecord := {|
  rec_timestamp := "2026-01-01T00:00:00.000Z";
  rec_success := true;
  rec_triggerType := trigger_manual;
  rec_triggerSource := source_manual;
  rec_models := ["claude-sonnet-4-5"];
  rec_accountEmail := "a@x.com";
  rec_durationMs := Z.of_nat n;
  rec_prompt := "hi";
  rec_response := None;
  rec_error := None;
  rec_tokensUsed := None
|}.

(** A model at 100% with five hours to its reset. *)
Definition unused_model (modelId : string) : ModelQuotaInfo := {|
  label := modelId;
  modelId := modelId;
  remainingPercentage := Some 100%Q;
  isExhausted := false;
  resetTime := Some "2026-01-01T05:00:00.000Z";
  timeUntilResetMs := Some 18000000%Q
|}.

Definition options (models : list string) : TriggerOptions := {|
  opt_models := models;
  opt_accountEmail := "a@x.com";
  opt_triggerType := trigger_auto;
  opt_triggerSource := source_quota_reset;
  opt_customPrompt := None;
  opt_maxOutputTokens := Some 1
|}.

(** The snapshot of the scenarios: the one model [M1], unused. *)
Definition snapshot : QuotaSnapshot := {|
  snapshot_timestamp := "2026-01-01T00:00:00.000Z";
  models := [unused_model "M1"]
|}.

Definition w0 : World := world empty_disk.

(** Two model IDs of one quota pool, as in test/wakeup/storage.test.ts:
    the mapping sends [gemini-2.0-flash-exp] to the reset key
    [GEMINI_FLASH_CONSTANT]. *)
Definition mapping : ModelMapping :=
  {[ "gemini-2.0-flash-exp" := "GEMINI_FLASH_CONSTANT" ]}.

Definition mapped_disk : Disk := {|
  config_json := Stored (Some config);
  history_json := Missing;
  reset_state_json := Missing;
  model_mapping_json := Stored mapping;
  write_fault := None
|}.

(** The reset key was triggered ten minutes before the first clock
    reading. *)
Definition cooling_state : ResetState :=
  {[ "GEMINI_FLASH_CONSTANT" :=
       {| lastResetAt := "2026-01-01T04:50:00.000Z";
          lastTriggeredTime := "2025-12-31T23:50:00.000Z" |} ]}.

Definition cooling_disk : Disk := {|
  config_json := Stored (Some config);
  history_json := Missing;
  reset_state_json := Stored cooling_state;
  model_mapping_json := Stored mapping;
  write_fault := None
|}.

(** Every document on the disk is garbage, and the disk refuses writes. *)
Definition corrupted_disk : Disk := {|
  config_json := Unparseable;
  history_json := Unparseable;
  reset_state_json := Unparseable;
  model_mapping_json := Unparseable;
  write_fault := Some (PlainError "EACCES: permission denied")
|}.

Definition flash_snapshot : QuotaSnapshot := {|
  snapshot_timestamp := "2026-01-01T00:00:00.000Z";
  models := [unused_model "gemini-2.0-flash-exp"]
|}.

End Sample.

(** * Further parts of the program

    The description of the account resolution (wakeup/account-resolver.ts),
    the trigger run by the schedule (commands/wakeup.ts), the refresh of the
    access token (google/token-manager.ts) and the parser of a model of the
    API (google/parser.ts); then the vocabulary of the further properties
    and their sample data. *)

(** ** wakeup/account-resolver.ts: the description of the resolution *)

From Stdlib Require Import DecimalString.

Module AccountResolution.

(** [getAccountResolutionStatus]; the number is written in decimal. *)
Definition getAccountResolutionStatus (manager : AccountManager)
    (selectedAccounts : option (list string)) : string :=
  let resolved := AccountResolver.resolveAccounts manager selectedAccounts in
  match resolved with
  | [] =>
      match selectedAccounts with
      | Some (_ :: _) => "Selected accounts are invalid or not found"
      | _ => "No valid accounts available"
      end
  | [only] => "Using account: " ++ only
  | _ =>
      "Using " ++ NilEmpty.string_of_uint (Nat.to_uint (length resolved)) ++
      " accounts: " ++ String.concat ", " resolved
  end.

End AccountResolution.

(** ** commands/wakeup.ts: the trigger run by the schedule *)

Module WakeupCommand.

Section WithEnv.
Context (env : Env).

(** [runScheduledTrigger]; the line it prints after each account reads
    the clock once. *)
Definition runScheduledTrigger (isScheduled : bool) : M unit :=
  let! config := Storage.loadWakeupConfig in
  match config with
  | None => ret tt
  | Some config =>
      if negb (enabled config) then ret tt
      else
        let accounts :=
          AccountResolver.resolveAccounts (accountManager env)
            (selectedAccounts config) in
        if (length accounts =? 0)%nat then ret tt
        else if (length (selectedModels config) =? 0)%nat then ret tt
        else
          for_each
            (fun accountEmail =>
               let! result :=
                 TriggerService.executeTrigger env
                   {| opt_models := selectedModels config;
                      opt_accountEmail := accountEmail;
                      opt_triggerType := trigger_auto;
                      opt_triggerSource :=
                        if isScheduled then source_scheduled else source_manual;
                      opt_customPrompt := customPrompt config;
                      opt_maxOutputTokens := Some (maxOutputTokens config) |} in
               let! stamp := new_Date_toISOString env in
               ret tt)
            accounts
  end.

End WithEnv.

End WakeupCommand.

(** ** google/token-manager.ts: the refresh of the access token *)

Module GoogleTokenManager.

Definition EXPIRY_BUFFER_MS : Z := 5 * 60 * 1000.
Definition MAX_RETRIES : nat := 3.
Definition BASE_DELAY_MS : Z := 1000.

(** The tokens of an account as they are stored (quota/types.ts). *)
Record Tokens : Type := {
  tok_accessToken : string;
  tok_refreshToken : option string;
  tok_expiresAt : Z;
  tok_email : option string;
  tok_projectId : option string
}.

(** The reply of the token endpoint. *)
Record OAuthTokenResponse : Type := {
  access_token : string;
  refresh_token : option string;
  expires_in : Z
}.

(** What the manager does to the outside. *)
Inductive Call : Type :=
  | Refresh (refreshToken : string)
  | SaveAccountTokens (account : string) (tokens : Tokens)
  | UpdateLastUsed (account : string)
  | SaveTokens (tokens : Tokens)
  | Pause (ms : Z).

(** The manager ([this.tokens]), the calls made so far, oldest first, and
    the number of clock readings. *)
Record State : Type := {
  tokens : option Tokens;
  calls : list Call;
  readings : nat
}.

(** What [refreshToken] and [getValidAccessToken] throw: a
    [NotLoggedInError], or a [TokenRefreshError] with the message of its
    cause and its [isRetryable] flag. *)
Inductive Failure : Type :=
  | NotLoggedIn (message : string)
  | TokenRefreshFailed (message : string) (cause : option string) (isRetryable : bool).

(** The thrown value as the trigger executor sees it:
    [getDetailedMessage()] is the message followed by that of the cause. *)
Definition thrown_value (f : Failure) : js_error :=
  match f with
  | NotLoggedIn message => PlainError message
  | TokenRefreshFailed message cause _ =>
      DetailedError message
        (match cause with
         | Some c => message ++ ": " ++ c
         | None => message
         end)
  end.

Inductive Result (A : Type) : Type :=
  | Done (a : A) (s : State)
  | Failed (f : Failure) (s : State).
Arguments Done {A} a s.
Arguments Failed {A} f s.

(** [s.includes(needle)] *)
Fixpoint includes (s needle : string) : bool :=
  String.prefix needle s ||
  match s with
  | EmptyString => false
  | String _ rest => includes rest needle
  end.

Definition called (c : Call) (s : State) : State :=
  {| tokens := tokens s; calls := (calls s ++ [c])%list; readings := readings s |}.

Section WithOracle.

(** [String.prototype.toLowerCase], the clock, the token endpoint
    ([refreshAccessToken] of google/oauth.ts, its reply indexed by the
    number of calls made before), the failures of the account storage, and
    the account the manager was made for. *)
Context (toLowerCase : string -> string)
        (clock : nat -> Z)
        (refreshAccessTokenReply : string -> nat -> js_error + OAuthTokenResponse)
        (storageFault : nat -> option js_error)
        (accountEmail : option string).

Definition isPermanentError (message : string) : bool :=
  let errorMessage := toLowerCase message in
  includes errorMessage "invalid_grant" ||
  includes errorMessage "400" ||
  includes errorMessage "401" ||
  includes errorMessage "invalid_token" ||
  includes errorMessage "token has been revoked".

(** The body of the [try] of one attempt.  It gives the state it leaves,
    the tokens and the refresh token the manager then holds, and the error
    it threw, if any. *)
Definition attempt_once (t : Tokens) (rt : string) (s : State)
    : State * Tokens * string * option js_error :=
  let s1 := called (Refresh rt) s in
  match refreshAccessTokenReply rt (length (calls s)) with
  | inl err => (s1, t, rt, Some err)
  | inr response =>
      let rt' := or_else (refresh_token response) rt in
      let t' := {| tok_accessToken := access_token response;
                   tok_refreshToken := Some rt';
                   tok_expiresAt := clock (readings s1) + expires_in response * 1000;
                   tok_email := tok_email t;
                   tok_projectId := tok_projectId t |} in
      let s2 := {| tokens := Some t'; calls := calls s1;
                   readings := S (readings s1) |} in
      match truthy accountEmail with
      | Some account =>
          let s3 := called (SaveAccountTokens account t') s2 in
          match storageFault (length (calls s2)) with
          | Some err => (s3, t', rt', Some err)
          | None =>
              let s4 := called (UpdateLastUsed account) s3 in
              match storageFault (length (calls s3)) with
              | Some err => (s4, t', rt', Some err)
              | None => (s4, t', rt', None)
              end
          end
      | None =>
          let s3 := called (SaveTokens t') s2 in
          match storageFault (length (calls s2)) with
          | Some err => (s3, t', rt', Some err)
          | None => (s3, t', rt', None)
          end
      end
  end.

(** The loop of [refreshToken] from attempt number [attempt] on, with
    [remaining] attempts left; on success it gives the tokens the manager
    holds. *)
Fixpoint refresh_loop (attempt remaining : nat) (t : Tokens) (rt : string)
    (lastError : option string) (s : State) : Result Tokens :=
  match remaining with
  | O =>
      Failed (TokenRefreshFailed "Failed to refresh token after 3 attempts"
                lastError true) s
  | S remaining =>
      match attempt_once t rt s with
      | (s', t', rt', None) => Done t' s'
      | (s', t', rt', Some err) =>
          let message := error_text err in
          if isPermanentError message then
            Failed (TokenRefreshFailed
                      "Refresh token invalid or expired. Please login again."
                      (Some message) false) s'
          else
            let s'' :=
              if (attempt <? MAX_RETRIES)%nat
              then called (Pause (BASE_DELAY_MS * 2 ^ Z.of_nat (attempt - 1))) s'
              else s' in
            refresh_loop (S attempt) remaining t' rt' (Some message) s''
      end
  end.

Definition refreshToken (s : State) : Result Tokens :=
  let notLoggedIn :=
    Failed (NotLoggedIn "No refresh token available. Please login again.") s in
  match tokens s with
  | None => notLoggedIn
  | Some t =>
      match truthy (tok_refreshToken t) with
      | None => notLoggedIn
      | Some rt => refresh_loop 1 MAX_RETRIES t rt None s
      end
  end.

(** [isTokenExpired] reads the clock once. *)
Definition getValidAccessToken (s : State) : Result string :=
  match tokens s with
  | None => Failed (NotLoggedIn "Not logged in. Run: antigravity-usage login") s
  | Some t =>
      let expired := (tok_expiresAt t - EXPIRY_BUFFER_MS <=? clock (readings s))%Z in
      let s1 := {| tokens := tokens s; calls := calls s;
                   readings := S (readings s) |} in
      if expired then
        match refreshToken s1 with
        | Done t' s2 => Done (tok_accessToken t') s2
        | Failed f s2 => Failed f s2
        end
      else Done (tok_accessToken t) s1
  end.

End WithOracle.

End GoogleTokenManager.

(** ** google/parser.ts: a model of the API as a quota record *)

Module Parser.

(** [ModelInfo] of google/cloudcode.ts, as far as the parser reads it. *)
Record QuotaInfo : Type := {
  remainingFraction : option Q;
  quota_resetTime : option string;
  quota_isExhausted : option bool
}.

Record ModelInfo : Type := {
  displayName : option string;
  info_label : option string;
  quotaInfo : option QuotaInfo
}.

Section WithEnv.
Context (env : Env).

(** The time until the reset in milliseconds, when it is positive.  An
    unparseable date gives [NaN], and [NaN > 0] is false. *)
Definition parseResetTime (resetTime : option string) : M (option Q) :=
  match truthy resetTime with
  | None => ret None
  | Some resetTime =>
      let! now := Date_now env in
      ret (match dateParse env resetTime with
           | Some resetDate =>
               let diff := resetDate - now in
               if (0 <? diff)%Z then Some (inject_Z diff) else None
           | None => None
           end)
  end.

(** [parseModelInfo]; the field [isAutocompleteOnly], which the wake-up
    engine does not read, is not part of the record. *)
Definition parseModelInfo (modelId : string) (model : ModelInfo) : M ModelQuotaInfo :=
  let quotaInfo := quotaInfo model in
  let! timeUntilResetMs := parseResetTime (quotaInfo ≫= quota_resetTime) in
  ret {| label := or_else (or_opt (displayName model) (info_label model)) modelId;
         modelId := modelId;
         remainingPercentage := quotaInfo ≫= remainingFraction;
         isExhausted :=
           match quotaInfo ≫= quota_isExhausted with
           | Some b => b
           | None =>
               match quotaInfo ≫= remainingFraction with
               | Some f => Qeq_bool f 0
               | None => false
               end
           end;
         resetTime := quotaInfo ≫= quota_resetTime;
         timeUntilResetMs := timeUntilResetMs |}.

End WithEnv.

End Parser.

(** ** Vocabulary of the further properties *)

(** A computation keeps an observation of the world: whatever it does,
    the observation is the same in the world it leaves. *)
Definition keeps {A B : Type} (observe : World -> B) (c : M A) : Prop :=
  forall w : World, observe (world_of (c w)) = observe w.

(** The accounts whose tokens were loaded, in the order of the loads. *)
Definition token_loads (t : list Event) : list string :=
  flat_map (fun ev => match ev with LoadAccountTokens a => [a] | _ => [] end) t.

(** The generation requests of a trace, in the order they were sent. *)
Definition generation_requests (t : list Event)
    : list (string * string * string * option Z) :=
  flat_map (fun ev =>
              match ev with
              | GenerateContent a m p k => [(a, m, p, k)]
              | _ => []
              end) t.

(** The documents that are not the history, and whether writes fail. *)
Definition besides_history (w : World)
    : file (option WakeupConfig) * file ResetState * file ModelMapping *
      option js_error :=
  (config_json (disk w), reset_state_json (disk w),
   model_mapping_json (disk w), write_fault (disk w)).

(** The history record of a result. *)
Definition record_of (options : TriggerOptions) (stamp : string)
    (result : ModelTriggerResult) : TriggerRecord :=
  {| rec_timestamp := stamp;
     rec_success := res_success result;
     rec_triggerType := opt_triggerType options;
     rec_triggerSource := opt_triggerSource options;
     rec_models := [res_modelId result];
     rec_accountEmail := opt_accountEmail options;
     rec_durationMs := res_durationMs result;
     rec_prompt := or_else (opt_customPrompt options) TriggerService.DEFAULT_PROMPT;
     rec_response := res_response result;
     rec_error := res_error result;
     rec_tokensUsed := res_tokensUsed result |}.

(** The records of a list of results, stamped with the clock readings from
    number [tick] on. *)
Fixpoint records_from (env : Env) (options : TriggerOptions) (tick : nat)
    (results : list ModelTriggerResult) : list TriggerRecord :=
  match results with
  | [] => []
  | result :: rest =>
      record_of options (toISOString env (clock env tick)) result ::
      records_from env options (S tick) rest
  end.

(** A result carries a response, of at most 500 characters, exactly when it
    succeeded, and an error exactly when it failed. *)
Definition well_formed (result : ModelTriggerResult) : Prop :=
  if res_success result
  then res_error result = None /\
       exists text : string,
         res_response result = Some text /\ (String.length text <= 500)%nat
  else res_response result = None /\ res_tokensUsed result = None /\
       exists message : string, res_error result = Some message.

(** Events of the plumbing around a trigger: token refresh, project
    resolution and waiting. *)
Definition is_plumbing (ev : Event) : bool :=
  match ev with
  | GetValidAccessToken _ | LoadCodeAssist _ | OnboardUser _ _ | Sleep _ => true
  | _ => false
  end.

(** An observation that looks neither at the clock, nor at the credentials,
    nor at plumbing events. *)
Definition plumbing_blind {B : Type} (observe : World -> B) : Prop :=
  (forall (n : nat) (w : World), observe (with_ticks n w) = observe w) /\
  (forall (c : gmap string StoredTokens) (w : World),
     observe (with_credentials c w) = observe w) /\
  (forall (ev : Event) (w : World),
     is_plumbing ev = true ->
     observe (with_trace (trace w ++ [ev])%list w) = observe w).

(** An observation that does not look at the history document. *)
Definition history_blind {B : Type} (observe : World -> B) : Prop :=
  forall (h : list TriggerRecord) (w : World),
    observe (with_disk (store HISTORY_FILE_NAME h (disk w)) w) = observe w.

(** An observation that does not look at a given event. *)
Definition event_blind {B : Type} (observe : World -> B) (ev : Event) : Prop :=
  forall w : World, observe (with_trace (trace w ++ [ev])%list w) = observe w.

(** What [loadModelMapping] reads from a disk. *)
Definition mapping_of (d : Disk) : ModelMapping :=
  match model_mapping_json d with Stored v => v | _ => ∅ end.

(** What [loadWakeupConfig] reads from a disk. *)
Definition config_of (d : Disk) : option WakeupConfig :=
  match config_json d with Stored v => v | _ => None end.

(** The documents that are not the configuration. *)
Definition besides_config (d : Disk)
    : file (list TriggerRecord) * file ResetState * file ModelMapping :=
  (history_json d, reset_state_json d, model_mapping_json d).

(** [n] reloads of the assist status, each after a sleep of [delay]
    milliseconds. *)
Definition reloads_every (delay : Z) (account : string) (n : nat) : list Event :=
  concat (repeat [Sleep delay; LoadCodeAssist account] n).

(** The project ID a reply to the load of the assist status brings: the
    project when it is a string, its [id] when it is an object, unless
    empty. *)
Definition brought_project (response : LoadCodeAssistResponse) : option string :=
  match cloudaicompanionProject response with
  | Some (ProjectString s) => if String.eqb s "" then None else Some s
  | Some (ProjectObject (Some i)) => if String.eqb i "" then None else Some i
  | Some (ProjectObject None) => None
  | None => None
  end.

(** A reload of the assist status after which the API client stops
    reloading: the load that is event [n] of the trace throws, or brings a
    project ID. *)
Definition ends_the_reloads (env : Env) (account : string) (n : nat) : bool :=
  match loadCodeAssistReply env account n with
  | inl _ => true
  | inr response =>
      match brought_project response with Some _ => true | None => false end
  end.

(** A reply to the onboarding request after which [tryOnboardUser] goes on
    to the next attempt: the request failed, the status is an error other
    than 401 and 403, the body is not JSON, or [done] is not [true]. *)
Definition retryable (reply : FetchReply OnboardUserResponse) : bool :=
  match reply with
  | FetchRejected _ => true
  | FetchResponse status body =>
      if negb (OAuth.ok status) then negb ((status =? 401) || (status =? 403))%Z
      else
        match body with
        | None => true
        | Some data => match done data with Some true => false | _ => true end
        end
  end.

(** The project ID a reply that ends the attempts gives. *)
Definition onboarded_project (reply : FetchReply OnboardUserResponse) : option string :=
  match reply with
  | FetchResponse status (Some data) =>
      if OAuth.ok status then OAuth.extractProjectId (onboard_project data) else None
  | _ => None
  end.

(** The body of a reply to the load of the assist status, when the
    request went through with a 2xx status and a JSON body. *)
Definition loaded (reply : FetchReply LoadCodeAssistResponse)
    : option LoadCodeAssistResponse :=
  match reply with
  | FetchResponse status (Some data) => if OAuth.ok status then Some data else None
  | _ => None
  end.

(** The options with which [testTrigger] calls the executor. *)
Definition test_options (modelId accountEmail : string) (prompt : option string)
    : TriggerOptions :=
  {| opt_models := [modelId];
     opt_accountEmail := accountEmail;
     opt_triggerType := trigger_manual;
     opt_triggerSource := source_manual;
     opt_customPrompt := prompt;
     opt_maxOutputTokens := None |}.

(** The result the executor makes of a reply to a generation request;
    the duration is left open. *)
Definition result_of_reply (modelId : string) (durationMs : Z) (reply : GenerateReply)
    : ModelTriggerResult :=
  match reply with
  | Generated text tokensUsed =>
      {| res_modelId := modelId; res_success := true; res_durationMs := durationMs;
         res_response := Some (String.substring 0 500 text);
         res_error := None; res_tokensUsed := tokensUsed |}
  | GenerateFailed err =>
      {| res_modelId := modelId; res_success := false; res_durationMs := durationMs;
         res_response := None; res_error := Some (error_text err);
         res_tokensUsed := None |}
  | GeneratePending =>
      {| res_modelId := modelId; res_success := false; res_durationMs := durationMs;
         res_response := None; res_error := Some "Request timed out";
         res_tokensUsed := None |}
  end.

(** The result of a single trigger is made of the reply to a request for
    its model. *)
Definition replied (env : Env) (client : CloudCode.Client) (prompt : string)
    (maxTokens : option Z) (model : string) (r : ModelTriggerResult) : Prop :=
  exists (n : nat) (durationMs : Z),
    r = result_of_reply model durationMs
          (generateContentReply env (CloudCode.client_account client) model prompt
             maxTokens n).

(** The calls of a list that are still waiting. *)
Fixpoint count_waiting {B : Type} (calls : list (Call B)) : nat :=
  match calls with
  | [] => O
  | Waiting _ :: rest => S (count_waiting rest)
  | Settled _ :: rest => count_waiting rest
  end.

(** A suspended call that returns whenever it is resumed, with a result
    that is [good] for [x], in a world that [stays] with the one it was
    resumed in. *)
Definition settles {A B : Type} (good : A -> B -> Prop)
    (stays : World -> World -> Prop) (x : A) (s : Suspended B) : Prop :=
  forall w : World,
    exists (b : B) (w' : World), resume s w = Returns b w' /\ good x b /\ stays w w'.

Definition answers {A B : Type} (good : A -> B -> Prop)
    (stays : World -> World -> Prop) (x : A) (call : Call B) : Prop :=
  match call with
  | Waiting s => settles good stays x s
  | Settled b => good x b
  end.

(** Two worlds between which only the clock was read. *)
Definition only_ticks (w w' : World) : Prop :=
  disk w' = disk w /\ credentials w' = credentials w /\ trace w' = trace w /\
  (ticks w <= ticks w')%nat.

(** The options with which the scheduled run calls the executor. *)
Definition scheduled_options (config : WakeupConfig) (isScheduled : bool)
    (accountEmail : string) : TriggerOptions :=
  {| opt_models := selectedModels config;
     opt_accountEmail := accountEmail;
     opt_triggerType := trigger_auto;
     opt_triggerSource := if isScheduled then source_scheduled else source_manual;
     opt_customPrompt := customPrompt config;
     opt_maxOutputTokens := Some (maxOutputTokens config) |}.


(** The calls of three attempts at a refresh: a pause of 1 second after
    the first request, of 2 seconds after the second, none after the
    third. *)
Definition three_attempts (rt : string) : list GoogleTokenManager.Call :=
  [GoogleTokenManager.Refresh rt; GoogleTokenManager.Pause 1000;
   GoogleTokenManager.Refresh rt; GoogleTokenManager.Pause 2000;
   GoogleTokenManager.Refresh rt].

(** A reply of the token endpoint that makes [refreshToken] try again: an
    error whose message is not that of a permanent error. *)
Definition transient (toLowerCase : string -> string)
    (reply : js_error + GoogleTokenManager.OAuthTokenResponse) : bool :=
  match reply with
  | inl err =>
      negb (GoogleTokenManager.isPermanentError toLowerCase (error_text err))
  | inr _ => false
  end.

(** [k] failed attempts from attempt number [attempt] on, each followed by
    its pause. *)
Fixpoint failed_attempts (rt : string) (attempt k : nat)
    : list GoogleTokenManager.Call :=
  match k with
  | O => []
  | S k =>
      GoogleTokenManager.Refresh rt ::
      GoogleTokenManager.Pause (1000 * 2 ^ Z.of_nat (attempt - 1)) ::
      failed_attempts rt (S attempt) k
  end.

(** The message of the error a reply of the token endpoint carries. *)
Definition cause_of (reply : js_error + GoogleTokenManager.OAuthTokenResponse)
    : option string :=
  match reply with
  | inl err => Some (error_text err)
  | inr _ => None
  end.

(** The remaining fraction of a model of the API is a fraction: at most 1
    when it is there. *)
Definition fraction_at_most_one (model : Parser.ModelInfo) : Prop :=
  match Parser.quotaInfo model ≫= Parser.remainingFraction with
  | Some f => (f <= 1)%Q
  | None => True
  end.

(** ** Further sample data *)

Module Fixture.

(** The environment of the samples, except that the token file of no
    account can be read. *)
Definition env_without_credentials : Env := {|
  clock := clock Sample.env;
  toISOString := toISOString Sample.env;
  dateParse := dateParse Sample.env;
  accountManager := Sample.manager;
  credential_fault := fun _ => Some (PlainError "ENOENT: no such file or directory");
  accessTokenReply := accessTokenReply Sample.env;
  loadCodeAssistReply := loadCodeAssistReply Sample.env;
  onboardUserReply := onboardUserReply Sample.env;
  generateContentReply := generateContentReply Sample.env;
  arrival := arrival Sample.env;
  fetchLoadCodeAssistReply := fetchLoadCodeAssistReply Sample.env;
  fetchOnboardUserReply := fetchOnboardUserReply Sample.env
|}.

(** The environment of the samples with a clock that stands still at
    2026-01-01T00:00:00.000Z, and dates that parse back to it. *)
Definition env_standing_still : Env := {|
  clock := fun _ => 1767225600000;
  toISOString := fun _ => "2026-01-01T00:00:00.000Z";
  dateParse := fun s =>
    if String.eqb s "2026-01-01T00:00:00.000Z" then Some 1767225600000 else None;
  accountManager := Sample.manager;
  credential_fault := fun _ => None;
  accessTokenReply := accessTokenReply Sample.env;
  loadCodeAssistReply := loadCodeAssistReply Sample.env;
  onboardUserReply := onboardUserReply Sample.env;
  generateContentReply := generateContentReply Sample.env;
  arrival := arrival Sample.env;
  fetchLoadCodeAssistReply := fetchLoadCodeAssistReply Sample.env;
  fetchOnboardUserReply := fetchOnboardUserReply Sample.env
|}.

(** An environment in which everything works, for an account that is not
    onboarded yet: the first load of the assist status offers the free
    tier and no project, every later one gives the project; tokens are
    refreshed and the models answer. *)
Definition env_project_after_onboarding : Env := {|
  clock := clock Sample.env;
  toISOString := toISOString Sample.env;
  dateParse := dateParse Sample.env;
  accountManager := Sample.manager;
  credential_fault := fun _ => None;
  accessTokenReply := fun _ _ => inr "ya29.token";
  loadCodeAssistReply := fun _ n =>
    inr (if (n <=? 2)%nat
         then {| cloudaicompanionProject := None; currentTier := None;
                 paidTier := None;
                 allowedTiers :=
                   Some [{| tier_id := Some "free-tier"; isDefault := Some true |}] |}
         else {| cloudaicompanionProject := Some (ProjectString "projects/p1");
                 currentTier := Some (Some "free-tier"); paidTier := None;
                 allowedTiers := None |});
  onboardUserReply := fun _ _ _ => None;
  generateContentReply := fun _ _ _ _ _ => Generated "Hello!" None;
  arrival := arrival Sample.env;
  fetchLoadCodeAssistReply := fetchLoadCodeAssistReply Sample.env;
  fetchOnboardUserReply := fetchOnboardUserReply Sample.env
|}.

(** The same environment, except that of the requests that are pending
    together the one sent last is answered first. *)
Definition env_last_answered_first : Env := {|
  clock := clock env_project_after_onboarding;
  toISOString := toISOString env_project_after_onboarding;
  dateParse := dateParse env_project_after_onboarding;
  accountManager := Sample.manager;
  credential_fault := fun _ => None;
  accessTokenReply := accessTokenReply env_project_after_onboarding;
  loadCodeAssistReply := loadCodeAssistReply env_project_after_onboarding;
  onboardUserReply := onboardUserReply env_project_after_onboarding;
  generateContentReply := generateContentReply env_project_after_onboarding;
  arrival := fun n => (1000 - n)%nat;
  fetchLoadCodeAssistReply := fetchLoadCodeAssistReply Sample.env;
  fetchOnboardUserReply := fetchOnboardUserReply Sample.env
|}.

(** An environment in which onboarding is answered with a server error
    twice and completes at the third request. *)
Definition env_onboarded_at_third_attempt : Env := {|
  clock := clock Sample.env;
  toISOString := toISOString Sample.env;
  dateParse := dateParse Sample.env;
  accountManager := Sample.manager;
  credential_fault := fun _ => None;
  accessTokenReply := fun _ _ => inr "ya29.token";
  loadCodeAssistReply := loadCodeAssistReply Sample.env;
  onboardUserReply := onboardUserReply Sample.env;
  generateContentReply := generateContentReply Sample.env;
  arrival := arrival Sample.env;
  fetchLoadCodeAssistReply := fetchLoadCodeAssistReply Sample.env;
  fetchOnboardUserReply := fun _ _ n =>
    if (n <? 4)%nat then FetchResponse 503 None
    else FetchResponse 200
           (Some {| done := Some true;
                    onboard_project := Some (ProjectObject (Some "projects/p1")) |})
|}.

(** A valid configuration on a disk that refuses writes. *)
Definition readonly_disk : Disk := {|
  config_json := Stored (Some Sample.config);
  history_json := Missing;
  reset_state_json := Missing;
  model_mapping_json := Missing;
  write_fault := Some (PlainError "EACCES: permission denied")
|}.

(** Nothing on the disk yet. *)
Definition fresh_disk : Disk := {|
  config_json := Missing;
  history_json := Missing;
  reset_state_json := Missing;
  model_mapping_json := Missing;
  write_fault := None
|}.

(** A snapshot whose one model is half used. *)
Definition used_snapshot : QuotaSnapshot := {|
  snapshot_timestamp := "2026-01-01T00:00:00.000Z";
  models :=
    [{| label := "Gemini 3 Flash";
        modelId := "gemini-3-flash";
        remainingPercentage := Some 50%Q;
        isExhausted := false;
        resetTime := Some "2026-01-01T03:00:00.000Z";
        timeUntilResetMs := Some 10800000%Q |}]
|}.

(** The environment of the samples at 2026-01-01T00:00:00.000Z, with the
    reset five hours ahead. *)
Definition env_reset_in_five_hours : Env := {|
  clock := fun _ => 1767225600000;
  toISOString := fun _ => "2026-01-01T00:00:00.000Z";
  dateParse := fun s =>
    if String.eqb s "2026-01-01T05:00:00.000Z" then Some 1767243600000 else None;
  accountManager := Sample.manager;
  credential_fault := fun _ => None;
  accessTokenReply := accessTokenReply Sample.env;
  loadCodeAssistReply := loadCodeAssistReply Sample.env;
  onboardUserReply := onboardUserReply Sample.env;
  generateContentReply := generateContentReply Sample.env;
  arrival := arrival Sample.env;
  fetchLoadCodeAssistReply := fetchLoadCodeAssistReply Sample.env;
  fetchOnboardUserReply := fetchOnboardUserReply Sample.env
|}.

(** A model of the API with its whole quota left and the reset five
    hours ahead. *)
Definition full_model : Parser.ModelInfo := {|
  Parser.displayName := Some "Gemini 3 Flash";
  Parser.info_label := None;
  Parser.quotaInfo :=
    Some {| Parser.remainingFraction := Some 1%Q;
            Parser.quota_resetTime := Some "2026-01-01T05:00:00.000Z";
            Parser.quota_isExhausted := None |}
|}.

(** The record the parser makes of it, as a snapshot. *)
Definition parsed_snapshot : QuotaSnapshot := {|
  snapshot_timestamp := "2026-01-01T00:00:00.000Z";
  models :=
    [{| label := "Gemini 3 Flash";
        modelId := "gemini-3-flash";
        remainingPercentage := Some 1%Q;
        isExhausted := false;
        resetTime := Some "2026-01-01T05:00:00.000Z";
        timeUntilResetMs := Some (inject_Z 18000000) |}]
|}.

(** Lower case, for the letters A to Z. *)
Definition lower_letter (c : Ascii.ascii) : Ascii.ascii :=
  if ((65 <=? Ascii.nat_of_ascii c) && (Ascii.nat_of_ascii c <=? 90))%nat
  then Ascii.ascii_of_nat (Ascii.nat_of_ascii c + 32)
  else c.

Fixpoint lower (s : string) : string :=
  match s with
  | EmptyString => EmptyString
  | String c rest => String (lower_letter c) (lower rest)
  end.

(** A clock that stands at 2026-01-01T12:00:00.000Z. *)
Definition noon (n : nat) : Z := 1767268800000.

(** Tokens that expired an hour before. *)
Definition expired_tokens : GoogleTokenManager.Tokens := {|
  GoogleTokenManager.tok_accessToken := "ya29.old";
  GoogleTokenManager.tok_refreshToken := Some "1//refresh";
  GoogleTokenManager.tok_expiresAt := 1767265200000;
  GoogleTokenManager.tok_email := Some "a@x.com";
  GoogleTokenManager.tok_projectId := Some "projects/p1"
|}.

Definition expired_manager : GoogleTokenManager.State := {|
  GoogleTokenManager.tokens := Some expired_tokens;
  GoogleTokenManager.calls := [];
  GoogleTokenManager.readings := 0
|}.

Definition new_tokens : GoogleTokenManager.OAuthTokenResponse := {|
  GoogleTokenManager.access_token := "ya29.new";
  GoogleTokenManager.refresh_token := None;
  GoogleTokenManager.expires_in := 3599
|}.

(** A token endpoint that cannot be reached at first and then answers
    with status 400, as [refreshAccessToken] reports it. *)
Definition revoked_after_a_network_error (refreshToken : string) (n : nat)
    : js_error + GoogleTokenManager.OAuthTokenResponse :=
  if (n =? 0)%nat then inl (PlainError "fetch failed")
  else inl (PlainError "Token refresh failed: 400").

(** A token endpoint that cannot be reached at first and then gives new
    tokens. *)
Definition refreshed_after_a_network_error (refreshToken : string) (n : nat)
    : js_error + GoogleTokenManager.OAuthTokenResponse :=
  if (n =? 0)%nat then inl (PlainError "fetch failed") else inr new_tokens.

End Fixture.

(** * Properties *)

(** ** The unused-model predicate *)

Lemma js_lt_false_iff (a b : Q) : js_lt a b = false <-> (b <= a)%Q.
Proof.
  unfold js_lt. rewrite Qle_alt, <- Qcompare_antisym.
  destruct (Qcompare b a); simpl; split; intros H;
    first [reflexivity | discriminate | intros ?; discriminate | now destruct H].
Qed.

Lemma RESET_TIME_MIN_MS_hours : (RESET_TIME_MIN_MS == hours_ms (45 # 10))%Q.
Proof. reflexivity. Qed.

Lemma RESET_TIME_MAX_MS_hours : (RESET_TIME_MAX_MS == hours_ms (55 # 10))%Q.
Proof. reflexivity. Qed.

Lemma RESET_TIME_MIN_MS_le (t : Q) :
  (RESET_TIME_MIN_MS <= t)%Q <-> (hours_ms (45 # 10) <= t)%Q.
Proof. rewrite RESET_TIME_MIN_MS_hours. reflexivity. Qed.

Lemma RESET_TIME_MAX_MS_ge (t : Q) :
  (t <= RESET_TIME_MAX_MS)%Q <-> (t <= hours_ms (55 # 10))%Q.
Proof. rewrite RESET_TIME_MAX_MS_hours. reflexivity. Qed.

(** C1. [isModelUnused] answers true exactly when [remainingPercentage] is
    present and at least 99, [timeUntilResetMs] is present, and
    [timeUntilResetMs] lies in the closed interval from 4.5 hours to 5.5
    hours, in milliseconds; in every other case (a field absent, a bound
    violated) it answers false. *)
Theorem isModelUnused_spec (model : ModelQuotaInfo) :
  isModelUnused model = true <->
  exists pct t : Q,
    remainingPercentage model = Some pct /\
    (99 <= pct)%Q /\
    timeUntilResetMs model = Some t /\
    (hours_ms (45 # 10) <= t)%Q /\ (t <= hours_ms (55 # 10))%Q.
Proof.
  unfold isModelUnused, js_gt.
  destruct (remainingPercentage model) as [pct|].
  2: { split; [discriminate | intros (p & t & H & _); discriminate]. }
  destruct (js_lt pct FULL_QUOTA_THRESHOLD) eqn:Hp.
  { split; [discriminate |].
    intros (p & t & [= <-] & Hle & _).
    apply js_lt_false_iff in Hle. unfold FULL_QUOTA_THRESHOLD in Hp.
    congruence. }
  apply js_lt_false_iff in Hp.
  destruct (timeUntilResetMs model) as [t|].
  2: { split; [discriminate | intros (p & t & _ & _ & H & _); discriminate]. }
  destruct (js_lt t RESET_TIME_MIN_MS) eqn:Hlo; simpl.
  { split; [discriminate |].
    intros (p & t' & _ & _ & [= <-] & Hle & _).
    apply RESET_TIME_MIN_MS_le, js_lt_false_iff in Hle. congruence. }
  destruct (js_lt RESET_TIME_MAX_MS t) eqn:Hhi.
  { split; [discriminate |].
    intros (p & t' & _ & _ & [= <-] & _ & Hle).
    apply RESET_TIME_MAX_MS_ge, js_lt_false_iff in Hle. congruence. }
  apply js_lt_false_iff in Hlo, Hhi.
  split; [intros _ | reflexivity].
  exists pct, t. split; [reflexivity |]. split; [exact Hp |].
  split; [reflexivity |]. split.
  - apply RESET_TIME_MIN_MS_le, Hlo.
  - apply RESET_TIME_MAX_MS_ge, Hhi.
Qed.

(** ** The trigger history *)

Lemma loadTriggerHistory_reads (w : World) :
  Storage.loadTriggerHistory w = Returns (history_of (disk w)) w.
Proof.
  unfold Storage.loadTriggerHistory, Storage.readJsonFile, history_of. simpl.
  destruct (history_json (disk w)); reflexivity.
Qed.

Lemma disk_with_disk (d : Disk) (w : World) : disk (with_disk d w) = d.
Proof. reflexivity. Qed.

Lemma history_of_store (h : list TriggerRecord) (d : Disk) :
  history_of (store HISTORY_FILE_NAME h d) = h.
Proof. reflexivity. Qed.

Lemma take_app_take {A : Type} (n : nat) (l k : list A) :
  take n (l ++ take n k)%list = take n (l ++ k)%list.
Proof.
  rewrite !take_app, take_take. f_equal. f_equal.
  apply Nat.min_l, Nat.le_sub_l.
Qed.

Lemma addTriggerRecord_returns (record : TriggerRecord) (w : World) :
  write_fault (disk w) = None ->
  Storage.addTriggerRecord record w =
  Returns tt
    (with_disk
       (store HISTORY_FILE_NAME
          (take Storage.MAX_HISTORY_ENTRIES (record :: history_of (disk w)))
          (disk w)) w).
Proof.
  intros Hw. unfold Storage.addTriggerRecord, bind.
  rewrite loadTriggerHistory_reads.
  unfold Storage.saveTriggerHistory, Storage.writeJsonFile. rewrite Hw.
  destruct (Storage.MAX_HISTORY_ENTRIES <? length (record :: history_of (disk w)))%nat
    eqn:E; [reflexivity |].
  apply Nat.ltb_ge in E. now rewrite (take_ge _ _ E).
Qed.

(** Appending a run of records to a history within the bound: the records
    come first, newest in front, and the whole is cut at 100. *)
Lemma addTriggerRecord_run (records : list TriggerRecord) :
  forall w : World,
    write_fault (disk w) = None ->
    (length (history_of (disk w)) <= Storage.MAX_HISTORY_ENTRIES)%nat ->
    exists w' : World,
      for_each Storage.addTriggerRecord records w = Returns tt w' /\
      write_fault (disk w') = None /\
      history_of (disk w') =
        take Storage.MAX_HISTORY_ENTRIES (rev records ++ history_of (disk w))%list.
Proof.
  induction records as [|r records IH]; intros w Hw Hlen.
  - exists w. split; [reflexivity |]. split; [exact Hw |].
    simpl. now rewrite take_ge.
  - simpl. unfold bind at 1. rewrite (addTriggerRecord_returns r w Hw).
    set (w1 := with_disk _ w).
    destruct (IH w1) as (w' & Hrun & Hw' & Hh).
    + exact Hw.
    + unfold w1. rewrite disk_with_disk, history_of_store, length_take.
      apply Nat.le_min_l.
    + exists w'. split; [exact Hrun |]. split; [exact Hw' |].
      rewrite Hh. unfold w1.
      rewrite disk_with_disk, history_of_store, take_app_take, <- app_assoc.
      reflexivity.
Qed.

(** C4. Starting from an empty history, after 105 records are appended
    with [addTriggerRecord] the loaded history holds exactly 100 records:
    the 100 appended last, the newest first. *)
Theorem history_ring_buffer (w : World) (records : list TriggerRecord) :
  write_fault (disk w) = None ->
  Storage.loadTriggerHistory w = Returns [] w ->
  length records = 105%nat ->
  exists (w' : World) (history : list TriggerRecord),
    for_each Storage.addTriggerRecord records w = Returns tt w' /\
    Storage.loadTriggerHistory w' = Returns history w' /\
    length history = 100%nat /\
    history = rev (drop 5 records).
Proof.
  intros Hw Hempty Hlen.
  rewrite loadTriggerHistory_reads in Hempty.
  assert (H0 : history_of (disk w) = []) by congruence.
  destruct (addTriggerRecord_run records w Hw) as (w' & Hrun & _ & Hh).
  { rewrite H0. simpl. lia. }
  rewrite H0, app_nil_r in Hh.
  assert (Hrev : take Storage.MAX_HISTORY_ENTRIES (rev records) = rev (drop 5 records)).
  { rewrite <- (take_drop 5 records) at 1. rewrite rev_app_distr.
    rewrite take_app_le.
    - apply take_ge. rewrite length_rev, length_drop, Hlen. reflexivity.
    - rewrite length_rev, length_drop, Hlen. reflexivity. }
  exists w', (rev (drop 5 records)).
  split; [exact Hrun |]. split.
  - rewrite loadTriggerHistory_reads, Hh, Hrev. reflexivity.
  - split; [| reflexivity].
    rewrite length_rev, length_drop, Hlen. reflexivity.
Qed.

Lemma history_ring_buffer_witness :
  write_fault (disk (Sample.world Sample.empty_disk)) = None /\
  Storage.loadTriggerHistory (Sample.world Sample.empty_disk) =
    Returns [] (Sample.world Sample.empty_disk) /\
  length (map Sample.record (seq 0 105)) = 105%nat /\
  exists (w' : World) (history : list TriggerRecord),
    for_each Storage.addTriggerRecord (map Sample.record (seq 0 105))
      (Sample.world Sample.empty_disk) = Returns tt w' /\
    Storage.loadTriggerHistory w' = Returns history w' /\
    length history = 100%nat /\
    history = rev (drop 5 (map Sample.record (seq 0 105))).
Proof.
  split; [reflexivity |]. split; [reflexivity |]. split; [reflexivity |].
  apply (history_ring_buffer (Sample.world Sample.empty_disk)
           (map Sample.record (seq 0 105))); reflexivity.
Defined.

(** ** The reset state *)

Lemma loadResetState_reads (w : World) :
  Storage.loadResetState w = Returns (reset_state_of (disk w)) w.
Proof.
  unfold Storage.loadResetState, Storage.readJsonFile, reset_state_of. simpl.
  destruct (reset_state_json (disk w)); reflexivity.
Qed.

Lemma reset_state_of_store (state : ResetState) (d : Disk) :
  reset_state_of (store RESET_STATE_FILE_NAME state d) = state.
Proof. reflexivity. Qed.

(** What an assignment to a property leaves in the dictionary. *)
Lemma js_set_entry {V : Type} (key : string) (value : V) (obj : gmap string V) :
  key <> "__proto__" \/ is_Some (obj !! key) ->
  js_set key value obj = <[key := value]> obj.
Proof.
  intros Hkey. unfold js_set.
  destruct (obj !! key) as [v|] eqn:E; [reflexivity |].
  destruct (String.eqb_spec key "__proto__") as [-> | _]; [| reflexivity].
  destruct Hkey as [Hkey | [v Hv]]; [contradiction | discriminate].
Qed.


Lemma js_set_other {V : Type} (key key' : string) (value : V)
    (obj : gmap string V) :
  key' <> key -> js_set key value obj !! key' = obj !! key'.
Proof.
  intros Hne. unfold js_set.
  destruct (obj !! key); [apply lookup_insert_ne; congruence |].
  destruct (String.eqb key "__proto__"); [reflexivity |].
  apply lookup_insert_ne. congruence.
Qed.

(** What a read of a property finds. *)
Lemma js_get_entry {V : Type} (obj : gmap string V) (key : string) (v : V) :
  obj !! key = Some v -> js_get obj key = Some (Entry v).
Proof. intros E. unfold js_get. now rewrite E. Qed.

Lemma js_get_is_entry {V : Type} (obj : gmap string V) (key : string) (v : V) :
  js_get obj key = Some (Entry v) <-> obj !! key = Some v.
Proof.
  unfold js_get. destruct (obj !! key) as [v'|].
  - split; intros [= ->]; reflexivity.
  - destruct (existsb _ _); split; discriminate.
Qed.

Lemma updateResetState_returns (env : Env) (k resetAt : string) (w : World) :
  write_fault (disk w) = None ->
  Storage.updateResetState env k resetAt w =
  Returns tt
    (with_disk
       (store RESET_STATE_FILE_NAME
          (js_set k
             {| lastResetAt := resetAt;
                lastTriggeredTime := toISOString env (clock env (ticks w)) |}
             (reset_state_of (disk w)))
          (disk w))
       (with_ticks (S (ticks w)) w)).
Proof.
  intros Hw. unfold Storage.updateResetState, bind.
  rewrite loadResetState_reads.
  unfold new_Date_toISOString, Date_now, bind, ret.
  unfold Storage.saveResetState, Storage.writeJsonFile. simpl.
  rewrite Hw. reflexivity.
Qed.




(** ** The account resolver *)

(** C8. [resolveAccounts([])] is the empty list whatever the directory
    holds, and for a defined selection the result is the selection filtered,
    in its order, to the accounts that exist in the directory with status
    [valid] or [expired]. *)
Theorem resolveAccounts_explicit (manager : AccountManager) (selection : list string) :
  AccountResolver.resolveAccounts manager (Some []) = [] /\
  AccountResolver.resolveAccounts manager (Some selection) =
    List.filter (eligible manager) selection.
Proof.
  split; [reflexivity |].
  unfold AccountResolver.resolveAccounts.
  apply List.filter_ext. intros email. unfold eligible.
  destruct (hasAccount manager email); simpl; [| reflexivity].
  destruct (getAccountStatus manager email); reflexivity.
Qed.

(** ** The trigger executor *)

(** C9. With an empty [models] list [executeTrigger] returns
    [{success: true, results: []}] and leaves the world as it found it: no
    credentials are loaded or refreshed (the trace of outside calls is the
    same) and no history record is written (the disk is the same). *)
Theorem executeTrigger_no_models (env : Env) (options : TriggerOptions) (w : World) :
  opt_models options = [] ->
  TriggerService.executeTrigger env options w =
    Returns {| success := true; results := [] |} w.
Proof.
  intros Hm. unfold TriggerService.executeTrigger. rewrite Hm. reflexivity.
Qed.

Lemma executeTrigger_no_models_witness :
  opt_models (Sample.options []) = [] /\
  TriggerService.executeTrigger Sample.env (Sample.options [])
    (Sample.world Sample.empty_disk) =
    Returns {| success := true; results := [] |} (Sample.world Sample.empty_disk).
Proof.
  split; [reflexivity |].
  apply (executeTrigger_no_models Sample.env (Sample.options [])
           (Sample.world Sample.empty_disk)).
  reflexivity.
Defined.

(** ** Refresh failure *)

Lemma getTokenManagerForAccount_returns (env : Env) (email : string) (w : World) :
  credential_fault env email = None ->
  TriggerService.getTokenManagerForAccount env email w =
  Returns {| TriggerService.tm_accountEmail := email;
             TriggerService.tm_tokens := credentials w !! email |}
    (with_trace (trace w ++ [LoadAccountTokens email])%list w).
Proof.
  intros H. unfold TriggerService.getTokenManagerForAccount, bind, emit.
  rewrite H. reflexivity.
Qed.

Lemma getValidAccessToken_rejected (env : Env) (tm : TriggerService.TokenManager)
    (tokens : StoredTokens) (err : js_error) (w : World) :
  TriggerService.tm_tokens tm = Some tokens ->
  accessTokenReply env (TriggerService.tm_accountEmail tm) (length (trace w)) = inl err ->
  TriggerService.getValidAccessToken env tm w =
  Throws err
    (with_trace
       (trace w ++ [GetValidAccessToken (TriggerService.tm_accountEmail tm)])%list
       w).
Proof.
  intros Ht Hr. unfold TriggerService.getValidAccessToken. rewrite Ht.
  unfold bind, emit. rewrite Hr. reflexivity.
Qed.

Lemma recordResults_one (env : Env) (options : TriggerOptions)
    (result : ModelTriggerResult) (w : World) :
  write_fault (disk w) = None ->
  TriggerService.recordResults env [result] options w =
  Returns tt
    (with_disk
       (store HISTORY_FILE_NAME
          (take Storage.MAX_HISTORY_ENTRIES
             ({| rec_timestamp := toISOString env (clock env (ticks w));
                rec_success := res_success result;
                rec_triggerType := opt_triggerType options;
                rec_triggerSource := opt_triggerSource options;
                rec_models := [res_modelId result];
                rec_accountEmail := opt_accountEmail options;
                rec_durationMs := res_durationMs result;
                rec_prompt := or_else (opt_customPrompt options) TriggerService.DEFAULT_PROMPT;
                rec_response := res_response result;
                rec_error := res_error result;
                rec_tokensUsed := res_tokensUsed result |} :: history_of (disk w)))
          (disk w))
       (with_ticks (S (ticks w)) w)).
Proof.
  intros Hw. unfold TriggerService.recordResults, for_each, bind.
  unfold new_Date_toISOString, Date_now, bind, ret.
  rewrite addTriggerRecord_returns by exact Hw. reflexivity.
Qed.

Lemma executeTrigger_refresh_rejected (env : Env) (options : TriggerOptions)
    (w : World) (model : string) (tokens : StoredTokens) (err : js_error) :
  opt_models options = [model] ->
  write_fault (disk w) = None ->
  credential_fault env (opt_accountEmail options) = None ->
  credentials w !! opt_accountEmail options = Some tokens ->
  (forall n : nat, accessTokenReply env (opt_accountEmail options) n = inl err) ->
  TriggerService.executeTrigger env options w =
  Returns
    {| success := false;
       results := [TriggerService.failed model
                     (TriggerService.refresh_error_message (opt_accountEmail options) err)] |}
    (with_disk
       (store HISTORY_FILE_NAME
          (take Storage.MAX_HISTORY_ENTRIES
             (failure_record options (toISOString env (clock env (ticks w))) model
                (TriggerService.refresh_error_message (opt_accountEmail options) err)
              :: history_of (disk w)))
          (disk w))
       (with_ticks (S (ticks w))
          (with_trace
             (trace w ++ [LoadAccountTokens (opt_accountEmail options);
                          GetValidAccessToken (opt_accountEmail options)])%list
             w))).
Proof.
  intros Hm Hw Hcf Hcred Hrej.
  unfold TriggerService.executeTrigger. rewrite Hm.
  change ((length [model] =? 0)%nat) with false. cbv iota.
  unfold bind at 1, try_catch at 1, bind at 1.
  rewrite (getTokenManagerForAccount_returns env _ w Hcf).
  unfold ret at 1. rewrite Hcred.
  unfold bind at 1, try_catch at 1, bind at 1.
  erewrite getValidAccessToken_rejected; [| reflexivity | apply Hrej].
  unfold ret at 1. simpl map.
  unfold bind at 1.
  rewrite recordResults_one by exact Hw.
  unfold ret. simpl. rewrite <- app_assoc. reflexivity.
Qed.

Lemma scan_cons (env : Env) (resetState : ResetState) (now : Z)
    (model : ModelQuotaInfo) (rest : list ModelQuotaInfo) (batch : list string) :
  ResetDetector.scan env resetState now (model :: rest) batch =
  if negb (isModelUnused model) then
    ResetDetector.scan env resetState now rest batch
  else if ResetDetector.in_cooldown env resetState now model then
    ResetDetector.scan env resetState now rest batch
  else
    let! resetAt :=
      match truthy (resetTime model) with
      | Some s => ret s
      | None => new_Date_toISOString env
      end in
    Storage.updateResetState env (modelId model) resetAt >>
    ResetDetector.scan env resetState now rest (batch ++ [modelId model])%list.
Proof. reflexivity. Qed.

Lemma scan_returns (env : Env) (resetState : ResetState) (now : Z)
    (snapshot_models : list ModelQuotaInfo) :
  forall (batch : list string) (w : World),
    write_fault (disk w) = None ->
    exists w' : World,
      ResetDetector.scan env resetState now snapshot_models batch w =
      Returns
        (batch ++ map modelId (List.filter (selected env resetState now) snapshot_models))%list
        w' /\
      same_but_reset_state w w'.
Proof.
  induction snapshot_models as [|model rest IH]; intros batch w Hw.
  - exists w. simpl. rewrite app_nil_r. now repeat split.
  - rewrite scan_cons. simpl List.filter. unfold selected at 1.
    destruct (isModelUnused model);
      [destruct (ResetDetector.in_cooldown env resetState now model) |];
      cbn [negb andb].
    + apply IH, Hw.
    + cbv beta.
      assert (Hstep : exists (resetAt : string) (w1 : World),
        (match truthy (resetTime model) with
         | Some s => ret s
         | None => new_Date_toISOString env
         end) w = Returns resetAt w1 /\ disk w1 = disk w /\
         credentials w1 = credentials w /\ trace w1 = trace w).
      { destruct (truthy (resetTime model)); eexists _, _; (split; [reflexivity |]);
          now repeat split. }
      destruct Hstep as (resetAt & w1 & Hret & Hd & Hc & Ht).
      unfold bind at 1. rewrite Hret. unfold bind at 1.
      rewrite updateResetState_returns by (rewrite Hd; exact Hw).
      match goal with |- context [ResetDetector.scan _ _ _ _ _ ?w2] =>
        destruct (IH (batch ++ [modelId model])%list w2) as (w' & Hrun & Hsame)
      end.
      { rewrite disk_with_disk. simpl. rewrite Hd. exact Hw. }
      exists w'. split.
      * rewrite Hrun. simpl map. rewrite <- app_assoc. reflexivity.
      * destruct Hsame as (H1 & H2 & H3 & H4 & H5 & H6).
        rewrite disk_with_disk in H1, H2, H3, H4. simpl in H1, H2, H3, H4, H5, H6.
        unfold same_but_reset_state.
        rewrite H1, H2, H3, H4, H5, H6, Hd, Hc, Ht. now repeat split.
    + apply IH, Hw.
Qed.

Lemma loadWakeupConfig_pure (w : World) (c : option WakeupConfig) (w' : World) :
  Storage.loadWakeupConfig w = Returns c w' -> w' = w.
Proof.
  unfold Storage.loadWakeupConfig, Storage.readJsonFile.
  destruct (document CONFIG_FILE_NAME (disk w)); congruence.
Qed.

(** C5. One model [M1] in the batch, one eligible account whose credential
    refresh is rejected every time: [executeTrigger] answers
    [success = false] with [M1] failed, the history gains exactly one failed
    record for [M1], the only outside calls are the loading of the tokens
    and the rejected refresh (no generation request), and
    [detectResetAndTrigger] still returns [triggered = true] with
    [triggeredModels = [M1]].  The error of the result and of the record
    describes the rejection: it is the detailed message of the error where
    it has one, [Token refresh failed: ] and the message of any other
    [Error], and [Authentication failed for ] and the account otherwise; it
    is empty only where the detailed message of the error is. *)
Theorem refresh_failure_scenario (env : Env) (w : World) (snapshot : QuotaSnapshot)
    (config : WakeupConfig) (M1 : ModelQuotaInfo) (account : string)
    (tokens : StoredTokens) (err : js_error) :
  Storage.loadWakeupConfig w = Returns (Some config) w ->
  enabled config = true ->
  ResetDetector.getAllValidAccounts env = [account] ->
  models snapshot = [M1] ->
  isModelUnused M1 = true ->
  ResetDetector.in_cooldown env (reset_state_of (disk w)) (clock env (ticks w)) M1 = false ->
  write_fault (disk w) = None ->
  credential_fault env account = None ->
  credentials w !! account = Some tokens ->
  (forall n : nat, accessTokenReply env account n = inl err) ->
  exists (w1 w' : World) (stamp message : string),
    message =
      match err with
      | DetailedError _ detailed => detailed
      | PlainError text => "Token refresh failed: " ++ text
      | Thrown _ => "Authentication failed for " ++ account
      end /\
    (message = "" -> exists text : string, err = DetailedError text "") /\
    TriggerService.executeTrigger env (reset_options config [modelId M1] account) w1 =
      Returns
        {| success := false;
           results :=
             [{| res_modelId := modelId M1;
                 res_success := false;
                 res_durationMs := 0;
                 res_response := None;
                 res_error := Some message;
                 res_tokensUsed := None |}] |}
        w' /\
    ResetDetector.detectResetAndTrigger env snapshot w =
      Returns {| triggered := true; triggeredModels := [modelId M1] |} w' /\
    Storage.loadTriggerHistory w' =
      Returns
        (take 100
           ({| rec_timestamp := stamp;
               rec_success := false;
               rec_triggerType := trigger_auto;
               rec_triggerSource := source_quota_reset;
               rec_models := [modelId M1];
               rec_accountEmail := account;
               rec_durationMs := 0;
               rec_prompt := or_else (customPrompt config) "hi";
               rec_response := None;
               rec_error := Some message;
               rec_tokensUsed := None |}
            :: history_of (disk w)))
        w' /\
    trace w' = (trace w ++ [LoadAccountTokens account; GetValidAccessToken account])%list.
Proof.
  intros Hcfg Hen Hacc Hms Hun Hcool Hw Hcf Hcred Hrej.
  destruct (scan_returns env (reset_state_of (disk w)) (clock env (ticks w))
              [M1] [] (with_ticks (S (ticks w)) w) Hw)
    as (w1 & Hscan & Hf & _ & Hh & _ & Hc & Ht).
  assert (Hsel : selected env (reset_state_of (disk w)) (clock env (ticks w)) M1 = true).
  { unfold selected. now rewrite Hun, Hcool. }
  cbn [List.filter] in Hscan. rewrite Hsel in Hscan. cbn [map app] in Hscan.
  simpl in Hf, Hh, Hc, Ht.
  assert (Hexec := executeTrigger_refresh_rejected env
            (reset_options config [modelId M1] account) w1 (modelId M1) tokens err
            eq_refl (eq_trans Hf Hw) Hcf (eq_trans (f_equal (fun c => c !! account) Hc) Hcred)
            Hrej).
  simpl opt_accountEmail in Hexec.
  eexists w1, _, (toISOString env (clock env (ticks w1))), _.
  split; [reflexivity |]. split.
  { destruct err as [text detailed|text|text]; simpl.
    - intros ->. exists text. reflexivity.
    - discriminate.
    - discriminate. }
  split; [exact Hexec |]. split.
  - unfold ResetDetector.detectResetAndTrigger.
    unfold bind at 1. rewrite Hcfg. rewrite Hen. cbn [negb]. rewrite Hacc.
    change ((length [account] =? 0)%nat) with false. cbv iota.
    unfold bind at 1. rewrite loadResetState_reads.
    unfold bind at 1, Date_now at 1.
    unfold bind at 1. rewrite Hms, Hscan.
    change ((length [modelId M1] =? 0)%nat) with false. cbv iota.
    unfold bind at 1, for_each, bind at 1.
    unfold ResetDetector.trigger_account, try_catch, bind at 1.
    change {| opt_models := [modelId M1]; opt_accountEmail := account;
              opt_triggerType := trigger_auto;
              opt_triggerSource := source_quota_reset;
              opt_customPrompt := customPrompt config;
              opt_maxOutputTokens := Some (maxOutputTokens config) |}
      with (reset_options config [modelId M1] account).
    rewrite Hexec. reflexivity.
  - split.
    + rewrite loadTriggerHistory_reads, disk_with_disk, history_of_store, Hh.
      reflexivity.
    + simpl. rewrite Ht. reflexivity.
Qed.

Lemma refresh_failure_scenario_witness :
  Storage.loadWakeupConfig Sample.w0 = Returns (Some Sample.config) Sample.w0 /\
  enabled Sample.config = true /\
  ResetDetector.getAllValidAccounts Sample.env = ["a@x.com"] /\
  models Sample.snapshot = [Sample.unused_model "M1"] /\
  isModelUnused (Sample.unused_model "M1") = true /\
  ResetDetector.in_cooldown Sample.env (reset_state_of (disk Sample.w0))
    (clock Sample.env (ticks Sample.w0)) (Sample.unused_model "M1") = false /\
  write_fault (disk Sample.w0) = None /\
  credential_fault Sample.env "a@x.com" = None /\
  credentials Sample.w0 !! "a@x.com" = Some {| stored_projectId := None |} /\
  (forall n : nat, accessTokenReply Sample.env "a@x.com" n = inl Sample.refresh_rejected) /\
  exists (w1 w' : World) (stamp : string),
    TriggerService.executeTrigger Sample.env
      (reset_options Sample.config ["M1"] "a@x.com") w1 =
      Returns
        {| success := false;
           results :=
             [{| res_modelId := "M1";
                 res_success := false;
                 res_durationMs := 0;
                 res_response := None;
                 res_error :=
                   Some "Refresh token invalid or expired. Please login again.: invalid_grant";
                 res_tokensUsed := None |}] |}
        w' /\
    ResetDetector.detectResetAndTrigger Sample.env Sample.snapshot Sample.w0 =
      Returns {| triggered := true; triggeredModels := ["M1"] |} w' /\
    Storage.loadTriggerHistory w' =
      Returns
        (take 100
           ({| rec_timestamp := stamp;
               rec_success := false;
               rec_triggerType := trigger_auto;
               rec_triggerSource := source_quota_reset;
               rec_models := ["M1"];
               rec_accountEmail := "a@x.com";
               rec_durationMs := 0;
               rec_prompt := "hi";
               rec_response := None;
               rec_error :=
                 Some "Refresh token invalid or expired. Please login again.: invalid_grant";
               rec_tokensUsed := None |}
            :: history_of (disk Sample.w0)))
        w' /\
    trace w' =
      (trace Sample.w0 ++ [LoadAccountTokens "a@x.com"; GetValidAccessToken "a@x.com"])%list.
Proof.
  do 9 (split; [reflexivity |]).
  split; [intros n; reflexivity |].
  destruct (refresh_failure_scenario Sample.env Sample.w0 Sample.snapshot
              Sample.config (Sample.unused_model "M1") "a@x.com"
              {| stored_projectId := None |} Sample.refresh_rejected
              eq_refl eq_refl eq_refl eq_refl eq_refl eq_refl eq_refl eq_refl
              eq_refl (fun n => eq_refl))
    as (w1 & w' & stamp & message & Hmessage & _ & Hexec & Hrun & Hhistory & Htrace).
  simpl in Hmessage. subst message.
  exists w1, w', stamp.
  split; [exact Hexec |]. split; [exact Hrun |]. split; [exact Hhistory |].
  exact Htrace.
Defined.

(** ** The dedup key of the orchestrator *)

(** C2, at a model with a mapping entry.  The reset key of
    [gemini-2.0-flash-exp] is [GEMINI_FLASH_CONSTANT], the model is selected
    for triggering, and the reset state written by the orchestrator has its
    entry under the raw model ID and none under the reset key. *)
Theorem reset_state_keyed_by_raw_model_id :
  Storage.getResetKey "gemini-2.0-flash-exp" (Sample.world Sample.mapped_disk) =
    Returns "GEMINI_FLASH_CONSTANT" (Sample.world Sample.mapped_disk) /\
  result_of (ResetDetector.detectResetAndTrigger Sample.env Sample.flash_snapshot
               (Sample.world Sample.mapped_disk)) =
    Some {| triggered := true; triggeredModels := ["gemini-2.0-flash-exp"] |} /\
  reset_state_of
    (disk (world_of (ResetDetector.detectResetAndTrigger Sample.env
                       Sample.flash_snapshot (Sample.world Sample.mapped_disk))))
    !! "GEMINI_FLASH_CONSTANT" = None /\
  reset_state_of
    (disk (world_of (ResetDetector.detectResetAndTrigger Sample.env
                       Sample.flash_snapshot (Sample.world Sample.mapped_disk))))
    !! "gemini-2.0-flash-exp" =
    Some {| lastResetAt := "2026-01-01T05:00:00.000Z";
            lastTriggeredTime := "2026-01-01T00:00:00.000Z" |}.
Proof. repeat split; vm_compute; reflexivity. Qed.

(** C3, at a model with a mapping entry.  The reset key of the model was
    triggered ten minutes before now, the model meets the unused predicate,
    and the orchestrator triggers it again: the cooldown is looked up under
    the raw model ID, where there is no entry. *)
Theorem cooldown_of_reset_key_not_consulted :
  Storage.getResetKey "gemini-2.0-flash-exp" (Sample.world Sample.cooling_disk) =
    Returns "GEMINI_FLASH_CONSTANT" (Sample.world Sample.cooling_disk) /\
  reset_state_of Sample.cooling_disk !! "GEMINI_FLASH_CONSTANT" =
    Some {| lastResetAt := "2026-01-01T04:50:00.000Z";
            lastTriggeredTime := "2025-12-31T23:50:00.000Z" |} /\
  dateParse Sample.env "2025-12-31T23:50:00.000Z" =
    Some (clock Sample.env 0 - 10 * 60 * 1000) /\
  isModelUnused (Sample.unused_model "gemini-2.0-flash-exp") = true /\
  result_of (ResetDetector.detectResetAndTrigger Sample.env Sample.flash_snapshot
               (Sample.world Sample.cooling_disk)) =
    Some {| triggered := true; triggeredModels := ["gemini-2.0-flash-exp"] |}.
Proof. repeat split; vm_compute; reflexivity. Qed.

(** Whatever the executor does, the fan-out step for one account returns. *)
Lemma trigger_account_returns (env : Env) (config : WakeupConfig)
    (batch : list string) (accountEmail : string) (w : World) :
  exists w' : World,
    ResetDetector.trigger_account env config batch accountEmail w = Returns tt w'.
Proof.
  unfold ResetDetector.trigger_account, try_catch, bind.
  destruct (TriggerService.executeTrigger env _ w); eexists; reflexivity.
Qed.

Lemma fan_out_returns (env : Env) (config : WakeupConfig) (batch : list string)
    (accounts : list string) :
  forall w : World,
    exists w' : World,
      for_each (ResetDetector.trigger_account env config batch) accounts w =
      Returns tt w'.
Proof.
  induction accounts as [|a accounts IH]; intros w.
  - exists w. reflexivity.
  - destruct (trigger_account_returns env config batch a w) as (w1 & H1).
    destruct (IH w1) as (w' & H').
    exists w'. simpl. unfold bind. rewrite H1. exact H'.
Qed.

(** With a disk that takes writes the orchestrator returns, and what it
    reports is empty or the IDs of the snapshot's models that are unused and
    not in cooldown under their model ID, in snapshot order. *)
Lemma detectResetAndTrigger_returns (env : Env) (snapshot : QuotaSnapshot) (w : World) :
  write_fault (disk w) = None ->
  exists (r : DetectionResult) (w' : World),
    ResetDetector.detectResetAndTrigger env snapshot w = Returns r w' /\
    (triggeredModels r = [] \/
     triggeredModels r =
       map modelId
         (List.filter (selected env (reset_state_of (disk w)) (clock env (ticks w)))
            (models snapshot))).
Proof.
  intros Hw. unfold ResetDetector.detectResetAndTrigger.
  unfold bind at 1.
  destruct (Storage.loadWakeupConfig w) as [c w0|e w0] eqn:Hcfg.
  2: { unfold Storage.loadWakeupConfig, Storage.readJsonFile in Hcfg.
       destruct (document CONFIG_FILE_NAME (disk w)); discriminate. }
  apply loadWakeupConfig_pure in Hcfg as ->.
  destruct c as [config|]; [| eexists _, _; split; [reflexivity | now left]].
  destruct (negb (enabled config)); [eexists _, _; split; [reflexivity | now left] |].
  destruct (length (ResetDetector.getAllValidAccounts env) =? 0)%nat;
    [eexists _, _; split; [reflexivity | now left] |].
  unfold bind at 1. rewrite loadResetState_reads.
  unfold bind at 1, Date_now at 1. unfold bind at 1.
  destruct (scan_returns env (reset_state_of (disk w)) (clock env (ticks w))
              (models snapshot) [] (with_ticks (S (ticks w)) w) Hw)
    as (w1 & Hscan & _).
  rewrite Hscan. cbn [app].
  destruct (length _ =? 0)%nat; [eexists _, _; split; [reflexivity | now left] |].
  unfold bind at 1.
  destruct (fan_out_returns env config
              (map modelId (List.filter (selected env (reset_state_of (disk w))
                                           (clock env (ticks w))) (models snapshot)))
              (ResetDetector.getAllValidAccounts env) w1) as (w' & Hfan).
  rewrite Hfan. eexists _, _. split; [reflexivity | now right].
Qed.

(** The cooldown as the code keeps it: a snapshot model whose raw model ID
    has a reset-state entry triggered less than [DEFAULT_COOLDOWN_MS] before
    now is not in the batch. *)
Lemma cooldown_by_model_id (env : Env) (snapshot : QuotaSnapshot) (w : World)
    (model : ModelQuotaInfo) (previous : ModelResetState) (lastTriggered : Z)
    (r : DetectionResult) (w' : World) :
  write_fault (disk w) = None ->
  reset_state_of (disk w) !! modelId model = Some previous ->
  dateParse env (lastTriggeredTime previous) = Some lastTriggered ->
  clock env (ticks w) - lastTriggered < DEFAULT_COOLDOWN_MS ->
  ResetDetector.detectResetAndTrigger env snapshot w = Returns r w' ->
  ~ In (modelId model) (triggeredModels r).
Proof.
  intros Hw Hprev Hparse Hrecent Hrun.
  destruct (detectResetAndTrigger_returns env snapshot w Hw) as (r0 & w0 & Hret & Hbatch).
  rewrite Hret in Hrun. injection Hrun as <- <-.
  destruct Hbatch as [-> | ->]; [intros [] |].
  rewrite in_map_iff. intros (m & Hid & Hin).
  apply List.filter_In in Hin as [_ Hsel].
  unfold selected in Hsel. apply andb_true_iff in Hsel as [_ Hcool].
  unfold ResetDetector.in_cooldown in Hcool.
  rewrite Hid, (js_get_entry _ _ _ Hprev), Hparse in Hcool.
  apply negb_true_iff, Z.ltb_ge in Hcool. lia.
Qed.

(** ** Corrupted documents *)

(** C7 as stated fails: on a disk whose four documents are all unparseable
    no load throws; each returns its default value. *)
Lemma corrupted_documents_do_not_throw :
  document CONFIG_FILE_NAME (disk (Sample.world Sample.corrupted_disk)) = Unparseable /\
  document HISTORY_FILE_NAME (disk (Sample.world Sample.corrupted_disk)) = Unparseable /\
  document RESET_STATE_FILE_NAME (disk (Sample.world Sample.corrupted_disk)) = Unparseable /\
  document MODEL_MAPPING_FILE_NAME (disk (Sample.world Sample.corrupted_disk)) = Unparseable /\
  Storage.loadWakeupConfig (Sample.world Sample.corrupted_disk) =
    Returns None (Sample.world Sample.corrupted_disk) /\
  Storage.loadTriggerHistory (Sample.world Sample.corrupted_disk) =
    Returns [] (Sample.world Sample.corrupted_disk) /\
  Storage.loadResetState (Sample.world Sample.corrupted_disk) =
    Returns ∅ (Sample.world Sample.corrupted_disk) /\
  Storage.loadModelMapping (Sample.world Sample.corrupted_disk) =
    Returns ∅ (Sample.world Sample.corrupted_disk).
Proof. repeat split; reflexivity. Qed.

(** C7, amended.  Loading a document that exists but cannot be parsed
    returns the default value of that document (no configuration, the empty
    history, the empty reset state, the empty mapping) and leaves the world
    as it is; nothing is thrown.  It is a failed write that reaches the
    caller as an exception. *)
Theorem corrupted_documents_load_defaults (w : World) :
  (config_json (disk w) = Unparseable ->
   Storage.loadWakeupConfig w = Returns None w) /\
  (history_json (disk w) = Unparseable ->
   Storage.loadTriggerHistory w = Returns [] w) /\
  (reset_state_json (disk w) = Unparseable ->
   Storage.loadResetState w = Returns ∅ w) /\
  (model_mapping_json (disk w) = Unparseable ->
   Storage.loadModelMapping w = Returns ∅ w) /\
  (forall (T : Type) (name : filename T) (defaultValue : T),
     thrown (Storage.readJsonFile name defaultValue w) = None) /\
  (forall (T : Type) (name : filename T) (data : T) (err : js_error),
     write_fault (disk w) = Some err ->
     Storage.writeJsonFile name data w = Throws err w).
Proof.
  unfold Storage.loadWakeupConfig, Storage.loadTriggerHistory,
    Storage.loadResetState, Storage.loadModelMapping, Storage.readJsonFile,
    Storage.writeJsonFile.
  simpl document.
  repeat split.
  - now intros ->.
  - now intros ->.
  - now intros ->.
  - now intros ->.
  - intros T name defaultValue. now destruct (document name (disk w)).
  - intros T name data err ->. reflexivity.
Qed.

Lemma corrupted_documents_load_defaults_witness :
  config_json (disk (Sample.world Sample.corrupted_disk)) = Unparseable /\
  history_json (disk (Sample.world Sample.corrupted_disk)) = Unparseable /\
  reset_state_json (disk (Sample.world Sample.corrupted_disk)) = Unparseable /\
  model_mapping_json (disk (Sample.world Sample.corrupted_disk)) = Unparseable /\
  write_fault (disk (Sample.world Sample.corrupted_disk)) =
    Some (PlainError "EACCES: permission denied") /\
  Storage.loadWakeupConfig (Sample.world Sample.corrupted_disk) =
    Returns None (Sample.world Sample.corrupted_disk) /\
  Storage.loadTriggerHistory (Sample.world Sample.corrupted_disk) =
    Returns [] (Sample.world Sample.corrupted_disk) /\
  Storage.loadResetState (Sample.world Sample.corrupted_disk) =
    Returns ∅ (Sample.world Sample.corrupted_disk) /\
  Storage.loadModelMapping (Sample.world Sample.corrupted_disk) =
    Returns ∅ (Sample.world Sample.corrupted_disk) /\
  Storage.writeJsonFile HISTORY_FILE_NAME [] (Sample.world Sample.corrupted_disk) =
    Throws (PlainError "EACCES: permission denied")
      (Sample.world Sample.corrupted_disk).
Proof.
  destruct (corrupted_documents_load_defaults (Sample.world Sample.corrupted_disk))
    as (Hconfig & Hhistory & Hreset & Hmapping & _ & Hwrite).
  do 5 (split; [reflexivity |]).
  split; [apply Hconfig; reflexivity |].
  split; [apply Hhistory; reflexivity |].
  split; [apply Hreset; reflexivity |].
  split; [apply Hmapping; reflexivity |].
  apply Hwrite. reflexivity.
Defined.

(** ** The onboarding handshake *)

Lemma find_split {A : Type} (f : A -> bool) (l : list A) :
  match List.find f l with
  | Some x =>
      exists before after : list A,
        l = (before ++ x :: after)%list /\
        Forall (fun y => f y = false) before /\ f x = true
  | None => Forall (fun y => f y = false) l
  end.
Proof.
  induction l as [|a l IH]; simpl.
  - constructor.
  - destruct (f a) eqn:Ha.
    + exists [], l. repeat split; [constructor | exact Ha].
    + destruct (List.find f l) as [x|].
      * destruct IH as (before & after & -> & Hb & Hx).
        exists (a :: before), after. repeat split; [constructor | ]; assumption.
      * constructor; assumption.
Qed.

Lemma has_id_truthy (t : Tier) :
  OAuth.has_id t = true -> exists i : string, truthy (tier_id t) = Some i.
Proof.
  unfold OAuth.has_id. destruct (truthy (tier_id t)) as [i|]; [eauto | discriminate].
Qed.

Lemma pickOnboardTier_priority (allowedTiers : option (list Tier))
    (tierIdFromLoad : option string) :
  tier_priority allowedTiers tierIdFromLoad
    (OAuth.pickOnboardTier allowedTiers tierIdFromLoad).
Proof.
  destruct allowedTiers as [[|t0 tiers]|].
  - apply tier_from_load. now right.
  - unfold OAuth.pickOnboardTier. cbv beta iota.
    assert (Hne : t0 :: tiers <> []) by discriminate.
    change (0 <? length (t0 :: tiers))%nat with true. cbv iota.
    revert Hne. generalize (t0 :: tiers). intros l Hne.
    pose proof (find_split (fun t => OAuth.is_default t && OAuth.has_id t) l) as Hd.
    destruct (List.find (fun t => OAuth.is_default t && OAuth.has_id t) l) as [d|].
    + destruct Hd as (before & after & Hl & Hb & Hx).
      apply andb_true_iff in Hx as [Hdef Hid].
      destruct (has_id_truthy d Hid) as (i & Hi).
      cbn [mbind option_bind]. rewrite Hi.
      apply (default_tier _ _ before after d i); [now rewrite <- Hl | | |]; assumption.
    + cbn [mbind option_bind].
      pose proof (find_split OAuth.has_id l) as Hf.
      destruct (List.find OAuth.has_id l) as [f|].
      * destruct Hf as (before & after & Hl & Hb & Hx).
        destruct (has_id_truthy f Hx) as (i & Hi).
        cbn [mbind option_bind]. rewrite Hi.
        apply (first_tier _ _ before after f i); [now rewrite <- Hl | | |];
          try assumption.
        now rewrite <- Hl.
      * cbn [mbind option_bind].
        apply (legacy_tier _ _ l); [reflexivity | assumption | assumption].
  - apply tier_from_load. now left.
Qed.

Lemma onboard_loop_S (env : Env) (accessToken tier : string) (attempt remaining : nat) :
  OAuth.onboard_loop env accessToken tier attempt (S remaining) =
  let next :=
    (if (attempt <? OAuth.onboardAttempts)%nat
     then emit (Sleep OAuth.onboardDelayMs) >> ret tt
     else ret tt) >>
    OAuth.onboard_loop env accessToken tier (S attempt) remaining in
  let! n := emit (FetchOnboardUser accessToken tier) in
  match fetchOnboardUserReply env accessToken tier n with
  | FetchRejected _ => next
  | FetchResponse status body =>
      if negb (OAuth.ok status) then
        if ((status =? 401) || (status =? 403))%Z then ret None
        else next
      else
        match body with
        | None => next
        | Some data =>
            match done data with
            | Some true => ret (OAuth.extractProjectId (onboard_project data))
            | _ => next
            end
        end
  end.
Proof. reflexivity. Qed.

Lemma polls_next (accessToken tier : string) (n : nat) :
  (1 <= n)%nat ->
  polls accessToken tier (S n) =
  FetchOnboardUser accessToken tier :: Sleep 2000 :: polls accessToken tier n.
Proof. destruct n; [lia | reflexivity]. Qed.

(** The loop of [tryOnboardUser] returns after at most [remaining] requests,
    with a 2-second sleep between one request and the next, and touches
    nothing but the trace. *)
Lemma onboard_loop_polls (env : Env) (accessToken tier : string) (remaining : nat) :
  forall (attempt : nat) (w : World),
    (attempt + remaining = S OAuth.onboardAttempts)%nat ->
    (1 <= remaining)%nat ->
    exists (n : nat) (r : option string) (w' : World),
      (1 <= n <= remaining)%nat /\
      OAuth.onboard_loop env accessToken tier attempt remaining w = Returns r w' /\
      trace w' = (trace w ++ polls accessToken tier n)%list /\
      disk w' = disk w.
Proof.
  induction remaining as [|k IH]; intros attempt w Hsum Hpos; [lia |].
  rewrite onboard_loop_S. cbv zeta.
  set (next := (if (attempt <? OAuth.onboardAttempts)%nat
                then emit (Sleep OAuth.onboardDelayMs) >> ret tt
                else ret tt) >>
               OAuth.onboard_loop env accessToken tier (S attempt) k).
  unfold bind at 1, emit at 1.
  set (w1 := with_trace (trace w ++ [FetchOnboardUser accessToken tier])%list w).
  assert (Hstop : forall r : option string,
            exists (n : nat) (r' : option string) (w' : World),
              (1 <= n <= S k)%nat /\ ret r w1 = Returns r' w' /\
              trace w' = (trace w ++ polls accessToken tier n)%list /\
              disk w' = disk w).
  { intros r. exists 1%nat, r, w1. repeat split; lia. }
  assert (Hnext : exists (n : nat) (r : option string) (w' : World),
            (1 <= n <= S k)%nat /\ next w1 = Returns r w' /\
            trace w' = (trace w ++ polls accessToken tier n)%list /\
            disk w' = disk w).
  { unfold next. unfold OAuth.onboardAttempts in *.
    destruct k as [|k'].
    - assert (attempt = 5%nat) as -> by lia.
      exists 1%nat, None, w1. repeat split; lia.
    - assert (Hlt : (attempt <? 5)%nat = true) by (apply Nat.ltb_lt; lia).
      rewrite Hlt.
      destruct (IH (S attempt)
                  (with_trace (trace w1 ++ [Sleep OAuth.onboardDelayMs])%list w1))
        as (n & r & w' & Hn & Hrun & Htr & Hd); [lia | lia |].
      exists (S n), r, w'. split; [lia |]. split.
      + unfold bind, emit, ret. exact Hrun.
      + split; [| exact Hd].
        rewrite Htr. unfold w1. simpl trace.
        rewrite polls_next by lia. rewrite <- !app_assoc. reflexivity. }
  destruct (fetchOnboardUserReply env accessToken tier (length (trace w)))
    as [e | status body]; [exact Hnext |].
  destruct (negb (OAuth.ok status)).
  - destruct ((status =? 401) || (status =? 403))%Z; [apply Hstop | exact Hnext].
  - destruct body as [data|]; [| exact Hnext].
    destruct (done data) as [[|]|]; [apply Hstop | exact Hnext | exact Hnext].
Qed.

(** C6, amended.  Login-time resolution ([resolveProjectId] of
    google/oauth.ts) when the load-assist reply carries no project
    identifier.  The onboarding tier is: the first allowed tier flagged
    default that has an ID; else the first allowed tier that has an ID; else
    [LEGACY] when tiers are listed but none has an ID; and the account's
    paid tier (else its current tier) only when no allowed tier is listed.
    With a tier chosen, the onboarding endpoint is requested at least once
    and at most 5 times, with a 2-second sleep between one request and the
    next; with none, no onboarding request is made. *)
Theorem onboarding_handshake (env : Env) (accessToken : string) (w : World)
    (status : Z) (data : LoadCodeAssistResponse) :
  fetchLoadCodeAssistReply env accessToken (length (trace w)) =
    FetchResponse status (Some data) ->
  OAuth.ok status = true ->
  OAuth.extractProjectId (cloudaicompanionProject data) = None ->
  tier_priority (allowedTiers data)
    (or_opt (paidTier data ≫= id) (currentTier data ≫= id))
    (OAuth.pickOnboardTier (allowedTiers data)
       (or_opt (paidTier data ≫= id) (currentTier data ≫= id))) /\
  match truthy (OAuth.pickOnboardTier (allowedTiers data)
                  (or_opt (paidTier data ≫= id) (currentTier data ≫= id))) with
  | Some tier =>
      exists (n : nat) (onboarded : option string) (w' : World),
        (1 <= n <= 5)%nat /\
        OAuth.resolveProjectId env accessToken w =
          Returns {| projectId := onboarded; tierId := Some tier |} w' /\
        trace w' =
          (trace w ++ FetchLoadCodeAssist accessToken :: polls accessToken tier n)%list
  | None =>
      exists w' : World,
        OAuth.resolveProjectId env accessToken w =
          Returns {| projectId := None;
                     tierId := or_opt (paidTier data ≫= id) (currentTier data ≫= id) |}
            w' /\
        trace w' = (trace w ++ [FetchLoadCodeAssist accessToken])%list
  end.
Proof.
  intros Hreply Hok Hnone.
  split; [apply pickOnboardTier_priority |].
  set (fallback := or_opt (paidTier data ≫= id) (currentTier data ≫= id)).
  set (w1 := with_trace (trace w ++ [FetchLoadCodeAssist accessToken])%list w).
  assert (Hload : OAuth.resolveProjectId env accessToken w =
            match truthy (OAuth.pickOnboardTier (allowedTiers data) fallback) with
            | None => Returns {| projectId := None; tierId := fallback |} w1
            | Some tier =>
                (let! onboarded := OAuth.tryOnboardUser env accessToken tier in
                 ret {| projectId := onboarded; tierId := Some tier |}) w1
            end).
  { unfold OAuth.resolveProjectId. cbv zeta.
    unfold bind at 1, emit at 1. rewrite Hreply, Hok. cbn [negb].
    rewrite Hnone. cbn [truthy]. fold fallback. fold w1.
    destruct (truthy (OAuth.pickOnboardTier (allowedTiers data) fallback));
      reflexivity. }
  rewrite Hload.
  destruct (truthy (OAuth.pickOnboardTier (allowedTiers data) fallback)) as [tier|].
  - destruct (onboard_loop_polls env accessToken tier OAuth.onboardAttempts 1%nat w1)
      as (n & r & w' & Hn & Hrun & Htr & _);
      [reflexivity | unfold OAuth.onboardAttempts; lia |].
    exists n, r, w'. split; [exact Hn |]. split.
    + unfold bind, OAuth.tryOnboardUser. rewrite Hrun. reflexivity.
    + rewrite Htr. unfold w1. simpl trace. rewrite <- app_assoc. reflexivity.
  - exists w1. split; reflexivity.
Qed.

Lemma onboarding_handshake_witness :
  fetchLoadCodeAssistReply Sample.env "ya29.token" (length (trace Sample.w0)) =
    FetchResponse 200
      (Some {| cloudaicompanionProject := None; currentTier := None;
               paidTier := Some (Some "paid-tier");
               allowedTiers :=
                 Some [{| tier_id := Some "free-tier"; isDefault := None |}] |}) /\
  OAuth.ok 200 = true /\
  OAuth.extractProjectId None = None /\
  tier_priority (Some [{| tier_id := Some "free-tier"; isDefault := None |}])
    (Some "paid-tier") (Some "free-tier") /\
  exists (n : nat) (onboarded : option string) (w' : World),
    (1 <= n <= 5)%nat /\
    OAuth.resolveProjectId Sample.env "ya29.token" Sample.w0 =
      Returns {| projectId := onboarded; tierId := Some "free-tier" |} w' /\
    trace w' =
      (trace Sample.w0 ++
       FetchLoadCodeAssist "ya29.token" :: polls "ya29.token" "free-tier" n)%list.
Proof.
  do 3 (split; [reflexivity |]).
  exact (onboarding_handshake Sample.env "ya29.token" Sample.w0 200
           {| cloudaicompanionProject := None; currentTier := None;
              paidTier := Some (Some "paid-tier");
              allowedTiers :=
                Some [{| tier_id := Some "free-tier"; isDefault := None |}] |}
           eq_refl eq_refl eq_refl).
Defined.

(** C6 as stated fails at login-time resolution: with no tier flagged
    default, a paid tier and one allowed tier, the claimed priority picks
    the paid tier and the code onboards with the first allowed tier. *)
Lemma paid_tier_not_preferred :
  claimed_onboard_tier (Some [{| tier_id := Some "free-tier"; isDefault := None |}])
    (Some "paid-tier") = Some "paid-tier" /\
  OAuth.pickOnboardTier (Some [{| tier_id := Some "free-tier"; isDefault := None |}])
    (Some "paid-tier") = Some "free-tier" /\
  result_of (OAuth.resolveProjectId Sample.env "ya29.token" Sample.w0) =
    Some {| projectId := None; tierId := Some "free-tier" |} /\
  trace (world_of (OAuth.resolveProjectId Sample.env "ya29.token" Sample.w0)) =
    FetchLoadCodeAssist "ya29.token" :: polls "ya29.token" "free-tier" 5.
Proof. repeat split; vm_compute; reflexivity. Qed.

(** ** The API client's project resolution (the path of the trigger executor) *)

Lemma truthy_Some (o : option string) (s : string) :
  truthy o = Some s -> truthy (Some s) = Some s.
Proof.
  destruct o as [s'|]; [| discriminate]. simpl.
  destruct (String.eqb s' "") eqn:E; [discriminate |].
  intros [= <-]. now rewrite E.
Qed.

(** The client picks its tier as the specification words it, with the paid
    tier before the current tier. *)
Lemma cloudcode_pick_tier_as_claimed (response : LoadCodeAssistResponse) :
  CloudCode.pick_tier response =
  claimed_onboard_tier (allowedTiers response)
    (or_opt (paidTier response ≫= id) (currentTier response ≫= id)).
Proof.
  unfold CloudCode.pick_tier, claimed_onboard_tier. cbv zeta.
  change (fun t : Tier => match isDefault t with Some true => true | _ => false end)
    with OAuth.is_default.
  destruct (List.find OAuth.is_default (default [] (allowedTiers response)));
    [reflexivity |].
  unfold or_opt.
  destruct (truthy (paidTier response ≫= id)) as [p|] eqn:Hp.
  - now rewrite (truthy_Some _ _ Hp).
  - destruct (truthy (currentTier response ≫= id)); reflexivity.
Qed.

Lemma loadCodeAssist_account (env : Env) (c : CloudCode.Client) (w w' : World)
    (r : LoadCodeAssistResponse * CloudCode.Client) :
  CloudCode.loadCodeAssist env c w = Returns r w' ->
  CloudCode.client_account r.2 = CloudCode.client_account c /\
  trace w' = (trace w ++ [LoadCodeAssist (CloudCode.client_account c)])%list.
Proof.
  unfold CloudCode.loadCodeAssist, bind, emit.
  destruct (loadCodeAssistReply env (CloudCode.client_account c) (length (trace w)))
    as [e|response]; [discriminate |].
  intros [= <- <-]. split; [| reflexivity].
  simpl. destruct (cloudaicompanionProject response) as [[s|i]|]; try reflexivity.
  - destruct (String.eqb s ""); reflexivity.
  - destruct (truthy i); reflexivity.
Qed.

Lemma loadCodeAssist_throws (env : Env) (c : CloudCode.Client) (w w' : World)
    (e : js_error) :
  CloudCode.loadCodeAssist env c w = Throws e w' ->
  trace w' = (trace w ++ [LoadCodeAssist (CloudCode.client_account c)])%list.
Proof.
  unfold CloudCode.loadCodeAssist, bind, emit.
  destruct (loadCodeAssistReply env (CloudCode.client_account c) (length (trace w)))
    as [e'|response]; [| discriminate].
  intros [= <- <-]. reflexivity.
Qed.

(** The retry loop reloads at most [remaining] times, each time after a
    2-second sleep, however it ends. *)
Lemma retry_loop_reloads (env : Env) (remaining : nat) :
  forall (c : CloudCode.Client) (w : World),
    exists n : nat,
      (n <= remaining)%nat /\
      trace (world_of (CloudCode.retry_loop env 2000 c remaining w)) =
        (trace w ++ reloads (CloudCode.client_account c) n)%list.
Proof.
  induction remaining as [|k IH]; intros c w.
  - exists 0%nat. split; [lia |]. simpl. now rewrite app_nil_r.
  - cbn [CloudCode.retry_loop]. unfold bind at 1, emit at 1. unfold bind at 1.
    set (w1 := with_trace (trace w ++ [Sleep 2000])%list w).
    destruct (CloudCode.loadCodeAssist env c w1) as [r w2|e w2] eqn:Hload.
    + destruct (loadCodeAssist_account env c w1 w2 r Hload) as [Hacc Htr].
      destruct (truthy (CloudCode.client_projectId r.2)).
      * exists 1%nat. split; [lia |]. simpl. rewrite Htr. unfold w1. simpl.
        rewrite <- app_assoc. reflexivity.
      * destruct (IH r.2 w2) as (n & Hn & Hrun).
        exists (S n). split; [lia |]. rewrite Hrun, Htr, Hacc. unfold w1. simpl.
        rewrite <- !app_assoc. reflexivity.
    + exists 1%nat. split; [lia |]. simpl.
      rewrite (loadCodeAssist_throws env c w1 w2 e Hload). unfold w1. simpl.
      rewrite <- app_assoc. reflexivity.
Qed.

(** Trigger-time resolution with nothing cached and no project in the
    first reply: the tier is the one the specification names, the
    onboarding endpoint is called once, and the assist status is then
    reloaded at most 5 times, each time after a 2-second sleep. *)
Lemma cloudcode_resolveProjectId_trace (env : Env) (c : CloudCode.Client)
    (w : World) (response : LoadCodeAssistResponse) (tier : string) :
  truthy (CloudCode.client_projectId c) = None ->
  loadCodeAssistReply env (CloudCode.client_account c) (length (trace w)) =
    inr response ->
  OAuth.extractProjectId (cloudaicompanionProject response) = None ->
  truthy (claimed_onboard_tier (allowedTiers response)
            (or_opt (paidTier response ≫= id) (currentTier response ≫= id))) =
    Some tier ->
  exists n : nat,
    (n <= 5)%nat /\
    trace (world_of (CloudCode.resolveProjectId env CloudCode.DEFAULT_MAX_RETRIES
                       CloudCode.DEFAULT_RETRY_DELAY_MS c w)) =
      (trace w ++
       LoadCodeAssist (CloudCode.client_account c) ::
       OnboardUser (CloudCode.client_account c) tier ::
       reloads (CloudCode.client_account c) n)%list.
Proof.
  intros Hcache Hreply Hnone Htier.
  rewrite <- cloudcode_pick_tier_as_claimed in Htier.
  unfold CloudCode.resolveProjectId. rewrite Hcache.
  unfold bind at 1.
  assert (Hload : CloudCode.loadCodeAssist env c w =
            Returns (response, c)
              (with_trace (trace w ++ [LoadCodeAssist (CloudCode.client_account c)])%list w)).
  { unfold CloudCode.loadCodeAssist, bind, emit. rewrite Hreply.
    unfold OAuth.extractProjectId in Hnone.
    destruct (cloudaicompanionProject response) as [[s|i]|]; try reflexivity.
    - simpl in Hnone. destruct (String.eqb s ""); [reflexivity | discriminate].
    - rewrite Hnone. reflexivity. }
  rewrite Hload. cbn [fst snd]. rewrite Hcache, Htier.
  set (w1 := with_trace _ w).
  unfold bind at 1, try_catch, CloudCode.onboardUser, bind at 1, emit at 1.
  set (w2 := with_trace (trace w1 ++ [OnboardUser (CloudCode.client_account c) tier])%list w1).
  assert (Hboth : forall o : Outcome unit,
            (o = Returns tt w2 \/ exists e, o = Throws e w2) ->
            exists n : nat, (n <= 5)%nat /\
              trace (world_of
                (match (match o with
                        | Returns a w' => Returns a w'
                        | Throws e w' => ret tt w'
                        end) with
                 | Returns _ w' =>
                     CloudCode.retry_loop env CloudCode.DEFAULT_RETRY_DELAY_MS c
                       CloudCode.DEFAULT_MAX_RETRIES w'
                 | Throws e w' => Throws e w'
                 end)) =
              (trace w ++ LoadCodeAssist (CloudCode.client_account c) ::
               OnboardUser (CloudCode.client_account c) tier ::
               reloads (CloudCode.client_account c) n)%list).
  { intros o Ho.
    destruct (retry_loop_reloads env 5 c w2) as (n & Hn & Hrun).
    exists n. split; [exact Hn |].
    assert (Hw2 : trace w2 = (trace w ++ [LoadCodeAssist (CloudCode.client_account c);
                                          OnboardUser (CloudCode.client_account c) tier])%list).
    { unfold w2, w1. simpl. rewrite <- app_assoc. reflexivity. }
    rewrite Hw2 in Hrun.
    destruct Ho as [-> | [e ->]]; unfold ret;
      change CloudCode.DEFAULT_RETRY_DELAY_MS with 2000;
      change CloudCode.DEFAULT_MAX_RETRIES with 5%nat;
      rewrite Hrun, <- app_assoc; reflexivity. }
  apply Hboth.
  destruct (onboardUserReply env (CloudCode.client_account c) tier (length (trace w1)));
    [right; eexists; reflexivity | left; reflexivity].
Qed.

(** ** The batches of the executor *)

(** *** Calls that are pending together *)

Lemma first_settled_lookup {B : Type} (arrival : nat -> nat) :
  forall (calls : list (Call B)) (i : nat) (s : Suspended B),
    first_settled arrival calls = Some (i, s) -> calls !! i = Some (Waiting s).
Proof.
  induction calls as [|call rest IH]; intros i s; [discriminate |].
  cbn [first_settled].
  destruct call as [s0|b0];
    destruct (first_settled arrival rest) as [[j s']|] eqn:E.
  - destruct (arrival (request s') <? arrival (request s0))%nat.
    + intros [= <- <-]. apply (IH j s' eq_refl).
    + intros [= <- <-]. reflexivity.
  - intros [= <- <-]. reflexivity.
  - intros [= <- <-]. apply (IH j s' eq_refl).
  - discriminate.
Qed.

Lemma first_settled_none {B : Type} (arrival : nat -> nat) :
  forall calls : list (Call B),
    first_settled arrival calls = None -> count_waiting calls = O.
Proof.
  induction calls as [|call rest IH]; [reflexivity |].
  cbn [first_settled count_waiting].
  destruct call as [s0|b0];
    destruct (first_settled arrival rest) as [[j s']|] eqn:E;
    try discriminate.
  - destruct (arrival (request s') <? arrival (request s0))%nat; discriminate.
  - intros _. apply IH. reflexivity.
Qed.

Lemma count_waiting_settled {B : Type} (b : B) :
  forall (calls : list (Call B)) (i : nat) (s : Suspended B),
    calls !! i = Some (Waiting s) ->
    S (count_waiting (<[i := Settled b]> calls)) = count_waiting calls.
Proof.
  induction calls as [|call rest IH]; intros i s; [discriminate |].
  destruct i as [|i]; simpl.
  - intros [= ->]. reflexivity.
  - intros Hi. destruct call; simpl; rewrite <- (IH i s Hi); reflexivity.
Qed.

Lemma count_waiting_map {B : Type} (ss : list (Suspended B)) :
  count_waiting (map Waiting ss) = length ss.
Proof. induction ss as [|s ss IH]; simpl; congruence. Qed.

Section Settling.
Context {A B : Type} (arrival : nat -> nat).
Context (good : A -> B -> Prop) (stays : World -> World -> Prop).
Hypothesis stays_refl : forall w : World, stays w w.
Hypothesis stays_trans :
  forall w1 w2 w3 : World, stays w1 w2 -> stays w2 w3 -> stays w1 w3.

Lemma answers_settled :
  forall (xs : list A) (calls : list (Call B)),
    Forall2 (answers good stays) xs calls -> count_waiting calls = O ->
    Forall2 good xs (results_of calls).
Proof.
  intros xs calls Hall. induction Hall as [|x call xs calls Hx _ IH].
  - intros _. constructor.
  - destruct call as [s|b]; [discriminate |].
    intros Hcount. unfold results_of. cbn [omap].
    constructor; [exact Hx | apply IH, Hcount].
Qed.

(** With fuel for every waiting call, the event loop resumes each of them
    once, whatever the order of the answers: it ends with one good result
    per call, in the order of the list. *)
Lemma settle_returns (fuel : nat) :
  forall (xs : list A) (calls : list (Call B)) (w : World),
    Forall2 (answers good stays) xs calls ->
    (count_waiting calls <= fuel)%nat ->
    exists (settled : list (Call B)) (w' : World),
      settle arrival fuel calls w = Returns settled w' /\
      Forall2 good xs (results_of settled) /\
      stays w w'.
Proof.
  induction fuel as [|fuel IH]; intros xs calls w Hall Hcount.
  - exists calls, w. split; [reflexivity |].
    split; [apply answers_settled; [exact Hall | lia] | apply stays_refl].
  - cbn [settle].
    destruct (first_settled arrival calls) as [[i s]|] eqn:Hfirst.
    2: { exists calls, w. split; [reflexivity |].
         split; [| apply stays_refl].
         apply answers_settled; [exact Hall |].
         apply (first_settled_none arrival), Hfirst. }
    apply first_settled_lookup in Hfirst.
    destruct (Forall2_lookup_r _ _ _ _ _ Hall Hfirst) as (x & Hx & Hs).
    destruct (Hs w) as (b & w1 & Hresume & Hgood & Hstays).
    unfold bind. rewrite Hresume.
    destruct (IH xs (<[i := Settled b]> calls) w1) as (settled & w' & Hrun & Hres & Hst).
    + rewrite <- (list_insert_id xs i x Hx).
      apply Forall2_insert; [exact Hall | exact Hgood].
    + pose proof (count_waiting_settled b calls i s Hfirst). lia.
    + exists settled, w'. split; [exact Hrun |].
      split; [exact Hres | exact (stays_trans _ _ _ Hstays Hst)].
Qed.

End Settling.

Lemma only_ticks_refl (w : World) : only_ticks w w.
Proof. unfold only_ticks. repeat split. lia. Qed.

Lemma only_ticks_trans (w1 w2 w3 : World) :
  only_ticks w1 w2 -> only_ticks w2 w3 -> only_ticks w1 w3.
Proof.
  unfold only_ticks. intros (H1 & H2 & H3 & H4) (H5 & H6 & H7 & H8).
  repeat split; try congruence. lia.
Qed.

(** A single trigger never throws: the call reads the clock and sends the
    request; resumed, it reads the clock again and returns the result the
    reply makes, every failure captured in it. *)
Lemma triggerSingleModel_suspends (env : Env) (client : CloudCode.Client)
    (model prompt : string) (maxTokens : option Z) (w : World) :
  exists s : Suspended ModelTriggerResult,
    TriggerService.triggerSingleModel env client model prompt maxTokens w =
      Returns s
        (with_trace
           (trace w ++ [GenerateContent (CloudCode.client_account client) model
                          prompt maxTokens])%list
           (with_ticks (S (ticks w)) w)) /\
    request s = length (trace w) /\
    settles (replied env client prompt maxTokens) only_ticks model s.
Proof.
  unfold TriggerService.triggerSingleModel, bind, Date_now, emit, ret.
  eexists. split; [reflexivity |]. split; [reflexivity |].
  intros w2. cbn [resume with_ticks ticks trace].
  destruct (generateContentReply env _ model prompt maxTokens _) eqn:E;
    eexists _, _; (split; [reflexivity |]);
    (split; [eexists (length (trace w)), _; rewrite E; reflexivity |]);
    unfold only_ticks; simpl; repeat split; lia.
Qed.

Lemma call_all_triggers (env : Env) (client : CloudCode.Client) (prompt : string)
    (maxTokens : option Z) (batch : list string) :
  forall w : World,
    exists (ss : list (Suspended ModelTriggerResult)) (w' : World),
      call_all (fun model =>
                  TriggerService.triggerSingleModel env client model prompt maxTokens)
        batch w = Returns ss w' /\
      Forall2 (settles (replied env client prompt maxTokens) only_ticks) batch ss /\
      trace w' =
        (trace w ++
         map (fun model =>
                GenerateContent (CloudCode.client_account client) model prompt maxTokens)
           batch)%list /\
      disk w' = disk w /\ credentials w' = credentials w /\
      (ticks w <= ticks w')%nat.
Proof.
  induction batch as [|model batch IH]; intros w.
  - exists [], w. split; [reflexivity |]. split; [constructor |].
    split; [now rewrite app_nil_r |]. repeat split. lia.
  - destruct (triggerSingleModel_suspends env client model prompt maxTokens w)
      as (s & Hs & _ & Hsettles).
    match type of Hs with _ = Returns _ ?w1 =>
      destruct (IH w1) as (ss & w' & Hss & Hall & Ht & Hd & Hc & Hk)
    end.
    exists (s :: ss), w'. split; [| split; [| split; [| split; [| split]]]].
    + cbn [call_all]. unfold bind. rewrite Hs, Hss. reflexivity.
    + constructor; assumption.
    + rewrite Ht. simpl. rewrite <- app_assoc. reflexivity.
    + rewrite Hd. reflexivity.
    + rewrite Hc. reflexivity.
    + simpl in Hk. lia.
Qed.

(** A batch: one request per model, sent in the order of the list before
    any answer is looked at; one result per model, in the order of the
    list, each made of the reply to a request for its model. *)
Lemma map_all_settles (env : Env) (client : CloudCode.Client) (prompt : string)
    (maxTokens : option Z) (batch : list string) (w : World) :
  exists (rs : list ModelTriggerResult) (w' : World),
    map_all (arrival env)
      (fun model =>
         TriggerService.triggerSingleModel env client model prompt maxTokens)
      batch w = Returns rs w' /\
    Forall2 (replied env client prompt maxTokens) batch rs /\
    trace w' =
      (trace w ++
       map (fun model =>
              GenerateContent (CloudCode.client_account client) model prompt maxTokens)
         batch)%list /\
    disk w' = disk w /\ credentials w' = credentials w.
Proof.
  destruct (call_all_triggers env client prompt maxTokens batch w)
    as (ss & w1 & Hss & Hall & Ht & Hd & Hc & _).
  destruct (settle_returns (arrival env) (replied env client prompt maxTokens)
              only_ticks only_ticks_refl only_ticks_trans (length ss) batch
              (map Waiting ss) w1)
    as (settled & w' & Hrun & Hres & Hd' & Hc' & Ht' & _).
  - apply Forall2_fmap_r. eapply Forall2_impl; [exact Hall |].
    intros model s Hs. exact Hs.
  - rewrite count_waiting_map. lia.
  - exists (results_of settled), w'.
    split; [unfold map_all, bind; rewrite Hss, Hrun; reflexivity |].
    split; [exact Hres |]. split; [congruence |]. split; congruence.
Qed.

Lemma replied_modelId (env : Env) (client : CloudCode.Client) (prompt : string)
    (maxTokens : option Z) (model : string) (r : ModelTriggerResult) :
  replied env client prompt maxTokens model r -> res_modelId r = model.
Proof.
  intros (n & d & ->).
  destruct (generateContentReply env _ model prompt maxTokens n); reflexivity.
Qed.

Lemma map_all_triggers (env : Env) (client : CloudCode.Client) (prompt : string)
    (maxTokens : option Z) (batch : list string) :
  forall w : World,
    exists (rs : list ModelTriggerResult) (w' : World),
      map_all (arrival env)
        (fun model =>
           TriggerService.triggerSingleModel env client model prompt maxTokens)
        batch w = Returns rs w' /\
      map res_modelId rs = batch.
Proof.
  intros w.
  destruct (map_all_settles env client prompt maxTokens batch w)
    as (rs & w' & Hrun & Hall & _).
  exists rs, w'. split; [exact Hrun |]. clear Hrun.
  induction Hall as [|model r batch' rs' Hr _ IH]; [reflexivity |].
  simpl. rewrite (replied_modelId _ _ _ _ _ _ Hr). f_equal. exact IH.
Qed.

(** Two models in one batch, on a clock that advances by a millisecond at
    each reading: both requests are sent before either call is resumed, so
    the duration of each call spans the other; when the second request is
    answered first, the first call lasts the longest. *)
Lemma durations_in_a_batch :
  option_map (fun r => map res_durationMs (results r))
    (result_of
       (TriggerService.executeTrigger Fixture.env_project_after_onboarding
          (Sample.options ["M1"; "M2"]) Sample.w0)) = Some [2; 2] /\
  option_map (fun r => map res_durationMs (results r))
    (result_of
       (TriggerService.executeTrigger Fixture.env_last_answered_first
          (Sample.options ["M1"; "M2"]) Sample.w0)) = Some [3; 1].
Proof. split; vm_compute; reflexivity. Qed.

(** With as many rounds as there are models, the batches cover the whole
    list: one result per model, in the order of the list. *)
Lemma trigger_batches_all (env : Env) (client : CloudCode.Client) (prompt : string)
    (maxTokens : option Z) (fuel : nat) :
  forall (batch : list string) (w : World),
    (length batch <= fuel)%nat ->
    exists (rs : list ModelTriggerResult) (w' : World),
      TriggerService.trigger_batches env fuel client prompt maxTokens batch w =
        Returns rs w' /\
      map res_modelId rs = batch.
Proof.
  induction fuel as [|fuel IH]; intros batch w Hlen.
  - destruct batch; [| simpl in Hlen; lia]. exists [], w. split; reflexivity.
  - destruct batch as [|m batch]; [exists [], w; split; reflexivity |].
    cbn [TriggerService.trigger_batches].
    set (l := m :: batch) in *.
    destruct (map_all_triggers env client prompt maxTokens
                (take TriggerService.MAX_CONCURRENT_REQUESTS l) w)
      as (rs1 & w1 & H1 & Hid1).
    destruct (IH (drop TriggerService.MAX_CONCURRENT_REQUESTS l) w1)
      as (rs2 & w' & H2 & Hid2).
    { rewrite length_drop. unfold TriggerService.MAX_CONCURRENT_REQUESTS.
      unfold l in *. simpl in Hlen |- *. lia. }
    exists (rs1 ++ rs2)%list, w'. split.
    + unfold bind. rewrite H1, H2. reflexivity.
    + rewrite map_app, Hid1, Hid2. apply take_drop.
Qed.

(** * Further properties *)
(** ** What a computation keeps *)

Lemma keeps_ret {A B : Type} (observe : World -> B) (a : A) :
  keeps observe (ret a).
Proof. intros w. reflexivity. Qed.

Lemma keeps_throw {A B : Type} (observe : World -> B) (e : js_error) :
  keeps observe (@throw A e).
Proof. intros w. reflexivity. Qed.

Lemma keeps_bind {A A' B : Type} (observe : World -> B) (c : M A) (k : A -> M A') :
  keeps observe c -> (forall a : A, keeps observe (k a)) ->
  keeps observe (bind c k).
Proof.
  intros Hc Hk w. unfold bind. specialize (Hc w).
  destruct (c w) as [a w1|e w1]; simpl in Hc.
  - rewrite (Hk a w1). exact Hc.
  - exact Hc.
Qed.

Lemma keeps_try_catch {A B : Type} (observe : World -> B) (c : M A)
    (handler : js_error -> M A) :
  keeps observe c -> (forall e : js_error, keeps observe (handler e)) ->
  keeps observe (try_catch c handler).
Proof.
  intros Hc Hh w. unfold try_catch. specialize (Hc w).
  destruct (c w) as [a w1|e w1]; simpl in Hc.
  - exact Hc.
  - rewrite (Hh e w1). exact Hc.
Qed.

Lemma keeps_for_each {A B : Type} (observe : World -> B) (body : A -> M unit)
    (l : list A) :
  (forall x : A, keeps observe (body x)) -> keeps observe (for_each body l).
Proof.
  intros Hb. induction l as [|x l IH]; [apply keeps_ret |].
  cbn [for_each]. apply keeps_bind; [apply Hb | intros _; exact IH].
Qed.

Lemma keeps_settle {A B : Type} (observe : World -> B) (arrival : nat -> nat)
    (fuel : nat) :
  forall calls : list (Call A),
    Forall (fun call =>
              match call with
              | Waiting s => keeps observe (resume s)
              | Settled _ => True
              end) calls ->
    keeps observe (settle arrival fuel calls).
Proof.
  induction fuel as [|fuel IH]; intros calls Hall; [apply keeps_ret |].
  cbn [settle].
  destruct (first_settled arrival calls) as [[i s]|] eqn:Hfirst; [| apply keeps_ret].
  apply first_settled_lookup in Hfirst.
  apply keeps_bind.
  - apply (Forall_lookup_1 _ _ _ _ Hall Hfirst).
  - intros b. apply IH. apply Forall_insert; [exact Hall | exact I].
Qed.

Lemma keeps_call_all {A A' B : Type} (observe : World -> B)
    (f : A -> M (Suspended A')) (l : list A) :
  (forall x : A, keeps observe (f x)) ->
  (forall (x : A) (w w' : World) (s : Suspended A'),
     f x w = Returns s w' -> keeps observe (resume s)) ->
  forall w : World,
    observe (world_of (call_all f l w)) = observe w /\
    forall (ss : list (Suspended A')) (w' : World),
      call_all f l w = Returns ss w' ->
      Forall (fun s => keeps observe (resume s)) ss.
Proof.
  intros Hf Hresume. induction l as [|x l IH]; intros w.
  - split; [reflexivity |]. intros ss w' [= <- _]. constructor.
  - cbn [call_all]. unfold bind.
    pose proof (Hf x w) as Hx.
    destruct (f x w) as [s w1|e w1] eqn:Ex; simpl in Hx.
    2: { split; [exact Hx | discriminate]. }
    destruct (IH w1) as [Hl Hss].
    destruct (call_all f l w1) as [ss w2|e w2] eqn:El; simpl in Hl.
    2: { split; [simpl; congruence | discriminate]. }
    split; [simpl; congruence |].
    intros ss' w' [= <- _]. constructor; [| apply (Hss ss w2 eq_refl)].
    apply (Hresume x w w1 s Ex).
Qed.

Lemma keeps_map_all {A A' B : Type} (observe : World -> B) (arrival : nat -> nat)
    (f : A -> M (Suspended A')) (l : list A) :
  (forall x : A, keeps observe (f x)) ->
  (forall (x : A) (w w' : World) (s : Suspended A'),
     f x w = Returns s w' -> keeps observe (resume s)) ->
  keeps observe (map_all arrival f l).
Proof.
  intros Hf Hresume w. unfold map_all, bind.
  destruct (keeps_call_all observe f l Hf Hresume w) as [Hl Hss].
  destruct (call_all f l w) as [ss w1|e w1]; simpl in Hl; [| exact Hl].
  specialize (Hss ss w1 eq_refl).
  assert (Hsettle : keeps observe (settle arrival (length ss) (map Waiting ss))).
  { apply keeps_settle. apply Forall_fmap. exact Hss. }
  specialize (Hsettle w1).
  destruct (settle arrival (length ss) (map Waiting ss) w1); simpl in *; congruence.
Qed.

Lemma keeps_if {A B : Type} (observe : World -> B) (b : bool) (c1 c2 : M A) :
  keeps observe c1 -> keeps observe c2 -> keeps observe (if b then c1 else c2).
Proof. destruct b; auto. Qed.

Lemma bind_keeps_after {A A' B : Type} (observe : World -> B) (c : M A)
    (k : A -> M A') (w : World) :
  (forall a : A, keeps observe (k a)) ->
  observe (world_of (bind c k w)) = observe (world_of (c w)).
Proof.
  intros Hk. unfold bind. destruct (c w) as [a w1|e w1]; [apply Hk | reflexivity].
Qed.

Lemma keeps_returns {A B : Type} (observe : World -> B) (c : M A) (w w' : World)
    (a : A) :
  keeps observe c -> c w = Returns a w' -> observe w' = observe w.
Proof. intros Hc Hr. specialize (Hc w). now rewrite Hr in Hc. Qed.

Lemma keeps_throws {A B : Type} (observe : World -> B) (c : M A) (w w' : World)
    (e : js_error) :
  keeps observe c -> c w = Throws e w' -> observe w' = observe w.
Proof. intros Hc Hr. specialize (Hc w). now rewrite Hr in Hc. Qed.

Section Plumbing.
Context {B : Type} (observe : World -> B) (env : Env).
Hypothesis blind : plumbing_blind observe.

Lemma keeps_plumbing_emit (ev : Event) :
  is_plumbing ev = true -> keeps observe (emit ev).
Proof. intros Hev w. destruct blind as (_ & _ & Hb). apply Hb, Hev. Qed.

Lemma keeps_Date_now : keeps observe (Date_now env).
Proof. intros w. destruct blind as (Hb & _). apply Hb. Qed.

Lemma keeps_new_Date_toISOString : keeps observe (new_Date_toISOString env).
Proof.
  apply keeps_bind; [apply keeps_Date_now | intros ms; apply keeps_ret].
Qed.

Lemma keeps_getValidAccessToken (tm : TriggerService.TokenManager) :
  keeps observe (TriggerService.getValidAccessToken env tm).
Proof.
  unfold TriggerService.getValidAccessToken.
  destruct (TriggerService.tm_tokens tm); [| apply keeps_throw].
  apply keeps_bind; [now apply keeps_plumbing_emit | intros n].
  destruct (accessTokenReply env _ n); [apply keeps_throw | apply keeps_ret].
Qed.

Lemma keeps_setProjectId (tm : TriggerService.TokenManager) (p : string) :
  keeps observe (TriggerService.setProjectId tm p).
Proof.
  unfold TriggerService.setProjectId.
  destruct (TriggerService.tm_tokens tm); [| apply keeps_ret].
  intros w. destruct blind as (_ & Hb & _). apply Hb.
Qed.

Lemma keeps_loadCodeAssist (c : CloudCode.Client) :
  keeps observe (CloudCode.loadCodeAssist env c).
Proof.
  unfold CloudCode.loadCodeAssist.
  apply keeps_bind; [now apply keeps_plumbing_emit | intros n].
  destruct (loadCodeAssistReply env _ n); [apply keeps_throw | apply keeps_ret].
Qed.

Lemma keeps_onboardUser (c : CloudCode.Client) (tier : string) :
  keeps observe (CloudCode.onboardUser env c tier).
Proof.
  unfold CloudCode.onboardUser.
  apply keeps_bind; [now apply keeps_plumbing_emit | intros n].
  destruct (onboardUserReply env _ tier n); [apply keeps_throw | apply keeps_ret].
Qed.

Lemma keeps_retry_loop (delay : Z) (remaining : nat) :
  forall c : CloudCode.Client,
    keeps observe (CloudCode.retry_loop env delay c remaining).
Proof.
  induction remaining as [|k IH]; intros c; [apply keeps_ret |].
  cbn [CloudCode.retry_loop].
  apply keeps_bind; [now apply keeps_plumbing_emit | intros _].
  apply keeps_bind; [apply keeps_loadCodeAssist | intros r].
  destruct (truthy (CloudCode.client_projectId r.2)); [apply keeps_ret | apply IH].
Qed.

Lemma keeps_resolveProjectId (maxRetries : nat) (delay : Z) (c : CloudCode.Client) :
  keeps observe (CloudCode.resolveProjectId env maxRetries delay c).
Proof.
  unfold CloudCode.resolveProjectId.
  destruct (truthy (CloudCode.client_projectId c)); [apply keeps_ret |].
  apply keeps_bind; [apply keeps_loadCodeAssist | intros r].
  destruct (truthy (CloudCode.client_projectId r.2)); [apply keeps_ret |].
  destruct (truthy (CloudCode.pick_tier r.1)); [| apply keeps_ret].
  apply keeps_bind; [| intros _; apply keeps_retry_loop].
  apply keeps_try_catch; [apply keeps_onboardUser | intros e; apply keeps_ret].
Qed.

End Plumbing.

(** ** Observations of the trace and of the documents *)

Lemma token_loads_app (t u : list Event) :
  token_loads (t ++ u) = (token_loads t ++ token_loads u)%list.
Proof. apply flat_map_app. Qed.

Lemma generation_requests_app (t u : list Event) :
  generation_requests (t ++ u) =
  (generation_requests t ++ generation_requests u)%list.
Proof. apply flat_map_app. Qed.

Lemma plumbing_blind_disk : plumbing_blind disk.
Proof. repeat split. Qed.

Lemma plumbing_blind_besides_history : plumbing_blind besides_history.
Proof. repeat split. Qed.

Lemma plumbing_blind_token_loads : plumbing_blind (fun w => token_loads (trace w)).
Proof.
  repeat split. intros ev w Hev. simpl. rewrite token_loads_app.
  destruct ev; try discriminate; apply app_nil_r.
Qed.

Lemma plumbing_blind_generation_requests :
  plumbing_blind (fun w => generation_requests (trace w)).
Proof.
  repeat split. intros ev w Hev. simpl. rewrite generation_requests_app.
  destruct ev; try discriminate; apply app_nil_r.
Qed.

Lemma keeps_addTriggerRecord {B : Type} (observe : World -> B)
    (record : TriggerRecord) :
  history_blind observe -> keeps observe (Storage.addTriggerRecord record).
Proof.
  intros Hb w. unfold Storage.addTriggerRecord, bind.
  rewrite loadTriggerHistory_reads.
  unfold Storage.saveTriggerHistory, Storage.writeJsonFile.
  destruct (write_fault (disk w)); [reflexivity |].
  destruct (Storage.MAX_HISTORY_ENTRIES <? length (record :: history_of (disk w)))%nat;
    apply Hb.
Qed.

Lemma keeps_recordResults {B : Type} (observe : World -> B) (env : Env)
    (results : list ModelTriggerResult) (options : TriggerOptions) :
  plumbing_blind observe -> history_blind observe ->
  keeps observe (TriggerService.recordResults env results options).
Proof.
  intros Hp Hh. unfold TriggerService.recordResults. apply keeps_for_each.
  intros result. apply keeps_bind.
  - apply keeps_new_Date_toISOString, Hp.
  - intros stamp. apply keeps_addTriggerRecord, Hh.
Qed.

Lemma keeps_triggerSingleModel {B : Type} (observe : World -> B) (env : Env)
    (client : CloudCode.Client) (model prompt : string) (maxTokens : option Z) :
  plumbing_blind observe ->
  event_blind observe
    (GenerateContent (CloudCode.client_account client) model prompt maxTokens) ->
  keeps observe (TriggerService.triggerSingleModel env client model prompt maxTokens).
Proof.
  intros Hp Hg. unfold TriggerService.triggerSingleModel.
  apply keeps_bind; [apply keeps_Date_now, Hp | intros startTime].
  apply keeps_bind; [exact Hg | intros n]. apply keeps_ret.
Qed.

Lemma keeps_triggerSingleModel_resumed {B : Type} (observe : World -> B) (env : Env)
    (client : CloudCode.Client) (model prompt : string) (maxTokens : option Z)
    (w w' : World) (s : Suspended ModelTriggerResult) :
  plumbing_blind observe ->
  TriggerService.triggerSingleModel env client model prompt maxTokens w =
    Returns s w' ->
  keeps observe (resume s).
Proof.
  intros Hp. unfold TriggerService.triggerSingleModel, bind, Date_now, emit, ret.
  intros [= <- _]. cbn [resume].
  destruct (generateContentReply env _ model prompt maxTokens _);
    intros w0; simpl; apply (proj1 Hp).
Qed.

Lemma keeps_trigger_batches {B : Type} (observe : World -> B) (env : Env)
    (client : CloudCode.Client) (prompt : string) (maxTokens : option Z)
    (fuel : nat) :
  plumbing_blind observe ->
  (forall model : string,
     event_blind observe
       (GenerateContent (CloudCode.client_account client) model prompt maxTokens)) ->
  forall batch : list string,
    keeps observe
      (TriggerService.trigger_batches env fuel client prompt maxTokens batch).
Proof.
  intros Hp Hg. induction fuel as [|fuel IH]; intros batch; [apply keeps_ret |].
  cbn [TriggerService.trigger_batches].
  destruct batch as [|m batch]; [apply keeps_ret |].
  apply keeps_bind.
  - apply keeps_map_all.
    + intros model. apply keeps_triggerSingleModel; auto.
    + intros model w w' s. apply keeps_triggerSingleModel_resumed, Hp.
  - intros rs. apply keeps_bind; [apply IH | intros rest; apply keeps_ret].
Qed.

Lemma keeps_getTokenManagerForAccount {B : Type} (observe : World -> B) (env : Env)
    (email : string) :
  event_blind observe (LoadAccountTokens email) ->
  keeps observe (TriggerService.getTokenManagerForAccount env email).
Proof.
  intros Hl. unfold TriggerService.getTokenManagerForAccount.
  apply keeps_bind; [exact Hl | intros _].
  destruct (credential_fault env email); [apply keeps_throw |].
  apply keeps_bind; [intros w; reflexivity | intros w; apply keeps_ret].
Qed.

Lemma loadModelMapping_reads (w : World) :
  Storage.loadModelMapping w = Returns (mapping_of (disk w)) w.
Proof.
  unfold Storage.loadModelMapping, Storage.readJsonFile, mapping_of. simpl.
  destruct (model_mapping_json (disk w)); reflexivity.
Qed.

Lemma loadWakeupConfig_reads (w : World) :
  Storage.loadWakeupConfig w = Returns (config_of (disk w)) w.
Proof.
  unfold Storage.loadWakeupConfig, Storage.readJsonFile, config_of. simpl.
  destruct (config_json (disk w)); reflexivity.
Qed.

(** ** The executor, model by model *)

Lemma substring_length_le (n : nat) :
  forall s : string, (String.length (String.substring 0 n s) <= n)%nat.
Proof.
  induction n as [|n IH]; intros s.
  - destruct s; simpl; lia.
  - destruct s as [|c s]; simpl; [lia |]. specialize (IH s). lia.
Qed.

(** One trigger: it returns, under the ID asked for, a well-formed result,
    after exactly one generation request, and leaves the disk alone. *)
Lemma replied_well_formed (env : Env) (client : CloudCode.Client) (prompt : string)
    (maxTokens : option Z) (model : string) (r : ModelTriggerResult) :
  replied env client prompt maxTokens model r -> well_formed r.
Proof.
  intros (n & d & ->).
  destruct (generateContentReply env _ model prompt maxTokens n);
    unfold well_formed; simpl.
  - split; [reflexivity |].
    eexists. split; [reflexivity | apply substring_length_le].
  - repeat split. eexists. reflexivity.
  - repeat split. eexists. reflexivity.
Qed.

Lemma generation_requests_sent (account prompt : string) (maxTokens : option Z)
    (batch : list string) :
  generation_requests
    (map (fun model => GenerateContent account model prompt maxTokens) batch) =
  map (fun model => (account, model, prompt, maxTokens)) batch.
Proof. induction batch as [|model batch IH]; simpl; congruence. Qed.

Lemma map_all_outcome (env : Env) (client : CloudCode.Client) (prompt : string)
    (maxTokens : option Z) (batch : list string) :
  forall w : World,
    exists (rs : list ModelTriggerResult) (w' : World),
      map_all (arrival env)
        (fun model =>
           TriggerService.triggerSingleModel env client model prompt maxTokens)
        batch w = Returns rs w' /\
      map res_modelId rs = batch /\
      Forall well_formed rs /\
      generation_requests (trace w') =
        (generation_requests (trace w) ++
         map (fun model => (CloudCode.client_account client, model, prompt, maxTokens))
           batch)%list /\
      disk w' = disk w.
Proof.
  intros w.
  destruct (map_all_settles env client prompt maxTokens batch w)
    as (rs & w' & Hrun & Hall & Ht & Hd & _).
  exists rs, w'. split; [exact Hrun |]. clear Hrun.
  split; [| split; [| split; [| exact Hd]]].
  - clear Ht. induction Hall as [|model r batch' rs' Hr _ IH]; [reflexivity |].
    simpl. rewrite (replied_modelId _ _ _ _ _ _ Hr). f_equal. exact IH.
  - clear Ht. induction Hall as [|model r batch' rs' Hr _ IH]; constructor.
    + exact (replied_well_formed _ _ _ _ _ _ Hr).
    + exact IH.
  - rewrite Ht. unfold generation_requests at 1. rewrite flat_map_app.
    fold (generation_requests (trace w)). f_equal.
    apply generation_requests_sent.
Qed.

(** The batches cover the list: with enough rounds there is one well-formed
    result and one generation request per model, in the order of the list. *)
Lemma trigger_batches_outcome (env : Env) (client : CloudCode.Client)
    (prompt : string) (maxTokens : option Z) (fuel : nat) :
  forall (batch : list string) (w : World),
    (length batch <= fuel)%nat ->
    exists (rs : list ModelTriggerResult) (w' : World),
      TriggerService.trigger_batches env fuel client prompt maxTokens batch w =
        Returns rs w' /\
      map res_modelId rs = batch /\
      Forall well_formed rs /\
      generation_requests (trace w') =
        (generation_requests (trace w) ++
         map (fun model => (CloudCode.client_account client, model, prompt, maxTokens))
           batch)%list /\
      disk w' = disk w.
Proof.
  induction fuel as [|fuel IH]; intros batch w Hlen.
  - destruct batch; [| simpl in Hlen; lia].
    exists [], w. repeat split; [constructor | now rewrite app_nil_r].
  - destruct batch as [|m batch].
    { exists [], w. repeat split; [constructor | now rewrite app_nil_r]. }
    cbn [TriggerService.trigger_batches].
    set (l := m :: batch) in *.
    destruct (map_all_outcome env client prompt maxTokens
                (take TriggerService.MAX_CONCURRENT_REQUESTS l) w)
      as (rs1 & w1 & H1 & Hid1 & Hwf1 & Hg1 & Hd1).
    destruct (IH (drop TriggerService.MAX_CONCURRENT_REQUESTS l) w1)
      as (rs2 & w' & H2 & Hid2 & Hwf2 & Hg2 & Hd2).
    { rewrite length_drop. unfold TriggerService.MAX_CONCURRENT_REQUESTS.
      unfold l in *. simpl in Hlen |- *. lia. }
    exists (rs1 ++ rs2)%list, w'. split; [| split; [| split; [| split]]].
    + unfold bind. rewrite H1, H2. reflexivity.
    + rewrite map_app, Hid1, Hid2. apply take_drop.
    + apply Forall_app. split; assumption.
    + rewrite Hg2, Hg1, <- app_assoc, <- map_app, take_drop. reflexivity.
    + now rewrite Hd2.
Qed.

Lemma retry_loop_account (env : Env) (delay : Z) (remaining : nat) :
  forall (c : CloudCode.Client) (w w' : World) (r : option string * CloudCode.Client),
    CloudCode.retry_loop env delay c remaining w = Returns r w' ->
    CloudCode.client_account r.2 = CloudCode.client_account c.
Proof.
  induction remaining as [|k IH]; intros c w w' r.
  - intros [= <- _]. reflexivity.
  - cbn [CloudCode.retry_loop]. unfold bind at 1, emit at 1. unfold bind at 1.
    destruct (CloudCode.loadCodeAssist env c _) as [r1 w1|e w1] eqn:Hload;
      [| discriminate].
    destruct (loadCodeAssist_account env c _ w1 r1 Hload) as [Hacc _].
    destruct (truthy (CloudCode.client_projectId r1.2)).
    + intros [= <- _]. exact Hacc.
    + intros Hrun. rewrite (IH _ _ _ _ Hrun). exact Hacc.
Qed.

Lemma resolveProjectId_account (env : Env) (maxRetries : nat) (delay : Z)
    (c : CloudCode.Client) (w w' : World) (r : option string * CloudCode.Client) :
  CloudCode.resolveProjectId env maxRetries delay c w = Returns r w' ->
  CloudCode.client_account r.2 = CloudCode.client_account c.
Proof.
  unfold CloudCode.resolveProjectId.
  destruct (truthy (CloudCode.client_projectId c)); [intros [= <- _]; reflexivity |].
  unfold bind at 1.
  destruct (CloudCode.loadCodeAssist env c w) as [r1 w1|e w1] eqn:Hload;
    [| discriminate].
  destruct (loadCodeAssist_account env c w w1 r1 Hload) as [Hacc _].
  destruct (truthy (CloudCode.client_projectId r1.2)); [intros [= <- _]; exact Hacc |].
  destruct (truthy (CloudCode.pick_tier r1.1)); [| intros [= <- _]; exact Hacc].
  unfold bind at 1.
  destruct (try_catch _ _ w1) as [u w2|e w2]; [| discriminate].
  intros Hrun. rewrite (retry_loop_account _ _ _ _ _ _ _ Hrun). exact Hacc.
Qed.

(** ** The executor, phase by phase *)

Lemma failed_well_formed (model message : string) :
  well_formed (TriggerService.failed model message).
Proof. unfold well_formed. simpl. repeat split. eexists. reflexivity. Qed.

Lemma failed_results (message : string) (batch : list string) :
  map res_modelId (map (fun model => TriggerService.failed model message) batch) = batch /\
  Forall well_formed (map (fun model => TriggerService.failed model message) batch) /\
  Forall (fun r => res_success r = false)
    (map (fun model => TriggerService.failed model message) batch) /\
  (batch <> [] ->
   forallb res_success (map (fun model => TriggerService.failed model message) batch) =
   false).
Proof.
  split; [| split; [| split]].
  - rewrite map_map. simpl. apply map_id.
  - apply Forall_map, Forall_forall. intros. apply failed_well_formed.
  - apply Forall_map, Forall_forall. intros. reflexivity.
  - destruct batch; [contradiction | reflexivity].
Qed.

(** Writing the records of a list of results, on a disk that takes writes:
    the records go in front of the history, newest first, cut at 100. *)
Lemma recordResults_written (env : Env) (options : TriggerOptions)
    (results : list ModelTriggerResult) :
  forall w : World,
    write_fault (disk w) = None ->
    exists w' : World,
      TriggerService.recordResults env results options w = Returns tt w' /\
      besides_history w' = besides_history w /\
      trace w' = trace w /\
      credentials w' = credentials w /\
      ticks w' = (ticks w + length results)%nat /\
      history_of (disk w') =
        match results with
        | [] => history_of (disk w)
        | _ =>
            take Storage.MAX_HISTORY_ENTRIES
              (rev (records_from env options (ticks w) results) ++
               history_of (disk w))%list
        end.
Proof.
  induction results as [|r rs IH]; intros w Hw.
  - exists w. repeat split. simpl. lia.
  - unfold TriggerService.recordResults in *. cbn [for_each].
    unfold bind at 1, bind at 1, new_Date_toISOString, bind at 1, Date_now at 1,
      ret at 1.
    rewrite addTriggerRecord_returns by exact Hw.
    set (w1 := with_disk _ _).
    destruct (IH w1 Hw) as (w' & Hrun & Hb & Ht & Hc & Hk & Hh).
    exists w'. split; [exact Hrun |].
    split; [rewrite Hb; reflexivity |].
    split; [rewrite Ht; reflexivity |].
    split; [rewrite Hc; reflexivity |].
    split; [rewrite Hk; unfold w1; simpl; lia |].
    rewrite Hh. unfold w1. rewrite disk_with_disk, history_of_store.
    simpl ticks. cbn [records_from rev]. fold (record_of options
      (toISOString env (clock env (ticks w))) r).
    destruct rs as [|r' rs].
    + reflexivity.
    + rewrite take_app_take, <- app_assoc. reflexivity.
Qed.

(** On a disk that refuses writes the first record is not written and the
    write error comes out. *)
Lemma recordResults_refused (env : Env) (options : TriggerOptions)
    (results : list ModelTriggerResult) (w : World) (err : js_error) :
  write_fault (disk w) = Some err ->
  results <> [] ->
  exists w' : World,
    TriggerService.recordResults env results options w = Throws err w' /\
    disk w' = disk w /\ trace w' = trace w /\ credentials w' = credentials w.
Proof.
  intros Hw Hne. destruct results as [|r rs]; [contradiction |].
  unfold TriggerService.recordResults. cbn [for_each].
  unfold bind at 1, bind at 1, new_Date_toISOString, bind at 1, Date_now at 1,
    ret at 1.
  unfold Storage.addTriggerRecord, bind. rewrite loadTriggerHistory_reads.
  unfold Storage.saveTriggerHistory, Storage.writeJsonFile. simpl disk.
  rewrite Hw. eexists. split; [reflexivity |]. repeat split.
Qed.

(** The shape of every run of the executor on a non-empty model list: some
    results, one per model and well formed, are computed without touching
    the disk, and are then recorded.  Either no generation request was sent
    and every result is a failure, or exactly one was sent per model, in the
    order of the list, with the resolved prompt and the token cap. *)
Lemma executeTrigger_phases (env : Env) (options : TriggerOptions) (w : World) :
  opt_models options <> [] ->
  exists (computed : list ModelTriggerResult) (w2 : World),
    TriggerService.executeTrigger env options w =
      (TriggerService.recordResults env computed options >>
       ret {| success := forallb res_success computed; results := computed |}) w2 /\
    map res_modelId computed = opt_models options /\
    Forall well_formed computed /\
    disk w2 = disk w /\
    token_loads (trace w2) =
      (token_loads (trace w) ++ [opt_accountEmail options])%list /\
    ((generation_requests (trace w2) = generation_requests (trace w) /\
      Forall (fun r => res_success r = false) computed) \/
     generation_requests (trace w2) =
       (generation_requests (trace w) ++
        map (fun model =>
               (opt_accountEmail options, model,
                or_else (opt_customPrompt options) TriggerService.DEFAULT_PROMPT,
                opt_maxOutputTokens options))
          (opt_models options))%list).
Proof.
  intros Hne. unfold TriggerService.executeTrigger. cbv zeta.
  destruct (length (opt_models options) =? 0)%nat eqn:Hlen.
  { apply Nat.eqb_eq, length_zero_iff_nil in Hlen. contradiction. }
  unfold bind at 1.
  destruct (try_catch _ _ w) as [manager w1|e w1] eqn:H1.
  2: { unfold try_catch in H1. destruct (bind _ _ w); discriminate. }
  assert (Hw1 : disk w1 = disk w /\
                generation_requests (trace w1) = generation_requests (trace w) /\
                token_loads (trace w1) =
                  (token_loads (trace w) ++ [opt_accountEmail options])%list).
  { unfold try_catch, bind, TriggerService.getTokenManagerForAccount, bind, emit,
      get_world, ret in H1.
    destruct (credential_fault env (opt_accountEmail options));
      simpl in H1; injection H1 as <- <-; simpl;
      (split; [reflexivity |]);
      (split; [rewrite generation_requests_app; apply app_nil_r |
               apply token_loads_app]). }
  destruct Hw1 as (Hd1 & Hg1 & Hl1).
  destruct manager as [tokenManager|].
  2: { destruct (failed_results ("Failed to get credentials for " ++
                                  opt_accountEmail options) (opt_models options))
         as (Hids & Hwf & Hfail & Hall).
       eexists _, w1. split; [rewrite (Hall Hne); reflexivity |].
       repeat split; try assumption. left. split; assumption. }
  unfold bind at 1.
  destruct (try_catch _ _ w1) as [refusal w2|e w2] eqn:H2.
  2: { unfold try_catch in H2. destruct (bind _ _ w1); discriminate. }
  assert (Hkeep2 : forall (B : Type) (observe : World -> B),
            plumbing_blind observe -> observe w2 = observe w1).
  { intros B observe Hp. refine (keeps_returns observe _ _ _ _ _ H2).
    apply keeps_try_catch; [| intros e; apply keeps_ret].
    apply keeps_bind; [apply keeps_getValidAccessToken, Hp | intros _; apply keeps_ret]. }
  pose proof (Hkeep2 _ _ plumbing_blind_disk) as Hd2.
  pose proof (Hkeep2 _ _ plumbing_blind_generation_requests) as Hg2. simpl in Hg2.
  pose proof (Hkeep2 _ _ plumbing_blind_token_loads) as Hl2. simpl in Hl2.
  destruct refusal as [err|].
  { destruct (failed_results (TriggerService.refresh_error_message
                                (opt_accountEmail options) err) (opt_models options))
      as (Hids & Hwf & Hfail & Hall).
    eexists _, w2. split; [rewrite (Hall Hne); reflexivity |].
    repeat split; try assumption; [congruence | congruence |].
    left. split; [congruence | assumption]. }
  unfold bind at 1.
  set (client0 := {| CloudCode.client_account := opt_accountEmail options;
                     CloudCode.client_projectId :=
                       TriggerService.getProjectId tokenManager |}).
  destruct (try_catch _ _ w2) as [client w3|e w3] eqn:H3.
  2: { unfold try_catch in H3. destruct (bind _ _ w2); discriminate. }
  assert (Hkeep3 : forall (B : Type) (observe : World -> B),
            plumbing_blind observe -> observe w3 = observe w2).
  { intros B observe Hp. refine (keeps_returns observe _ _ _ _ _ H3).
    apply keeps_try_catch; [| intros e; apply keeps_ret].
    apply keeps_bind; [apply keeps_resolveProjectId, Hp | intros r].
    destruct (truthy r.1); [| apply keeps_ret].
    apply keeps_bind; [apply keeps_setProjectId, Hp | intros _; apply keeps_ret]. }
  pose proof (Hkeep3 _ _ plumbing_blind_disk) as Hd3.
  pose proof (Hkeep3 _ _ plumbing_blind_generation_requests) as Hg3. simpl in Hg3.
  pose proof (Hkeep3 _ _ plumbing_blind_token_loads) as Hl3. simpl in Hl3.
  assert (Hacc : CloudCode.client_account client = opt_accountEmail options).
  { unfold try_catch, bind in H3.
    destruct (CloudCode.resolveProjectId env _ _ client0 w2) as [r w'|e w'] eqn:Hres.
    - apply resolveProjectId_account in Hres.
      destruct (truthy r.1).
      + unfold TriggerService.setProjectId in H3.
        destruct (TriggerService.tm_tokens tokenManager);
          injection H3 as <- _; exact Hres.
      + injection H3 as <- _. exact Hres.
    - injection H3 as <- _. reflexivity. }
  destruct (trigger_batches_outcome env client
              (or_else (opt_customPrompt options) TriggerService.DEFAULT_PROMPT)
              (opt_maxOutputTokens options) (length (opt_models options))
              (opt_models options) w3 (Nat.le_refl _))
    as (computed & w4 & H4 & Hids & Hwf & Hg4 & Hd4).
  assert (Hl4 : token_loads (trace w4) = token_loads (trace w3)).
  { refine (keeps_returns (fun w => token_loads (trace w)) _ _ _ _ _ H4).
    apply keeps_trigger_batches; [apply plumbing_blind_token_loads |].
    intros model w0. simpl. rewrite token_loads_app. apply app_nil_r. }
  exists computed, w4. split.
  { unfold bind at 1. rewrite H4. reflexivity. }
  repeat split; try assumption; [congruence | congruence |].
  right. rewrite Hg4, Hg3, Hg2, Hg1, Hacc. reflexivity.
Qed.

(** ** The trigger executor, in general *)

(** X1. On a disk that takes writes, [executeTrigger] on a non-empty model
    list returns (no failure of a credential, of project resolution or of a
    model makes it throw); there is exactly one result per requested model,
    in the order of the request; [success] is the conjunction of the
    results; every result is well formed; and the history gains exactly one
    record per result, newest first, cut at 100 entries, while the other
    documents are untouched. *)
Theorem executeTrigger_accounts_for_every_model (env : Env)
    (options : TriggerOptions) (w : World) :
  opt_models options <> [] ->
  write_fault (disk w) = None ->
  exists (outcome : list ModelTriggerResult) (w' : World) (tick : nat),
    TriggerService.executeTrigger env options w =
      Returns {| success := forallb res_success outcome; results := outcome |} w' /\
    map res_modelId outcome = opt_models options /\
    Forall well_formed outcome /\
    history_of (disk w') =
      take 100 (rev (records_from env options tick outcome) ++ history_of (disk w))%list /\
    besides_history w' = besides_history w.
Proof.
  intros Hne Hw.
  destruct (executeTrigger_phases env options w Hne)
    as (computed & w2 & Hrun & Hids & Hwf & Hd & _).
  destruct (recordResults_written env options computed w2) as
    (w' & Hrec & Hb & _ & _ & _ & Hh); [now rewrite Hd |].
  exists computed, w', (ticks w2).
  split; [rewrite Hrun; unfold bind; rewrite Hrec; reflexivity |].
  split; [exact Hids |]. split; [exact Hwf |]. split.
  - rewrite Hh, Hd. destruct computed; [| reflexivity].
    simpl in Hids. symmetry in Hids. contradiction.
  - rewrite Hb. unfold besides_history. now rewrite Hd.
Qed.

Lemma executeTrigger_accounts_for_every_model_witness :
  opt_models (Sample.options ["claude-sonnet-4-5"; "gemini-3-flash"]) <> [] /\
  write_fault (disk Sample.w0) = None /\
  exists (outcome : list ModelTriggerResult) (w' : World) (tick : nat),
    TriggerService.executeTrigger Sample.env
      (Sample.options ["claude-sonnet-4-5"; "gemini-3-flash"]) Sample.w0 =
      Returns {| success := forallb res_success outcome; results := outcome |} w' /\
    map res_modelId outcome =
      opt_models (Sample.options ["claude-sonnet-4-5"; "gemini-3-flash"]) /\
    Forall well_formed outcome /\
    history_of (disk w') =
      take 100
        (rev (records_from Sample.env
                (Sample.options ["claude-sonnet-4-5"; "gemini-3-flash"]) tick outcome) ++
         history_of (disk Sample.w0))%list /\
    besides_history w' = besides_history Sample.w0.
Proof.
  split; [discriminate |]. split; [reflexivity |].
  apply (executeTrigger_accounts_for_every_model Sample.env
           (Sample.options ["claude-sonnet-4-5"; "gemini-3-flash"]) Sample.w0);
    [discriminate | reflexivity].
Defined.



(** X3. However a run of [executeTrigger] on a non-empty model list ends,
    it loads the tokens of its account exactly once, and it sends either no
    generation request at all or exactly one per requested model, in the
    order of the request, each for that account, with the custom prompt
    when there is a non-empty one and [hi] otherwise, and with the
    configured token cap. *)
Theorem executeTrigger_requests (env : Env) (options : TriggerOptions) (w : World) :
  opt_models options <> [] ->
  token_loads (trace (world_of (TriggerService.executeTrigger env options w))) =
    (token_loads (trace w) ++ [opt_accountEmail options])%list /\
  exists sent : list (string * string * string * option Z),
    generation_requests
      (trace (world_of (TriggerService.executeTrigger env options w))) =
      (generation_requests (trace w) ++ sent)%list /\
    (sent = [] \/
     sent =
       map (fun model =>
              (opt_accountEmail options, model,
               or_else (opt_customPrompt options) "hi",
               opt_maxOutputTokens options))
         (opt_models options)).
Proof.
  intros Hne.
  destruct (executeTrigger_phases env options w Hne)
    as (computed & w2 & Hrun & _ & _ & _ & Hl & Hg).
  rewrite Hrun.
  assert (Hkeep : forall (B : Type) (observe : World -> B),
            plumbing_blind observe -> history_blind observe ->
            observe (world_of
              ((TriggerService.recordResults env computed options >>
                ret {| success := forallb res_success computed;
                       results := computed |}) w2)) = observe w2).
  { intros B observe Hp Hh.
    apply (keeps_bind observe); [apply keeps_recordResults; assumption |
                                 intros _; apply keeps_ret]. }
  split.
  - rewrite (Hkeep _ (fun w => token_loads (trace w)));
      [exact Hl | apply plumbing_blind_token_loads | intros h w0; reflexivity].
  - rewrite (Hkeep _ (fun w => generation_requests (trace w)));
      [| apply plumbing_blind_generation_requests | intros h w0; reflexivity].
    destruct Hg as [[Hg _] | Hg].
    + exists []. split; [now rewrite app_nil_r | now left].
    + eexists. split; [exact Hg | now right].
Qed.

Lemma executeTrigger_requests_witness :
  opt_models (Sample.options ["gemini-3-flash"]) <> [] /\
  token_loads
    (trace (world_of (TriggerService.executeTrigger Sample.env
                        (Sample.options ["gemini-3-flash"]) Sample.w0))) =
    (token_loads (trace Sample.w0) ++ ["a@x.com"])%list /\
  exists sent : list (string * string * string * option Z),
    generation_requests
      (trace (world_of (TriggerService.executeTrigger Sample.env
                          (Sample.options ["gemini-3-flash"]) Sample.w0))) =
      (generation_requests (trace Sample.w0) ++ sent)%list /\
    (sent = [] \/
     sent = map (fun model => ("a@x.com", model, or_else None "hi", Some 1))
              ["gemini-3-flash"]).
Proof.
  split; [discriminate |].
  apply (executeTrigger_requests Sample.env (Sample.options ["gemini-3-flash"])
           Sample.w0).
  discriminate.
Defined.

(** X4. When the tokens of the account cannot be loaded, every requested
    model is reported and recorded as failed with the message
    [Failed to get credentials for <account>]; no refresh is attempted and
    no request is sent: the trace gains the load of the tokens and nothing
    else. *)
Theorem executeTrigger_without_credentials (env : Env) (options : TriggerOptions)
    (w : World) (err : js_error) :
  opt_models options <> [] ->
  write_fault (disk w) = None ->
  credential_fault env (opt_accountEmail options) = Some err ->
  exists w' : World,
    TriggerService.executeTrigger env options w =
      Returns
        {| success := false;
           results :=
             map (fun model =>
                    TriggerService.failed model
                      ("Failed to get credentials for " ++ opt_accountEmail options))
               (opt_models options) |}
        w' /\
    trace w' = (trace w ++ [LoadAccountTokens (opt_accountEmail options)])%list /\
    history_of (disk w') =
      take 100
        (rev (records_from env options (ticks w)
                (map (fun model =>
                        TriggerService.failed model
                          ("Failed to get credentials for " ++
                           opt_accountEmail options))
                   (opt_models options))) ++
         history_of (disk w))%list.
Proof.
  intros Hne Hw Hcf.
  unfold TriggerService.executeTrigger. cbv zeta.
  destruct (length (opt_models options) =? 0)%nat eqn:Hlen.
  { apply Nat.eqb_eq, length_zero_iff_nil in Hlen. contradiction. }
  unfold bind at 1, try_catch at 1, bind at 1,
    TriggerService.getTokenManagerForAccount, bind at 1, emit at 1.
  rewrite Hcf. unfold throw, ret at 1.
  set (w1 := with_trace _ w).
  destruct (recordResults_written env options
              (map (fun model =>
                      TriggerService.failed model
                        ("Failed to get credentials for " ++ opt_accountEmail options))
                 (opt_models options)) w1 Hw)
    as (w' & Hrec & _ & Ht & _ & _ & Hh).
  exists w'. split; [unfold bind; rewrite Hrec; reflexivity |].
  split; [rewrite Ht; reflexivity |].
  rewrite Hh. destruct (opt_models options); [contradiction | reflexivity].
Qed.

Lemma executeTrigger_without_credentials_witness :
  opt_models (Sample.options ["gemini-3-flash"]) <> [] /\
  write_fault (disk Sample.w0) = None /\
  credential_fault Fixture.env_without_credentials
    (opt_accountEmail (Sample.options ["gemini-3-flash"])) =
    Some (PlainError "ENOENT: no such file or directory") /\
  exists w' : World,
    TriggerService.executeTrigger Fixture.env_without_credentials
      (Sample.options ["gemini-3-flash"]) Sample.w0 =
      Returns
        {| success := false;
           results :=
             map (fun model =>
                    TriggerService.failed model
                      ("Failed to get credentials for " ++
                       opt_accountEmail (Sample.options ["gemini-3-flash"])))
               (opt_models (Sample.options ["gemini-3-flash"])) |}
        w' /\
    trace w' =
      (trace Sample.w0 ++
       [LoadAccountTokens (opt_accountEmail (Sample.options ["gemini-3-flash"]))])%list /\
    history_of (disk w') =
      take 100
        (rev (records_from Fixture.env_without_credentials
                (Sample.options ["gemini-3-flash"]) (ticks Sample.w0)
                (map (fun model =>
                        TriggerService.failed model
                          ("Failed to get credentials for " ++
                           opt_accountEmail (Sample.options ["gemini-3-flash"])))
                   (opt_models (Sample.options ["gemini-3-flash"])))) ++
         history_of (disk Sample.w0))%list.
Proof.
  split; [discriminate |]. split; [reflexivity |]. split; [reflexivity |].
  apply (executeTrigger_without_credentials Fixture.env_without_credentials
           (Sample.options ["gemini-3-flash"]) Sample.w0
           (PlainError "ENOENT: no such file or directory"));
    [discriminate | reflexivity | reflexivity].
Defined.

(** ** The orchestrator, step by step *)

Lemma keeps_executeTrigger {B : Type} (observe : World -> B) (env : Env)
    (options : TriggerOptions) :
  plumbing_blind observe -> history_blind observe ->
  (forall ev : Event, event_blind observe ev) ->
  keeps observe (TriggerService.executeTrigger env options).
Proof.
  intros Hp Hh He. unfold TriggerService.executeTrigger. cbv zeta.
  apply keeps_if; [apply keeps_ret |].
  apply keeps_bind.
  - apply keeps_try_catch; [| intros e; apply keeps_ret].
    apply keeps_bind; [apply keeps_getTokenManagerForAccount, He |
                       intros tm; apply keeps_ret].
  - intros [tokenManager|].
    + apply keeps_bind.
      * apply keeps_try_catch; [| intros e; apply keeps_ret].
        apply keeps_bind; [apply keeps_getValidAccessToken, Hp |
                           intros _; apply keeps_ret].
      * intros [err|].
        -- apply keeps_bind; [apply keeps_recordResults; assumption |
                              intros _; apply keeps_ret].
        -- apply keeps_bind.
           ++ apply keeps_try_catch; [| intros e; apply keeps_ret].
              apply keeps_bind; [apply keeps_resolveProjectId, Hp | intros r].
              destruct (truthy r.1); [| apply keeps_ret].
              apply keeps_bind; [apply keeps_setProjectId, Hp |
                                 intros _; apply keeps_ret].
           ++ intros client. apply keeps_bind.
              ** apply keeps_trigger_batches; [exact Hp | intros model; apply He].
              ** intros results.
                 apply keeps_bind; [apply keeps_recordResults; assumption |
                                    intros _; apply keeps_ret].
    + apply keeps_bind; [apply keeps_recordResults; assumption |
                         intros _; apply keeps_ret].
Qed.

Lemma keeps_trigger_account_besides_history (env : Env) (config : WakeupConfig)
    (batch : list string) (accountEmail : string) :
  keeps besides_history
    (ResetDetector.trigger_account env config batch accountEmail).
Proof.
  unfold ResetDetector.trigger_account.
  apply keeps_try_catch; [| intros e; apply keeps_ret].
  apply keeps_bind; [| intros _; apply keeps_ret].
  apply keeps_executeTrigger;
    [apply plumbing_blind_besides_history | intros h w; reflexivity |
     intros ev w; reflexivity].
Qed.

(** One account of the fan-out loads the tokens of that account once,
    however its trigger ends. *)
Lemma trigger_account_token_loads (env : Env) (config : WakeupConfig)
    (batch : list string) (accountEmail : string) (w : World) :
  batch <> [] ->
  token_loads
    (trace (world_of (ResetDetector.trigger_account env config batch accountEmail w))) =
  (token_loads (trace w) ++ [accountEmail])%list.
Proof.
  intros Hne. unfold ResetDetector.trigger_account, try_catch, bind.
  destruct (executeTrigger_phases env (reset_options config batch accountEmail) w Hne)
    as (computed & w2 & Hrun & _ & _ & _ & Hl & _).
  fold (reset_options config batch accountEmail).
  assert (Hk : token_loads
                 (trace (world_of (TriggerService.executeTrigger env
                                     (reset_options config batch accountEmail) w))) =
               token_loads (trace w2)).
  { rewrite Hrun.
    apply (keeps_bind (fun w => token_loads (trace w)));
      [| intros _; apply keeps_ret].
    apply keeps_recordResults;
      [apply plumbing_blind_token_loads | intros h w0; reflexivity]. }
  simpl in Hl. rewrite Hl in Hk.
  destruct (TriggerService.executeTrigger env _ w); simpl in Hk |- *; exact Hk.
Qed.

Lemma fan_out_effects (env : Env) (config : WakeupConfig) (batch : list string)
    (accounts : list string) :
  batch <> [] ->
  forall w : World,
    exists w' : World,
      for_each (ResetDetector.trigger_account env config batch) accounts w =
        Returns tt w' /\
      besides_history w' = besides_history w /\
      token_loads (trace w') = (token_loads (trace w) ++ accounts)%list.
Proof.
  intros Hne. induction accounts as [|a accounts IH]; intros w.
  - exists w. repeat split. now rewrite app_nil_r.
  - destruct (trigger_account_returns env config batch a w) as (w1 & H1).
    pose proof (keeps_trigger_account_besides_history env config batch a w) as Hb1.
    pose proof (trigger_account_token_loads env config batch a w Hne) as Hl1.
    rewrite H1 in Hb1, Hl1. simpl in Hb1, Hl1.
    destruct (IH w1) as (w' & H' & Hb & Hl).
    exists w'. split; [| split].
    + cbn [for_each]. unfold bind. rewrite H1. exact H'.
    + congruence.
    + rewrite Hl, Hl1, <- app_assoc. reflexivity.
Qed.

(** What the scan writes: every triggered ID other than [__proto__] ends
    with an entry stamped by a clock reading taken during the scan, every
    key that is not triggered is as it was. *)
Lemma scan_marks (env : Env) (resetState : ResetState) (now : Z)
    (snapshot_models : list ModelQuotaInfo) :
  forall (batch : list string) (w : World),
    write_fault (disk w) = None ->
    exists w' : World,
      ResetDetector.scan env resetState now snapshot_models batch w =
        Returns
          (batch ++ map modelId (List.filter (selected env resetState now)
                                   snapshot_models))%list w' /\
      same_but_reset_state w w' /\
      (ticks w <= ticks w')%nat /\
      (forall id : string,
         In id (map modelId (List.filter (selected env resetState now) snapshot_models)) ->
         id <> "__proto__" ->
         exists (entry : ModelResetState) (tick : nat),
           reset_state_of (disk w') !! id = Some entry /\
           lastTriggeredTime entry = toISOString env (clock env tick) /\
           (ticks w <= tick < ticks w')%nat) /\
      (forall id : string,
         ~ In id (map modelId (List.filter (selected env resetState now) snapshot_models)) ->
         reset_state_of (disk w') !! id = reset_state_of (disk w) !! id).
Proof.
  induction snapshot_models as [|model rest IH]; intros batch w Hw.
  - exists w. simpl. rewrite app_nil_r.
    split; [reflexivity |]. split; [now repeat split |]. split; [lia |].
    split; [intros id [] | reflexivity].
  - rewrite scan_cons. cbn [List.filter].
    destruct (selected env resetState now model) eqn:Hsel.
    2: { unfold selected in Hsel.
         destruct (isModelUnused model);
           [destruct (ResetDetector.in_cooldown env resetState now model) |];
           try discriminate; cbn [negb]; apply IH, Hw. }
    unfold selected in Hsel. apply andb_true_iff in Hsel as [Hun Hcool].
    apply negb_true_iff in Hcool. rewrite Hun, Hcool. cbn [negb].
    assert (Hstep : exists (resetAt : string) (w1 : World),
      (match truthy (resetTime model) with
       | Some s => ret s
       | None => new_Date_toISOString env
       end) w = Returns resetAt w1 /\ disk w1 = disk w /\
       credentials w1 = credentials w /\ trace w1 = trace w /\
       (ticks w <= ticks w1)%nat).
    { destruct (truthy (resetTime model)); eexists _, _; (split; [reflexivity |]);
        repeat split; simpl; lia. }
    destruct Hstep as (resetAt & w1 & Hret & Hd & Hc & Ht & Hk).
    unfold bind at 1. rewrite Hret. unfold bind at 1.
    rewrite updateResetState_returns by (rewrite Hd; exact Hw).
    set (w2 := with_disk _ _).
    assert (Hw2 : write_fault (disk w2) = None).
    { unfold w2. rewrite disk_with_disk. simpl. rewrite Hd. exact Hw. }
    destruct (IH (batch ++ [modelId model])%list w2 Hw2)
      as (w' & Hrun & Hsame & Hticks & Hin & Hout).
    assert (Hstate2 : reset_state_of (disk w2) =
              js_set (modelId model)
                {| lastResetAt := resetAt;
                   lastTriggeredTime := toISOString env (clock env (ticks w1)) |}
                (reset_state_of (disk w))).
    { unfold w2. rewrite disk_with_disk, reset_state_of_store, Hd. reflexivity. }
    assert (Hk2 : ticks w2 = S (ticks w1)) by reflexivity.
    exists w'. split; [| split; [| split; [| split]]].
    + rewrite Hrun. cbn [map]. rewrite <- app_assoc. reflexivity.
    + destruct Hsame as (H1 & H2 & H3 & H4 & H5 & H6).
      unfold w2 in H1, H2, H3, H4, H5, H6.
      rewrite disk_with_disk in H1, H2, H3, H4. simpl in H1, H2, H3, H4, H5, H6.
      unfold same_but_reset_state.
      rewrite H1, H2, H3, H4, H5, H6, Hd, Hc, Ht. now repeat split.
    + lia.
    + intros id Hid Hproto. cbn [map] in Hid.
      destruct (in_dec string_dec id
                  (map modelId (List.filter (selected env resetState now) rest)))
        as [Hrest | Hrest].
      * destruct (Hin id Hrest Hproto) as (entry & tick & He & Hs & Hr).
        exists entry, tick. repeat split; try assumption; lia.
      * destruct Hid as [<- | Hid]; [| contradiction].
        rewrite (Hout _ Hrest), Hstate2, js_set_entry by (left; exact Hproto).
        rewrite lookup_insert_eq.
        eexists _, (ticks w1). split; [reflexivity |]. split; [reflexivity | lia].
    + intros id Hid. cbn [map] in Hid.
      rewrite Hout by (intros Hin'; apply Hid; now right).
      rewrite Hstate2. apply js_set_other. intros ->. apply Hid. now left.
Qed.


(** ** A cycle of the orchestrator *)

Lemma besides_history_reset_state (w w' : World) :
  besides_history w' = besides_history w ->
  reset_state_of (disk w') = reset_state_of (disk w) /\
  write_fault (disk w') = write_fault (disk w) /\
  config_json (disk w') = config_json (disk w) /\
  model_mapping_json (disk w') = model_mapping_json (disk w).
Proof.
  unfold besides_history, reset_state_of. intros [= H1 H2 H3 H4].
  rewrite H1, H2, H3, H4. now repeat split.
Qed.

(** A full cycle of the orchestrator with an enabled configuration, at
    least one usable account and a disk that takes writes. *)
Lemma detectResetAndTrigger_anatomy (env : Env) (snapshot : QuotaSnapshot)
    (w : World) (config : WakeupConfig) :
  Storage.loadWakeupConfig w = Returns (Some config) w ->
  enabled config = true ->
  ResetDetector.getAllValidAccounts env <> [] ->
  write_fault (disk w) = None ->
  exists w' : World,
    ResetDetector.detectResetAndTrigger env snapshot w =
      Returns
        {| triggered :=
             match List.filter (selected env (reset_state_of (disk w))
                                  (clock env (ticks w))) (models snapshot) with
             | [] => false
             | _ => true
             end;
           triggeredModels :=
             map modelId
               (List.filter (selected env (reset_state_of (disk w))
                               (clock env (ticks w))) (models snapshot)) |}
        w' /\
    write_fault (disk w') = None /\
    config_json (disk w') = config_json (disk w) /\
    model_mapping_json (disk w') = model_mapping_json (disk w) /\
    token_loads (trace w') =
      (token_loads (trace w) ++
       match List.filter (selected env (reset_state_of (disk w))
                            (clock env (ticks w))) (models snapshot) with
       | [] => []
       | _ => ResetDetector.getAllValidAccounts env
       end)%list /\
    (forall id : string,
       In id (map modelId
                (List.filter (selected env (reset_state_of (disk w))
                                (clock env (ticks w))) (models snapshot))) ->
       id <> "__proto__" ->
       exists (entry : ModelResetState) (tick : nat),
         reset_state_of (disk w') !! id = Some entry /\
         lastTriggeredTime entry = toISOString env (clock env tick) /\
         (ticks w <= tick)%nat) /\
    (forall id : string,
       ~ In id (map modelId
                  (List.filter (selected env (reset_state_of (disk w))
                                  (clock env (ticks w))) (models snapshot))) ->
       reset_state_of (disk w') !! id = reset_state_of (disk w) !! id).
Proof.
  intros Hcfg Hen Hacc Hw.
  unfold ResetDetector.detectResetAndTrigger. cbv zeta.
  unfold bind at 1. rewrite Hcfg, Hen. cbn [negb].
  destruct (length (ResetDetector.getAllValidAccounts env) =? 0)%nat eqn:Hlen.
  { apply Nat.eqb_eq, length_zero_iff_nil in Hlen. contradiction. }
  unfold bind at 1. rewrite loadResetState_reads.
  unfold bind at 1, Date_now at 1. unfold bind at 1.
  destruct (scan_marks env (reset_state_of (disk w)) (clock env (ticks w))
              (models snapshot) [] (with_ticks (S (ticks w)) w) Hw)
    as (ws & Hscan & Hsame & _ & Hin & Hout).
  rewrite Hscan. cbn [app].
  destruct Hsame as (Hf & Hc & _ & Hm & _ & Ht). simpl in Hf, Hc, Hm, Ht.
  destruct (List.filter _ (models snapshot)) as [|m chosen] eqn:Hchosen;
    rewrite ?Hchosen in Hin, Hout.
  - exists ws. cbn [map length Nat.eqb].
    split; [reflexivity |]. split; [congruence |]. split; [exact Hc |].
    split; [exact Hm |]. split; [rewrite app_nil_r; now rewrite Ht |].
    split; [intros id [] | exact Hout].
  - cbn [map length Nat.eqb].
    destruct (fan_out_effects env config (modelId m :: map modelId chosen)
                (ResetDetector.getAllValidAccounts env) ltac:(discriminate) ws)
      as (w' & Hfan & Hb & Hl).
    apply besides_history_reset_state in Hb as (Hrs & Hwf & Hcj & Hmj).
    exists w'. split; [unfold bind; rewrite Hfan; reflexivity |].
    split; [congruence |]. split; [congruence |]. split; [congruence |].
    split; [rewrite Hl, Ht; reflexivity |].
    split.
    + intros id Hid Hproto.
      destruct (Hin id Hid Hproto) as (entry & tick & He & Hs & Hk & _).
      exists entry, tick. rewrite Hrs. simpl in Hk. repeat split; try assumption. lia.
    + intros id Hid. rewrite Hrs. apply Hout, Hid.
Qed.

(** X5. With an enabled configuration, at least one usable account and a
    disk that takes writes, [detectResetAndTrigger] returns; the models it
    reports are exactly the snapshot's models that are unused and not in
    cooldown under their model ID (judged against the reset state and the
    clock reading taken at the start), in snapshot order; and [triggered]
    is true exactly when that list is not empty. *)
Theorem detectResetAndTrigger_reports_the_selected_models (env : Env)
    (snapshot : QuotaSnapshot) (w : World) (config : WakeupConfig) :
  Storage.loadWakeupConfig w = Returns (Some config) w ->
  enabled config = true ->
  ResetDetector.getAllValidAccounts env <> [] ->
  write_fault (disk w) = None ->
  exists (r : DetectionResult) (w' : World),
    ResetDetector.detectResetAndTrigger env snapshot w = Returns r w' /\
    triggeredModels r =
      map modelId
        (List.filter
           (fun model =>
              isModelUnused model &&
              negb (ResetDetector.in_cooldown env (reset_state_of (disk w))
                      (clock env (ticks w)) model))
           (models snapshot)) /\
    (triggered r = true <-> triggeredModels r <> []).
Proof.
  intros Hcfg Hen Hacc Hw.
  destruct (detectResetAndTrigger_anatomy env snapshot w config Hcfg Hen Hacc Hw)
    as (w' & Hrun & _).
  eexists _, w'. split; [exact Hrun |]. split; [reflexivity |].
  cbn [triggered triggeredModels].
  fold (selected env (reset_state_of (disk w)) (clock env (ticks w))).
  destruct (List.filter _ (models snapshot)); simpl; split;
    first [discriminate | reflexivity | contradiction | intros _; discriminate].
Qed.

Lemma detectResetAndTrigger_reports_the_selected_models_witness :
  Storage.loadWakeupConfig Sample.w0 = Returns (Some Sample.config) Sample.w0 /\
  enabled Sample.config = true /\
  ResetDetector.getAllValidAccounts Sample.env <> [] /\
  write_fault (disk Sample.w0) = None /\
  exists (r : DetectionResult) (w' : World),
    ResetDetector.detectResetAndTrigger Sample.env Sample.snapshot Sample.w0 =
      Returns r w' /\
    triggeredModels r =
      map modelId
        (List.filter
           (fun model =>
              isModelUnused model &&
              negb (ResetDetector.in_cooldown Sample.env
                      (reset_state_of (disk Sample.w0))
                      (clock Sample.env (ticks Sample.w0)) model))
           (models Sample.snapshot)) /\
    (triggered r = true <-> triggeredModels r <> []).
Proof.
  split; [reflexivity |]. split; [reflexivity |]. split; [discriminate |].
  split; [reflexivity |].
  apply (detectResetAndTrigger_reports_the_selected_models Sample.env
           Sample.snapshot Sample.w0 Sample.config);
    [reflexivity | reflexivity | discriminate | reflexivity].
Defined.

(** X6. In a cycle that triggers, every account of the directory with
    status valid or expired has its tokens loaded exactly once, in
    directory order, whatever becomes of each account's trigger; in a cycle
    that does not trigger, no tokens are loaded. *)
Theorem detectResetAndTrigger_attempts_every_usable_account (env : Env)
    (snapshot : QuotaSnapshot) (w : World) (config : WakeupConfig) :
  Storage.loadWakeupConfig w = Returns (Some config) w ->
  enabled config = true ->
  ResetDetector.getAllValidAccounts env <> [] ->
  write_fault (disk w) = None ->
  exists (r : DetectionResult) (w' : World),
    ResetDetector.detectResetAndTrigger env snapshot w = Returns r w' /\
    token_loads (trace w') =
      (token_loads (trace w) ++
       if triggered r then ResetDetector.getAllValidAccounts env else [])%list.
Proof.
  intros Hcfg Hen Hacc Hw.
  destruct (detectResetAndTrigger_anatomy env snapshot w config Hcfg Hen Hacc Hw)
    as (w' & Hrun & _ & _ & _ & Hl & _).
  eexists _, w'. split; [exact Hrun |].
  rewrite Hl. cbn [triggered].
  destruct (List.filter _ (models snapshot)); reflexivity.
Qed.

Lemma detectResetAndTrigger_attempts_every_usable_account_witness :
  Storage.loadWakeupConfig Sample.w0 = Returns (Some Sample.config) Sample.w0 /\
  enabled Sample.config = true /\
  ResetDetector.getAllValidAccounts Sample.env <> [] /\
  write_fault (disk Sample.w0) = None /\
  exists (r : DetectionResult) (w' : World),
    ResetDetector.detectResetAndTrigger Sample.env Sample.snapshot Sample.w0 =
      Returns r w' /\
    token_loads (trace w') =
      (token_loads (trace Sample.w0) ++
       if triggered r then ResetDetector.getAllValidAccounts Sample.env else [])%list.
Proof.
  split; [reflexivity |]. split; [reflexivity |]. split; [discriminate |].
  split; [reflexivity |].
  apply (detectResetAndTrigger_attempts_every_usable_account Sample.env
           Sample.snapshot Sample.w0 Sample.config);
    [reflexivity | reflexivity | discriminate | reflexivity].
Defined.

(** ** Cycles that do nothing, that abort, and that follow one another *)

Lemma in_cooldown_iff (env : Env) (resetState : ResetState) (now : Z)
    (model : ModelQuotaInfo) :
  ResetDetector.in_cooldown env resetState now model = true <->
  exists (previous : ModelResetState) (lastTriggered : Z),
    resetState !! modelId model = Some previous /\
    dateParse env (lastTriggeredTime previous) = Some lastTriggered /\
    now - lastTriggered < 60 * 60 * 1000.
Proof.
  unfold ResetDetector.in_cooldown, DEFAULT_COOLDOWN_MS, js_get.
  destruct (resetState !! modelId model) as [previous|].
  2: { destruct (existsb _ _);
         (split; [discriminate | intros (p & l & H & _); discriminate]). }
  destruct (dateParse env (lastTriggeredTime previous)) as [last|] eqn:E.
  2: { split; [discriminate | intros (p & l & [= <-] & H & _); congruence]. }
  rewrite Z.ltb_lt. split.
  - intros H. exists previous, last. repeat split; [exact E | lia].
  - intros (p & l & [= <-] & H1 & H). assert (l = last) as -> by congruence. lia.
Qed.

(** The cycle ends at once without a configuration, with a disabled one,
    or without a usable account. *)
Lemma detectResetAndTrigger_inactive (env : Env) (snapshot : QuotaSnapshot)
    (w : World) :
  match config_of (disk w) with
  | Some config => enabled config = false \/ ResetDetector.getAllValidAccounts env = []
  | None => True
  end ->
  ResetDetector.detectResetAndTrigger env snapshot w =
    Returns {| triggered := false; triggeredModels := [] |} w.
Proof.
  intros Hidle. unfold ResetDetector.detectResetAndTrigger. cbv zeta.
  unfold bind at 1. rewrite loadWakeupConfig_reads.
  destruct (config_of (disk w)) as [config|]; [| reflexivity].
  destruct Hidle as [Hen | Hacc].
  - rewrite Hen. reflexivity.
  - destruct (negb (enabled config)); [reflexivity |]. rewrite Hacc. reflexivity.
Qed.

(** X7. Without a readable configuration, with a disabled one, or without
    any account of status valid or expired, [detectResetAndTrigger] returns
    [{triggered: false, triggeredModels: []}] and does nothing at all: no
    clock reading, no write, no call to the outside. *)
Theorem detectResetAndTrigger_idle (env : Env) (snapshot : QuotaSnapshot) (w : World) :
  (forall config : WakeupConfig,
     Storage.loadWakeupConfig w = Returns (Some config) w ->
     enabled config = false \/ ResetDetector.getAllValidAccounts env = []) ->
  ResetDetector.detectResetAndTrigger env snapshot w =
    Returns {| triggered := false; triggeredModels := [] |} w.
Proof.
  intros Hidle. apply detectResetAndTrigger_inactive.
  destruct (config_of (disk w)) as [config|] eqn:Hcfg; [| exact I].
  apply Hidle. rewrite loadWakeupConfig_reads, Hcfg. reflexivity.
Qed.

Lemma detectResetAndTrigger_idle_witness :
  (forall config : WakeupConfig,
     Storage.loadWakeupConfig (Sample.world Sample.corrupted_disk) =
       Returns (Some config) (Sample.world Sample.corrupted_disk) ->
     enabled config = false \/ ResetDetector.getAllValidAccounts Sample.env = []) /\
  ResetDetector.detectResetAndTrigger Sample.env Sample.snapshot
    (Sample.world Sample.corrupted_disk) =
    Returns {| triggered := false; triggeredModels := [] |}
      (Sample.world Sample.corrupted_disk).
Proof.
  assert (H : forall config : WakeupConfig,
            Storage.loadWakeupConfig (Sample.world Sample.corrupted_disk) =
              Returns (Some config) (Sample.world Sample.corrupted_disk) ->
            enabled config = false \/
            ResetDetector.getAllValidAccounts Sample.env = [])
    by (intros config Hc; discriminate Hc).
  split; [exact H |].
  apply (detectResetAndTrigger_idle Sample.env Sample.snapshot
           (Sample.world Sample.corrupted_disk) H).
Defined.



(** X9. A model triggered in one cycle, with an ID other than
    [__proto__], is not triggered again by a cycle that starts less than an
    hour after the first one started: the entry written for its ID by the
    first cycle puts it in cooldown, whatever the second snapshot says.
    (Under the ID [__proto__] the first cycle persists no entry.  The clock
    does not run backwards, and the time written is read back as the time
    it was: [toISOString] and the parsing of dates are inverse on the
    clock's readings.) *)
Theorem no_second_trigger_within_the_cooldown (env : Env)
    (first second : QuotaSnapshot) (w w1 w2 : World) (r1 r2 : DetectionResult) :
  write_fault (disk w) = None ->
  (forall n : nat, dateParse env (toISOString env (clock env n)) = Some (clock env n)) ->
  (forall i j : nat, (i <= j)%nat -> clock env i <= clock env j) ->
  ResetDetector.detectResetAndTrigger env first w = Returns r1 w1 ->
  clock env (ticks w1) - clock env (ticks w) < 60 * 60 * 1000 ->
  ResetDetector.detectResetAndTrigger env second w1 = Returns r2 w2 ->
  forall id : string,
    In id (triggeredModels r1) -> id <> "__proto__" ->
    ~ In id (triggeredModels r2).
Proof.
  intros Hw Hround Hmono Hrun1 Hnear Hrun2 id Hin1 Hproto Hin2.
  (* the first cycle *)
  assert (Hactive : exists config : WakeupConfig,
            config_of (disk w) = Some config /\ enabled config = true /\
            ResetDetector.getAllValidAccounts env <> []).
  { destruct (config_of (disk w)) as [config|] eqn:Hcfg.
    - destruct (enabled config) eqn:Hen.
      + destruct (ResetDetector.getAllValidAccounts env) eqn:Hacc.
        * rewrite (detectResetAndTrigger_inactive env first w) in Hrun1
            by (rewrite Hcfg; now right).
          injection Hrun1 as <- _. destruct Hin1.
        * exists config. split; [reflexivity |]. split; [exact Hen | discriminate].
      + rewrite (detectResetAndTrigger_inactive env first w) in Hrun1
          by (rewrite Hcfg; now left).
        injection Hrun1 as <- _. destruct Hin1.
    - rewrite (detectResetAndTrigger_inactive env first w) in Hrun1
        by (now rewrite Hcfg).
      injection Hrun1 as <- _. destruct Hin1. }
  destruct Hactive as (config & Hcfg & Hen & Hacc).
  assert (Hload : Storage.loadWakeupConfig w = Returns (Some config) w)
    by (rewrite loadWakeupConfig_reads, Hcfg; reflexivity).
  destruct (detectResetAndTrigger_anatomy env first w config Hload Hen Hacc Hw)
    as (w1' & Hrun1' & Hw1 & Hc1 & _ & _ & Hmarked & _).
  rewrite Hrun1' in Hrun1. injection Hrun1 as <- <-. cbn [triggeredModels] in Hin1.
  destruct (Hmarked id Hin1 Hproto) as (entry & tick & Hentry & Hstamp & Htick).
  (* the second cycle *)
  assert (Hload1 : Storage.loadWakeupConfig w1' = Returns (Some config) w1').
  { rewrite loadWakeupConfig_reads. unfold config_of in Hcfg |- *.
    rewrite Hc1, Hcfg. reflexivity. }
  destruct (detectResetAndTrigger_anatomy env second w1' config Hload1 Hen Hacc Hw1)
    as (w2' & Hrun2' & _).
  rewrite Hrun2' in Hrun2. injection Hrun2 as <- <-. cbn [triggeredModels] in Hin2.
  apply in_map_iff in Hin2 as (model & Hid & Hsel).
  apply List.filter_In in Hsel as [_ Hsel].
  unfold selected in Hsel. apply andb_true_iff in Hsel as [_ Hcool].
  apply negb_true_iff in Hcool.
  assert (Hyes : ResetDetector.in_cooldown env (reset_state_of (disk w1'))
                   (clock env (ticks w1')) model = true).
  { apply in_cooldown_iff. exists entry, (clock env tick).
    rewrite Hid, Hstamp. split; [exact Hentry |]. split; [apply Hround |].
    pose proof (Hmono _ _ Htick). lia. }
  congruence.
Qed.

Lemma no_second_trigger_within_the_cooldown_witness :
  write_fault (disk Sample.w0) = None /\
  (forall n : nat,
     dateParse Fixture.env_standing_still
       (toISOString Fixture.env_standing_still
          (clock Fixture.env_standing_still n)) =
     Some (clock Fixture.env_standing_still n)) /\
  (forall i j : nat,
     (i <= j)%nat ->
     clock Fixture.env_standing_still i <= clock Fixture.env_standing_still j) /\
  ResetDetector.detectResetAndTrigger Fixture.env_standing_still Sample.snapshot
    Sample.w0 =
    Returns {| triggered := true; triggeredModels := ["M1"] |}
      (world_of (ResetDetector.detectResetAndTrigger Fixture.env_standing_still
                   Sample.snapshot Sample.w0)) /\
  clock Fixture.env_standing_still
    (ticks (world_of (ResetDetector.detectResetAndTrigger Fixture.env_standing_still
                        Sample.snapshot Sample.w0))) -
  clock Fixture.env_standing_still (ticks Sample.w0) < 60 * 60 * 1000 /\
  ResetDetector.detectResetAndTrigger Fixture.env_standing_still Sample.snapshot
    (world_of (ResetDetector.detectResetAndTrigger Fixture.env_standing_still
                 Sample.snapshot Sample.w0)) =
    Returns {| triggered := false; triggeredModels := [] |}
      (world_of
         (ResetDetector.detectResetAndTrigger Fixture.env_standing_still
            Sample.snapshot
            (world_of (ResetDetector.detectResetAndTrigger
                         Fixture.env_standing_still Sample.snapshot Sample.w0)))) /\
  forall id : string, In id ["M1"] -> id <> "__proto__" -> ~ In id [].
Proof.
  assert (H1 : ResetDetector.detectResetAndTrigger Fixture.env_standing_still
                 Sample.snapshot Sample.w0 =
               Returns {| triggered := true; triggeredModels := ["M1"] |}
                 (world_of (ResetDetector.detectResetAndTrigger
                              Fixture.env_standing_still Sample.snapshot Sample.w0)))
    by (vm_compute; reflexivity).
  assert (H2 : ResetDetector.detectResetAndTrigger Fixture.env_standing_still
                 Sample.snapshot
                 (world_of (ResetDetector.detectResetAndTrigger
                              Fixture.env_standing_still Sample.snapshot Sample.w0)) =
               Returns {| triggered := false; triggeredModels := [] |}
                 (world_of
                    (ResetDetector.detectResetAndTrigger Fixture.env_standing_still
                       Sample.snapshot
                       (world_of (ResetDetector.detectResetAndTrigger
                                    Fixture.env_standing_still Sample.snapshot
                                    Sample.w0)))))
    by (vm_compute; reflexivity).
  split; [reflexivity |]. split; [intros n; reflexivity |].
  split; [intros i j _; apply Z.le_refl |]. split; [exact H1 |].
  split; [reflexivity |]. split; [exact H2 |].
  apply (no_second_trigger_within_the_cooldown Fixture.env_standing_still
           Sample.snapshot Sample.snapshot Sample.w0 _ _ _ _
           eq_refl (fun n => eq_refl) (fun i j _ => Z.le_refl _) H1 eq_refl H2).
Defined.

(** ** The documents, read back *)

Lemma take_prefix_of {A : Type} (n : nat) (l : list A) : take n l `prefix_of` l.
Proof. exists (drop n l). symmetry. apply take_drop. Qed.

(** X10. [addTriggerRecord] on a disk that takes writes, where the
    history document is missing, is not JSON, or holds a list of records of
    any length (also more than 100): the record is the first entry
    afterwards, what follows it is a prefix of the old history, the history
    has at most 100 entries, and [getLastTrigger] and [getRecentHistory(1)]
    then return that record.  (A document that is JSON but not a list, such
    as an object or a number, is not among the documents of the embedding:
    there [unshift] is not a function and the call throws.) *)
Theorem addTriggerRecord_then_read (record : TriggerRecord) (w : World) :
  write_fault (disk w) = None ->
  exists (w' : World) (kept : list TriggerRecord),
    Storage.addTriggerRecord record w = Returns tt w' /\
    history_of (disk w') = record :: kept /\
    kept `prefix_of` history_of (disk w) /\
    (length (history_of (disk w')) <= 100)%nat /\
    Storage.getLastTrigger w' = Returns (Some record) w' /\
    Storage.getRecentHistory 1 w' = Returns [record] w'.
Proof.
  intros Hw. rewrite (addTriggerRecord_returns record w Hw).
  eexists _, (take 99 (history_of (disk w))).
  split; [reflexivity |].
  rewrite disk_with_disk, history_of_store.
  split; [reflexivity |]. split; [apply take_prefix_of |].
  split; [rewrite length_take; apply Nat.le_min_l |].
  unfold Storage.getLastTrigger, Storage.getRecentHistory, bind.
  rewrite loadTriggerHistory_reads, disk_with_disk, history_of_store.
  split; reflexivity.
Qed.

Lemma addTriggerRecord_then_read_witness :
  write_fault (disk Sample.w0) = None /\
  exists (w' : World) (kept : list TriggerRecord),
    Storage.addTriggerRecord (Sample.record 7) Sample.w0 = Returns tt w' /\
    history_of (disk w') = Sample.record 7 :: kept /\
    kept `prefix_of` history_of (disk Sample.w0) /\
    (length (history_of (disk w')) <= 100)%nat /\
    Storage.getLastTrigger w' = Returns (Some (Sample.record 7)) w' /\
    Storage.getRecentHistory 1 w' = Returns [Sample.record 7] w'.
Proof.
  split; [reflexivity |].
  apply (addTriggerRecord_then_read (Sample.record 7) Sample.w0). reflexivity.
Defined.

(** X11. [getOrCreateConfig] on a disk that takes writes returns a
    configuration with at least one selected model; that configuration is
    what [loadWakeupConfig] reads afterwards; a second call returns the same
    configuration and changes nothing; and history, reset state and model
    mapping are not touched. *)
Theorem getOrCreateConfig_settles (w : World) :
  write_fault (disk w) = None ->
  exists (config : WakeupConfig) (w' : World),
    Storage.getOrCreateConfig w = Returns config w' /\
    selectedModels config <> [] /\
    Storage.loadWakeupConfig w' = Returns (Some config) w' /\
    Storage.getOrCreateConfig w' = Returns config w' /\
    besides_config (disk w') = besides_config (disk w).
Proof.
  intros Hw. unfold Storage.getOrCreateConfig at 1. unfold bind at 1.
  rewrite loadWakeupConfig_reads.
  assert (Hsaved : forall config : WakeupConfig,
            selectedModels config <> [] ->
            exists w' : World,
              (Storage.saveWakeupConfig config >> ret config) w = Returns config w' /\
              Storage.loadWakeupConfig w' = Returns (Some config) w' /\
              Storage.getOrCreateConfig w' = Returns config w' /\
              besides_config (disk w') = besides_config (disk w)).
  { intros config Hne.
    exists (with_disk (store CONFIG_FILE_NAME (Some config) (disk w)) w).
    split; [unfold bind, Storage.saveWakeupConfig, Storage.writeJsonFile;
            rewrite Hw; reflexivity |].
    split; [reflexivity |]. split; [| reflexivity].
    unfold Storage.getOrCreateConfig, bind. rewrite loadWakeupConfig_reads.
    cbn [disk with_disk config_of store config_json].
    destruct (selectedModels config); [contradiction | reflexivity]. }
  destruct (config_of (disk w)) as [existing|] eqn:Hcfg.
  - destruct (selectedModels existing) as [|m ms] eqn:Hsel.
    + cbn [length Nat.eqb]. cbv zeta.
      match goal with |- context [Storage.saveWakeupConfig ?c] =>
        destruct (Hsaved c ltac:(discriminate)) as (w' & H1 & H2 & H3 & H4)
      end.
      eexists _, w'. split; [exact H1 |]. split; [discriminate |]. now repeat split.
    + cbn [length Nat.eqb]. exists existing, w.
      split; [reflexivity |]. split; [rewrite Hsel; discriminate |].
      split; [rewrite loadWakeupConfig_reads, Hcfg; reflexivity |].
      split; [| reflexivity].
      unfold Storage.getOrCreateConfig, bind.
      rewrite loadWakeupConfig_reads, Hcfg, Hsel. reflexivity.
  - destruct (Hsaved getDefaultConfig ltac:(discriminate)) as (w' & H1 & H2 & H3 & H4).
    exists getDefaultConfig, w'. split; [exact H1 |]. split; [discriminate |].
    now repeat split.
Qed.

Lemma getOrCreateConfig_settles_witness :
  write_fault (disk (Sample.world Fixture.fresh_disk)) = None /\
  exists (config : WakeupConfig) (w' : World),
    Storage.getOrCreateConfig (Sample.world Fixture.fresh_disk) = Returns config w' /\
    selectedModels config <> [] /\
    Storage.loadWakeupConfig w' = Returns (Some config) w' /\
    Storage.getOrCreateConfig w' = Returns config w' /\
    besides_config (disk w') = besides_config (disk (Sample.world Fixture.fresh_disk)).
Proof.
  split; [reflexivity |].
  apply (getOrCreateConfig_settles (Sample.world Fixture.fresh_disk)). reflexivity.
Defined.



Lemma inherited_In (key : string) :
  existsb (String.eqb key) Object_prototype = true <-> In key Object_prototype.
Proof.
  rewrite existsb_exists. split.
  - intros (name & Hin & Heq). apply String.eqb_eq in Heq. now subst.
  - intros Hin. exists key. split; [exact Hin | apply String.eqb_refl].
Qed.

Lemma js_get_inherited {V : Type} (obj : gmap string V) (key : string) :
  obj !! key = None -> In key Object_prototype ->
  js_get obj key = Some (Inherited key).
Proof.
  intros E Hin. unfold js_get. rewrite E.
  apply inherited_In in Hin. now rewrite Hin.
Qed.

Lemma js_get_undefined {V : Type} (obj : gmap string V) (key : string) :
  obj !! key = None -> ~ In key Object_prototype -> js_get obj key = None.
Proof.
  intros E Hin. unfold js_get. rewrite E.
  destruct (existsb _ _) eqn:Ex; [| reflexivity].
  apply inherited_In in Ex. contradiction.
Qed.

(** X13. [updateModelMapping] merges: afterwards a model ID has the
    constant the update gives it when it gives one, and the constant it had
    before otherwise.  [getModelConstant] returns that constant and
    [getResetKey] too, except that an empty constant gives the model ID
    itself.  For a model ID without a constant, [getModelConstant] returns
    [undefined] and [getResetKey] the model ID, unless the ID is one of the
    names every object inherits from [Object.prototype]: then both return
    the inherited member, which is not a string. *)
Theorem updateModelMapping_merges (newMappings : ModelMapping) (w : World) :
  write_fault (disk w) = None ->
  exists w' : World,
    Storage.updateModelMapping newMappings w = Returns tt w' /\
    forall modelId : string,
      match
        match newMappings !! modelId with
        | Some constant => Some constant
        | None => mapping_of (disk w) !! modelId
        end
      with
      | Some constant =>
          Storage.getModelConstant modelId w' = Returns (Some (Entry constant)) w' /\
          Storage.getResetKey modelId w' =
            Returns (Entry (if String.eqb constant "" then modelId else constant)) w'
      | None =>
          (~ In modelId Object_prototype ->
           Storage.getModelConstant modelId w' = Returns None w' /\
           Storage.getResetKey modelId w' = Returns (Entry modelId) w') /\
          (In modelId Object_prototype ->
           Storage.getModelConstant modelId w' =
             Returns (Some (Inherited modelId)) w' /\
           Storage.getResetKey modelId w' = Returns (Inherited modelId) w')
      end.
Proof.
  intros Hw.
  exists (with_disk (store MODEL_MAPPING_FILE_NAME
                       (newMappings ∪ mapping_of (disk w)) (disk w)) w).
  split.
  { unfold Storage.updateModelMapping, bind. rewrite loadModelMapping_reads.
    unfold Storage.saveModelMapping, Storage.writeJsonFile. now rewrite Hw. }
  intros modelId.
  set (w' := with_disk _ w).
  assert (Hget : Storage.getModelConstant modelId w' =
                 Returns (js_get (newMappings ∪ mapping_of (disk w)) modelId) w').
  { unfold Storage.getModelConstant, bind. rewrite loadModelMapping_reads.
    reflexivity. }
  assert (Hmerged : (newMappings ∪ mapping_of (disk w)) !! modelId =
                    match newMappings !! modelId with
                    | Some constant => Some constant
                    | None => mapping_of (disk w) !! modelId
                    end).
  { rewrite lookup_union. destruct (newMappings !! modelId); [| apply left_id, _].
    apply union_Some_l. }
  unfold Storage.getResetKey, bind. rewrite Hget. unfold ret.
  destruct (match newMappings !! modelId with
            | Some constant => Some constant
            | None => mapping_of (disk w) !! modelId
            end) as [constant|].
  - rewrite (js_get_entry _ _ _ Hmerged). split; [reflexivity |].
    simpl. destruct (String.eqb constant ""); reflexivity.
  - split; intros Hin.
    + rewrite (js_get_undefined _ _ Hmerged Hin). split; reflexivity.
    + rewrite (js_get_inherited _ _ Hmerged Hin). split; reflexivity.
Qed.

Lemma updateModelMapping_merges_witness :
  write_fault (disk (Sample.world Sample.mapped_disk)) = None /\
  exists w' : World,
    Storage.updateModelMapping {[ "gemini-3-flash" := "GEMINI_FLASH_CONSTANT" ]}
      (Sample.world Sample.mapped_disk) = Returns tt w' /\
    Storage.getModelConstant "gemini-3-flash" w' =
      Returns (Some (Entry "GEMINI_FLASH_CONSTANT")) w' /\
    Storage.getResetKey "gemini-3-flash" w' =
      Returns (Entry "GEMINI_FLASH_CONSTANT") w' /\
    Storage.getModelConstant "claude-sonnet-4-5" w' = Returns None w' /\
    Storage.getResetKey "claude-sonnet-4-5" w' =
      Returns (Entry "claude-sonnet-4-5") w' /\
    Storage.getModelConstant "constructor" w' =
      Returns (Some (Inherited "constructor")) w' /\
    Storage.getResetKey "constructor" w' = Returns (Inherited "constructor") w'.
Proof.
  split; [reflexivity |].
  destruct (updateModelMapping_merges
              {[ "gemini-3-flash" := "GEMINI_FLASH_CONSTANT" ]}
              (Sample.world Sample.mapped_disk) eq_refl) as (w' & Hrun & Hall).
  exists w'. split; [exact Hrun |].
  pose proof (Hall "gemini-3-flash") as H1.
  pose proof (Hall "claude-sonnet-4-5") as H2.
  pose proof (Hall "constructor") as H3.
  vm_compute in H1. destruct H1 as [H1 H1'].
  assert (Hno : forall key : string,
            ({[ "gemini-3-flash" := "GEMINI_FLASH_CONSTANT" ]} : ModelMapping) !! key = None ->
            mapping_of (disk (Sample.world Sample.mapped_disk)) !! key = None ->
            match
              match ({[ "gemini-3-flash" := "GEMINI_FLASH_CONSTANT" ]} : ModelMapping) !! key with
              | Some constant => Some constant
              | None => mapping_of (disk (Sample.world Sample.mapped_disk)) !! key
              end
            with Some _ => False | None => True end).
  { intros key -> ->. exact I. }
  split; [exact H1 |]. split; [exact H1' |].
  assert (E2 : match ({[ "gemini-3-flash" := "GEMINI_FLASH_CONSTANT" ]} : ModelMapping)
                       !! "claude-sonnet-4-5" with
               | Some constant => Some constant
               | None => mapping_of (disk (Sample.world Sample.mapped_disk))
                           !! "claude-sonnet-4-5"
               end = None) by (vm_compute; reflexivity).
  assert (E3 : match ({[ "gemini-3-flash" := "GEMINI_FLASH_CONSTANT" ]} : ModelMapping)
                       !! "constructor" with
               | Some constant => Some constant
               | None => mapping_of (disk (Sample.world Sample.mapped_disk))
                           !! "constructor"
               end = None) by (vm_compute; reflexivity).
  rewrite E2 in H2. rewrite E3 in H3.
  destruct H2 as [H2 _]. destruct H3 as [_ H3].
  destruct H2 as [H2 H2'].
  { intros Hin. apply inherited_In in Hin. vm_compute in Hin. discriminate. }
  destruct H3 as [H3 H3'].
  { apply inherited_In. vm_compute. reflexivity. }
  repeat split; assumption.
Defined.

(** ** The orchestrator and the display predicates *)

Lemma scan_nothing (env : Env) (resetState : ResetState) (now : Z)
    (snapshot_models : list ModelQuotaInfo) (batch : list string) (w : World) :
  List.filter (selected env resetState now) snapshot_models = [] ->
  ResetDetector.scan env resetState now snapshot_models batch w = Returns batch w.
Proof.
  induction snapshot_models as [|model rest IH]; intros Hnil; [reflexivity |].
  rewrite scan_cons. cbn [List.filter] in Hnil.
  destruct (selected env resetState now model) eqn:Hsel; [discriminate |].
  unfold selected in Hsel.
  destruct (isModelUnused model);
    [destruct (ResetDetector.in_cooldown env resetState now model) |];
    try discriminate; cbn [negb]; apply IH, Hnil.
Qed.

Lemma hasUnusedModels_false (snapshot : QuotaSnapshot) :
  hasUnusedModels snapshot = false <-> findUnusedModels snapshot = [].
Proof.
  unfold hasUnusedModels, findUnusedModels.
  induction (models snapshot) as [|model rest IH]; [easy |].
  cbn [existsb List.filter]. destruct (isModelUnused model); cbn [orb]; [easy |].
  exact IH.
Qed.

Lemma selected_among_unused (env : Env) (resetState : ResetState) (now : Z)
    (l : list ModelQuotaInfo) :
  List.filter isModelUnused l = [] ->
  List.filter (selected env resetState now) l = [].
Proof.
  induction l as [|model rest IH]; [reflexivity |].
  cbn [List.filter]. unfold selected at 1.
  destruct (isModelUnused model); [discriminate |]. exact IH.
Qed.

(** X14. When [hasUnusedModels] says no for a snapshot,
    [detectResetAndTrigger] on that snapshot returns
    [{triggered: false, triggeredModels: []}] and neither writes a document
    nor calls the outside, on any disk (also one that refuses writes) and
    whatever the reset state holds. *)
Theorem no_unused_model_no_trigger (env : Env) (snapshot : QuotaSnapshot) (w : World) :
  hasUnusedModels snapshot = false ->
  exists w' : World,
    ResetDetector.detectResetAndTrigger env snapshot w =
      Returns {| triggered := false; triggeredModels := [] |} w' /\
    disk w' = disk w /\ trace w' = trace w /\ credentials w' = credentials w.
Proof.
  intros Hnone. apply hasUnusedModels_false in Hnone. unfold findUnusedModels in Hnone.
  unfold ResetDetector.detectResetAndTrigger. cbv zeta.
  unfold bind at 1. rewrite loadWakeupConfig_reads.
  destruct (config_of (disk w)) as [config|]; [| now exists w].
  destruct (negb (enabled config)); [now exists w |].
  destruct (length (ResetDetector.getAllValidAccounts env) =? 0)%nat; [now exists w |].
  unfold bind at 1. rewrite loadResetState_reads.
  unfold bind at 1, Date_now at 1. unfold bind at 1.
  rewrite scan_nothing by (apply selected_among_unused, Hnone).
  cbn [length Nat.eqb]. eexists. split; [reflexivity |]. now repeat split.
Qed.

Lemma no_unused_model_no_trigger_witness :
  hasUnusedModels Fixture.used_snapshot = false /\
  exists w' : World,
    ResetDetector.detectResetAndTrigger Sample.env Fixture.used_snapshot Sample.w0 =
      Returns {| triggered := false; triggeredModels := [] |} w' /\
    disk w' = disk Sample.w0 /\ trace w' = trace Sample.w0 /\
    credentials w' = credentials Sample.w0.
Proof.
  split; [reflexivity |].
  apply (no_unused_model_no_trigger Sample.env Fixture.used_snapshot Sample.w0).
  reflexivity.
Defined.

(** X15. After [clearResetState] the reset state has no entry:
    [getModelResetState] returns [null] for every key, except that under
    one of the names every object inherits from [Object.prototype] it
    returns the inherited member.  No model is in cooldown, whatever its
    ID: the next detection cycle (enabled configuration, a usable account)
    reports exactly the models [findUnusedModels] lists for the snapshot,
    in snapshot order. *)
Theorem detection_after_clearResetState (env : Env) (snapshot : QuotaSnapshot)
    (w : World) (config : WakeupConfig) :
  Storage.loadWakeupConfig w = Returns (Some config) w ->
  enabled config = true ->
  ResetDetector.getAllValidAccounts env <> [] ->
  write_fault (disk w) = None ->
  exists (w1 w2 : World) (r : DetectionResult),
    Storage.clearResetState w = Returns tt w1 /\
    reset_state_json (disk w1) = Stored ∅ /\
    (forall modelKey : string,
       ~ In modelKey Object_prototype ->
       Storage.getModelResetState modelKey w1 = Returns None w1) /\
    (forall modelKey : string,
       In modelKey Object_prototype ->
       Storage.getModelResetState modelKey w1 =
         Returns (Some (Inherited modelKey)) w1) /\
    ResetDetector.detectResetAndTrigger env snapshot w1 = Returns r w2 /\
    triggeredModels r = map modelId (findUnusedModels snapshot).
Proof.
  intros Hcfg Hen Hacc Hw.
  set (w1 := with_disk (store RESET_STATE_FILE_NAME ∅ (disk w)) w).
  assert (Hclear : Storage.clearResetState w = Returns tt w1).
  { unfold Storage.clearResetState, Storage.saveResetState, Storage.writeJsonFile.
    now rewrite Hw. }
  assert (Hcfg1 : Storage.loadWakeupConfig w1 = Returns (Some config) w1).
  { rewrite loadWakeupConfig_reads in Hcfg |- *. injection Hcfg as Hcfg.
    unfold w1. rewrite disk_with_disk.
    change (config_of (store RESET_STATE_FILE_NAME ∅ (disk w)))
      with (config_of (disk w)).
    now rewrite Hcfg. }
  destruct (detectResetAndTrigger_anatomy env snapshot w1 config Hcfg1 Hen Hacc Hw)
    as (w2 & Hrun & _).
  eexists w1, w2, _. split; [exact Hclear |]. split; [reflexivity |].
  split; [| split; [| split; [exact Hrun |]]].
  - intros modelKey Hin. unfold Storage.getModelResetState, bind.
    rewrite loadResetState_reads. unfold ret. f_equal.
    apply js_get_undefined; [apply lookup_empty | exact Hin].
  - intros modelKey Hin. unfold Storage.getModelResetState, bind.
    rewrite loadResetState_reads. unfold ret. f_equal.
    apply js_get_inherited; [apply lookup_empty | exact Hin].
  - cbn [triggeredModels]. unfold findUnusedModels. f_equal.
    apply filter_ext. intros model. unfold selected, ResetDetector.in_cooldown.
    unfold w1. rewrite disk_with_disk, reset_state_of_store.
    unfold js_get. rewrite lookup_empty.
    destruct (existsb _ _); apply andb_true_r.
Qed.

Lemma detection_after_clearResetState_witness :
  Storage.loadWakeupConfig (Sample.world Sample.cooling_disk) =
    Returns (Some Sample.config) (Sample.world Sample.cooling_disk) /\
  enabled Sample.config = true /\
  ResetDetector.getAllValidAccounts Sample.env <> [] /\
  write_fault (disk (Sample.world Sample.cooling_disk)) = None /\
  exists (w1 w2 : World) (r : DetectionResult),
    Storage.clearResetState (Sample.world Sample.cooling_disk) = Returns tt w1 /\
    reset_state_json (disk w1) = Stored ∅ /\
    Storage.getModelResetState "GEMINI_FLASH_CONSTANT" w1 = Returns None w1 /\
    Storage.getModelResetState "constructor" w1 =
      Returns (Some (Inherited "constructor")) w1 /\
    ResetDetector.detectResetAndTrigger Sample.env Sample.flash_snapshot w1 =
      Returns r w2 /\
    triggeredModels r = map modelId (findUnusedModels Sample.flash_snapshot).
Proof.
  split; [reflexivity |]. split; [reflexivity |]. split; [discriminate |].
  split; [reflexivity |].
  destruct (detection_after_clearResetState Sample.env Sample.flash_snapshot
              (Sample.world Sample.cooling_disk) Sample.config
              eq_refl eq_refl ltac:(discriminate) eq_refl)
    as (w1 & w2 & r & Hclear & Hempty & Hnull & Hinherited & Hrun & Hmodels).
  exists w1, w2, r. split; [exact Hclear |]. split; [exact Hempty |].
  split; [| split; [| split; [exact Hrun | exact Hmodels]]].
  - apply Hnull. intros Hin. apply inherited_In in Hin. vm_compute in Hin.
    discriminate.
  - apply Hinherited. apply inherited_In. vm_compute. reflexivity.
Defined.

(** ** The account resolver without a selection *)

Lemma find_usable (manager : AccountManager) (emails : list string) :
  match List.find (fun email => AccountResolver.usable (getAccountStatus manager email))
          emails with
  | Some email =>
      In email emails /\
      AccountResolver.usable (getAccountStatus manager email) = true
  | None =>
      Forall (fun email => AccountResolver.usable (getAccountStatus manager email) = false)
        emails
  end.
Proof.
  induction emails as [|email rest IH]; [constructor |].
  cbn [List.find].
  destruct (AccountResolver.usable (getAccountStatus manager email)) eqn:E.
  - split; [now left | exact E].
  - destruct (List.find _ rest).
    + destruct IH as [Hin Hu]. split; [now right | exact Hu].
    + constructor; assumption.
Qed.

Lemma resolveAccounts_shape (manager : AccountManager) :
  (length (AccountResolver.resolveAccounts manager None) <= 1)%nat /\
  (forall email : string,
     In email (AccountResolver.resolveAccounts manager None) ->
     AccountResolver.usable (getAccountStatus manager email) = true).
Proof.
  unfold AccountResolver.resolveAccounts. cbv zeta.
  pose proof (find_usable manager (getAccountEmails manager)) as Hfind.
  split.
  - destruct (truthy (getActiveEmail manager)) as [active|];
      [destruct (AccountResolver.usable (getAccountStatus manager active)) |];
      try (simpl; lia); destruct (List.find _ _); simpl; lia.
  - intros email Hin.
    destruct (truthy (getActiveEmail manager)) as [active|];
      [destruct (AccountResolver.usable (getAccountStatus manager active)) eqn:E |].
    + destruct Hin as [<- | []]. exact E.
    + destruct (List.find _ _); [| destruct Hin].
      destruct Hin as [<- | []]. apply Hfind.
    + destruct (List.find _ _); [| destruct Hin].
      destruct Hin as [<- | []]. apply Hfind.
Qed.

(** X16. Without a selection [resolveAccounts] returns at most one
    account, and only one whose status is valid or expired: the active
    account when it has such a status, else the first account of the
    directory that has one; it returns nothing exactly when neither the
    active account nor any account of the directory has such a status. *)
Theorem resolveAccounts_fallback (manager : AccountManager) :
  (length (AccountResolver.resolveAccounts manager None) <= 1)%nat /\
  (forall email : string,
     In email (AccountResolver.resolveAccounts manager None) ->
     AccountResolver.usable (getAccountStatus manager email) = true) /\
  (forall active : string,
     truthy (getActiveEmail manager) = Some active ->
     AccountResolver.usable (getAccountStatus manager active) = true ->
     AccountResolver.resolveAccounts manager None = [active]) /\
  ((forall active : string,
      truthy (getActiveEmail manager) = Some active ->
      AccountResolver.usable (getAccountStatus manager active) = false) ->
   forall (before after : list string) (email : string),
     getAccountEmails manager = (before ++ email :: after)%list ->
     Forall (fun e => AccountResolver.usable (getAccountStatus manager e) = false) before ->
     AccountResolver.usable (getAccountStatus manager email) = true ->
     AccountResolver.resolveAccounts manager None = [email]) /\
  (AccountResolver.resolveAccounts manager None = [] <->
   (forall active : string,
      truthy (getActiveEmail manager) = Some active ->
      AccountResolver.usable (getAccountStatus manager active) = false) /\
   Forall (fun email => AccountResolver.usable (getAccountStatus manager email) = false)
     (getAccountEmails manager)).
Proof.
  pose proof (find_usable manager (getAccountEmails manager)) as Hfind.
  split; [apply resolveAccounts_shape |]. split; [apply resolveAccounts_shape |].
  all: unfold AccountResolver.resolveAccounts; cbv zeta.
  split; [| split].
  - intros active -> ->. reflexivity.
  - intros Hactive before after email Hdir Hbefore Husable.
    assert (Hfound : List.find
                       (fun e => AccountResolver.usable (getAccountStatus manager e))
                       (getAccountEmails manager) = Some email).
    { rewrite Hdir. clear Hdir Hfind. induction Hbefore as [|e before He _ IH].
      - cbn [app List.find]. now rewrite Husable.
      - cbn [app List.find]. now rewrite He. }
    rewrite Hfound.
    destruct (truthy (getActiveEmail manager)) as [active|]; [| reflexivity].
    now rewrite (Hactive active eq_refl).
  - split.
    + intros Hnil. split.
      * intros active Hact. rewrite Hact in Hnil.
        destruct (AccountResolver.usable (getAccountStatus manager active));
          [discriminate | reflexivity].
      * destruct (List.find _ _); [| exact Hfind].
        destruct (truthy (getActiveEmail manager)) as [active|];
          [destruct (AccountResolver.usable (getAccountStatus manager active)) |];
          discriminate.
    + intros [Hactive Hall].
      assert (Hfound : List.find
                         (fun e => AccountResolver.usable (getAccountStatus manager e))
                         (getAccountEmails manager) = None).
      { clear Hfind. induction Hall as [|e l He _ IH]; [reflexivity |].
        cbn [List.find]. now rewrite He. }
      rewrite Hfound.
      destruct (truthy (getActiveEmail manager)) as [active|]; [| reflexivity].
      now rewrite (Hactive active eq_refl).
Qed.

(** X17. The description of the resolution agrees with [hasValidAccounts]:
    it is one of the two failure messages exactly when [hasValidAccounts]
    is false; the message about the selection is given exactly for a
    non-empty selection that resolves to nothing; and without a selection
    the description is a failure message or names a single account. *)
Theorem getAccountResolutionStatus_agrees (manager : AccountManager)
    (selectedAccounts : option (list string)) :
  (AccountResolver.hasValidAccounts manager selectedAccounts = false <->
   AccountResolution.getAccountResolutionStatus manager selectedAccounts =
     "Selected accounts are invalid or not found" \/
   AccountResolution.getAccountResolutionStatus manager selectedAccounts =
     "No valid accounts available") /\
  (AccountResolution.getAccountResolutionStatus manager selectedAccounts =
     "Selected accounts are invalid or not found" <->
   exists selection : list string,
     selectedAccounts = Some selection /\ selection <> [] /\
     Forall (fun email => eligible manager email = false) selection) /\
  (AccountResolution.getAccountResolutionStatus manager None =
     "No valid accounts available" \/
   exists email : string,
     AccountResolution.getAccountResolutionStatus manager None =
       "Using account: " ++ email /\
     AccountResolver.usable (getAccountStatus manager email) = true).
Proof.
  assert (Hfilter : forall selection : list string,
            AccountResolver.resolveAccounts manager (Some selection) =
            List.filter (eligible manager) selection).
  { intros selection. unfold AccountResolver.resolveAccounts. apply filter_ext.
    intros email. unfold eligible.
    destruct (hasAccount manager email), (getAccountStatus manager email);
      reflexivity. }
  assert (Hnone : forall selection : list string,
            List.filter (eligible manager) selection = [] <->
            Forall (fun email => eligible manager email = false) selection).
  { induction selection as [|email rest IH]; [split; [constructor | reflexivity] |].
    cbn [List.filter]. destruct (eligible manager email) eqn:E.
    - split; [discriminate | intros H; inversion H; congruence].
    - rewrite IH. split; [now constructor | intros H; now inversion H]. }
  unfold AccountResolver.hasValidAccounts, AccountResolution.getAccountResolutionStatus.
  cbv zeta.
  split; [| split].
  - destruct (AccountResolver.resolveAccounts manager selectedAccounts)
      as [|a [|b l]]; cbn [length Nat.ltb Nat.leb].
    + split; [intros _ | reflexivity].
      destruct selectedAccounts as [[|]|]; auto.
    + split; [discriminate | intros [H | H]; discriminate H].
    + split; [discriminate | intros [H | H]; discriminate H].
  - destruct selectedAccounts as [selection|].
    + rewrite Hfilter.
      destruct (List.filter (eligible manager) selection) as [|a [|b l]] eqn:E.
      * destruct selection as [|s selection].
        -- split; [discriminate | intros (sel & [= <-] & Hne & _); contradiction].
        -- split; [intros _ | reflexivity].
           exists (s :: selection). split; [reflexivity |].
           split; [discriminate | now apply Hnone].
      * split; [discriminate |]. intros (sel & [= <-] & _ & Hall).
        apply Hnone in Hall. congruence.
      * split; [discriminate |]. intros (sel & [= <-] & _ & Hall).
        apply Hnone in Hall. congruence.
    + split; [| intros (sel & H & _); discriminate H].
      destruct (AccountResolver.resolveAccounts manager None) as [|a [|b l]];
        discriminate.
  - destruct (resolveAccounts_shape manager) as [Hlen Husable].
    destruct (AccountResolver.resolveAccounts manager None) as [|a [|b l]].
    + now left.
    + right. exists a. split; [reflexivity | apply Husable; now left].
    + simpl in Hlen. lia.
Qed.

(** ** The API client's project resolution, in general *)

Lemma loadCodeAssist_project (env : Env) (c : CloudCode.Client) (w w' : World)
    (r : LoadCodeAssistResponse * CloudCode.Client) :
  CloudCode.loadCodeAssist env c w = Returns r w' ->
  exists n : nat,
    loadCodeAssistReply env (CloudCode.client_account c) n = inr r.1 /\
    (r.2 = c \/
     exists p : string,
       r.2 = CloudCode.set_projectId p c /\ truthy (Some p) = Some p).
Proof.
  unfold CloudCode.loadCodeAssist, bind, emit.
  destruct (loadCodeAssistReply env (CloudCode.client_account c) (length (trace w)))
    as [e|response] eqn:Hreply; [discriminate |].
  intros [= <- <-]. exists (length (trace w)). split; [exact Hreply |].
  cbn [snd]. destruct (cloudaicompanionProject response) as [[s|i]|]; [| | now left].
  - destruct (String.eqb s "") eqn:E; [now left |].
    right. exists s. split; [reflexivity |]. simpl. now rewrite E.
  - destruct (truthy i) as [p|] eqn:E; [| now left].
    right. exists p. split; [reflexivity |]. exact (truthy_Some _ _ E).
Qed.

Lemma loadCodeAssist_thrown (env : Env) (c : CloudCode.Client) (w w' : World)
    (e : js_error) :
  CloudCode.loadCodeAssist env c w = Throws e w' ->
  exists n : nat, loadCodeAssistReply env (CloudCode.client_account c) n = inl e.
Proof.
  unfold CloudCode.loadCodeAssist, bind, emit.
  destruct (loadCodeAssistReply env (CloudCode.client_account c) (length (trace w)))
    as [e'|response] eqn:Hreply; [| discriminate].
  intros [= <- _]. exists (length (trace w)). exact Hreply.
Qed.

Lemma retry_loop_result (env : Env) (delay : Z) (remaining : nat) :
  forall (c : CloudCode.Client) (w w' : World) (r : option string * CloudCode.Client),
    truthy (CloudCode.client_projectId c) = None ->
    CloudCode.retry_loop env delay c remaining w = Returns r w' ->
    r.1 = truthy (CloudCode.client_projectId r.2).
Proof.
  induction remaining as [|k IH]; intros c w w' r Hnone.
  - intros [= <- _]. cbn [fst snd]. now rewrite Hnone.
  - cbn [CloudCode.retry_loop]. unfold bind at 1, emit at 1. unfold bind at 1.
    destruct (CloudCode.loadCodeAssist env c _) as [r1 w1|e w1] eqn:Hload;
      [| discriminate].
    destruct (truthy (CloudCode.client_projectId r1.2)) as [p|] eqn:Hp.
    + intros [= <- _]. cbn [fst snd]. now rewrite Hp.
    + intros Hrun. exact (IH _ _ _ _ Hp Hrun).
Qed.

(** X18. What [resolveProjectId] of the API client returns is what the
    client holds afterwards: the project ID returned is the (non-empty)
    [projectId] field of the client, and nothing is returned only when that
    field is still empty.  The client stays the client of its account. *)
Theorem resolveProjectId_returns_the_clients_project (env : Env) (maxRetries : nat)
    (retryDelayMs : Z) (c : CloudCode.Client) (w w' : World)
    (r : option string * CloudCode.Client) :
  CloudCode.resolveProjectId env maxRetries retryDelayMs c w = Returns r w' ->
  r.1 = truthy (CloudCode.client_projectId r.2) /\
  CloudCode.client_account r.2 = CloudCode.client_account c.
Proof.
  intros Hrun. split; [| exact (resolveProjectId_account _ _ _ _ _ _ _ Hrun)].
  revert Hrun. unfold CloudCode.resolveProjectId.
  destruct (truthy (CloudCode.client_projectId c)) as [p|] eqn:Hc;
    [intros [= <- _]; cbn [fst snd]; now rewrite Hc |].
  unfold bind at 1.
  destruct (CloudCode.loadCodeAssist env c w) as [r1 w1|e w1]; [| discriminate].
  destruct (truthy (CloudCode.client_projectId r1.2)) as [p|] eqn:Hp;
    [intros [= <- _]; cbn [fst snd]; now rewrite Hp |].
  destruct (truthy (CloudCode.pick_tier r1.1)); [| intros [= <- _]; cbn [fst snd]; now rewrite Hp].
  unfold bind at 1.
  destruct (try_catch _ _ w1) as [u w2|e w2]; [| discriminate].
  apply retry_loop_result, Hp.
Qed.

Lemma resolveProjectId_returns_the_clients_project_witness :
  CloudCode.resolveProjectId Fixture.env_project_after_onboarding 5 2000
    {| CloudCode.client_account := "a@x.com"; CloudCode.client_projectId := None |}
    Sample.w0 =
    Returns
      (Some "projects/p1",
       {| CloudCode.client_account := "a@x.com";
          CloudCode.client_projectId := Some "projects/p1" |})
      (world_of
         (CloudCode.resolveProjectId Fixture.env_project_after_onboarding 5 2000
            {| CloudCode.client_account := "a@x.com";
               CloudCode.client_projectId := None |} Sample.w0)) /\
  (Some "projects/p1", {| CloudCode.client_account := "a@x.com";
         CloudCode.client_projectId := Some "projects/p1" |}).1 =
    truthy (CloudCode.client_projectId
              (Some "projects/p1",
               {| CloudCode.client_account := "a@x.com";
                  CloudCode.client_projectId := Some "projects/p1" |}).2) /\
  CloudCode.client_account
    (Some "projects/p1",
     {| CloudCode.client_account := "a@x.com";
        CloudCode.client_projectId := Some "projects/p1" |}).2 =
    CloudCode.client_account
      {| CloudCode.client_account := "a@x.com"; CloudCode.client_projectId := None |}.
Proof.
  assert (H : CloudCode.resolveProjectId Fixture.env_project_after_onboarding 5 2000
                {| CloudCode.client_account := "a@x.com";
                   CloudCode.client_projectId := None |} Sample.w0 =
              Returns
                (Some "projects/p1",
                 {| CloudCode.client_account := "a@x.com";
                    CloudCode.client_projectId := Some "projects/p1" |})
                (world_of
                   (CloudCode.resolveProjectId Fixture.env_project_after_onboarding
                      5 2000
                      {| CloudCode.client_account := "a@x.com";
                         CloudCode.client_projectId := None |} Sample.w0)))
    by (vm_compute; reflexivity).
  split; [exact H |].
  apply (resolveProjectId_returns_the_clients_project
           Fixture.env_project_after_onboarding 5 2000 _ Sample.w0 _ _ H).
Defined.

(** A load by a client without a project ID: the client has afterwards
    the project ID the reply brought. *)
Lemma loadCodeAssist_brings (env : Env) (c : CloudCode.Client) (w : World)
    (response : LoadCodeAssistResponse) :
  truthy (CloudCode.client_projectId c) = None ->
  loadCodeAssistReply env (CloudCode.client_account c) (length (trace w)) =
    inr response ->
  exists c' : CloudCode.Client,
    CloudCode.loadCodeAssist env c w =
      Returns (response, c')
        (with_trace (trace w ++ [LoadCodeAssist (CloudCode.client_account c)])%list w) /\
    CloudCode.client_account c' = CloudCode.client_account c /\
    truthy (CloudCode.client_projectId c') = brought_project response.
Proof.
  intros Hnone Hreply.
  unfold CloudCode.loadCodeAssist, bind, emit. rewrite Hreply.
  eexists. split; [reflexivity |]. unfold brought_project.
  destruct (cloudaicompanionProject response) as [[s|[i|]]|]; simpl.
  - destruct (String.eqb s "") eqn:E; simpl; [now split | now rewrite E].
  - destruct (String.eqb i "") eqn:E; simpl; [now split | now rewrite E].
  - now split.
  - now split.
Qed.

(** The retry loop of a client without a project ID: it reloads until a
    reload throws or brings a project ID, [remaining] times at most. *)
Lemma retry_loop_calls (env : Env) (delay : Z) (remaining : nat) :
  forall (c : CloudCode.Client) (w : World),
    truthy (CloudCode.client_projectId c) = None ->
    exists n : nat,
      (n <= remaining)%nat /\
      trace (world_of (CloudCode.retry_loop env delay c remaining w)) =
        (trace w ++ reloads_every delay (CloudCode.client_account c) n)%list /\
      (forall k : nat,
         (1 <= k < n)%nat ->
         ends_the_reloads env (CloudCode.client_account c)
           (length (trace w) + 2 * k - 1) = false) /\
      ((n < remaining)%nat ->
       (1 <= n)%nat /\
       ends_the_reloads env (CloudCode.client_account c)
         (length (trace w) + 2 * n - 1) = true).
Proof.
  induction remaining as [|r IH]; intros c w Hnone.
  - exists 0%nat. split; [lia |]. split; [simpl; now rewrite app_nil_r |].
    split; intros; lia.
  - cbn [CloudCode.retry_loop]. unfold bind at 1, emit at 1. unfold bind at 1.
    set (w1 := with_trace (trace w ++ [Sleep delay])%list w).
    assert (Hlen : length (trace w1) = (length (trace w) + 2 * 1 - 1)%nat).
    { unfold w1. simpl. rewrite length_app. simpl. lia. }
    destruct (loadCodeAssistReply env (CloudCode.client_account c) (length (trace w1)))
      as [e|response] eqn:Hreply.
    + exists 1%nat. split; [lia |]. split; [| split].
      * unfold CloudCode.loadCodeAssist, bind, emit. rewrite Hreply.
        unfold w1. simpl. rewrite <- app_assoc. reflexivity.
      * intros k Hk. lia.
      * intros _. split; [lia |]. unfold ends_the_reloads.
        rewrite <- Hlen, Hreply. reflexivity.
    + destruct (loadCodeAssist_brings env c w1 response Hnone Hreply)
        as (c' & Hload & Hacc & Hproject).
      rewrite Hload. cbn [fst snd]. rewrite Hproject.
      destruct (brought_project response) as [p|] eqn:Hbrought.
      * exists 1%nat. split; [lia |]. split; [| split].
        -- unfold w1. simpl. rewrite <- app_assoc. reflexivity.
        -- intros k Hk. lia.
        -- intros _. split; [lia |]. unfold ends_the_reloads.
           rewrite <- Hlen, Hreply, Hbrought. reflexivity.
      * match goal with |- context [CloudCode.retry_loop env delay c' r ?w2] =>
          destruct (IH c' w2) as (n & Hn & Hrun & Hbefore & Hlast)
        end.
        { now rewrite Hproject. }
        assert (Hlen2 : forall k : nat,
                  (length (trace (with_trace
                             (trace w1 ++ [LoadCodeAssist (CloudCode.client_account c)])%list
                             w1)) + 2 * k - 1 =
                   length (trace w) + 2 * S k - 1)%nat).
        { intros k. unfold w1. simpl. rewrite !length_app. simpl. lia. }
        exists (S n). split; [lia |]. split; [| split].
        -- rewrite Hrun, Hacc. unfold w1. simpl. rewrite <- !app_assoc. reflexivity.
        -- intros k Hk. destruct k as [|k]; [lia |].
           destruct k as [|k].
           ++ unfold ends_the_reloads. rewrite <- Hlen, Hreply, Hbrought. reflexivity.
           ++ specialize (Hbefore (S k) ltac:(lia)).
              rewrite Hlen2, Hacc in Hbefore. exact Hbefore.
        -- intros Hlt. split; [lia |].
           destruct Hlast as [_ Hlast]; [lia |].
           rewrite Hlen2, Hacc in Hlast. exact Hlast.
Qed.

(** X19. The calls of [resolveProjectId] of the API client, however it
    ends.  None when the client holds a project ID.  Else one load of the
    assist status, and nothing more when the load throws, when its reply
    brings a project ID, or when the reply names no tier (the default tier;
    else the paid tier, else the current tier; else the first allowed
    tier).  Else one onboarding request for that tier, followed by reloads
    of the assist status, each after a sleep of [retryDelayMs]: the reloads
    go on until one throws or brings a project ID, and there are at most
    [maxRetries] of them.  (The first load is event [length (trace w)] of
    the trace, so that the [k]-th reload is event
    [length (trace w) + 2 * k + 1].) *)
Theorem resolveProjectId_calls (env : Env) (maxRetries : nat) (retryDelayMs : Z)
    (c : CloudCode.Client) (w : World) :
  exists calls : list Event,
    trace (world_of (CloudCode.resolveProjectId env maxRetries retryDelayMs c w)) =
      (trace w ++ calls)%list /\
    match truthy (CloudCode.client_projectId c) with
    | Some _ => calls = []
    | None =>
        match
          loadCodeAssistReply env (CloudCode.client_account c) (length (trace w))
        with
        | inl _ => calls = [LoadCodeAssist (CloudCode.client_account c)]
        | inr response =>
            match
              brought_project response,
              truthy (claimed_onboard_tier (allowedTiers response)
                        (or_opt (paidTier response ≫= id)
                                (currentTier response ≫= id)))
            with
            | Some _, _ => calls = [LoadCodeAssist (CloudCode.client_account c)]
            | None, None => calls = [LoadCodeAssist (CloudCode.client_account c)]
            | None, Some tier =>
                exists n : nat,
                  (n <= maxRetries)%nat /\
                  calls =
                    LoadCodeAssist (CloudCode.client_account c) ::
                    OnboardUser (CloudCode.client_account c) tier ::
                    reloads_every retryDelayMs (CloudCode.client_account c) n /\
                  (forall k : nat,
                     (1 <= k < n)%nat ->
                     ends_the_reloads env (CloudCode.client_account c)
                       (length (trace w) + 2 * k + 1) = false) /\
                  ((n < maxRetries)%nat ->
                   (1 <= n)%nat /\
                   ends_the_reloads env (CloudCode.client_account c)
                     (length (trace w) + 2 * n + 1) = true)
            end
        end
    end.
Proof.
  unfold CloudCode.resolveProjectId.
  destruct (truthy (CloudCode.client_projectId c)) as [p|] eqn:Hc.
  { exists []. split; [now rewrite app_nil_r | reflexivity]. }
  unfold bind at 1.
  destruct (loadCodeAssistReply env (CloudCode.client_account c) (length (trace w)))
    as [e|response] eqn:Hreply.
  { eexists. split; [| reflexivity].
    unfold CloudCode.loadCodeAssist, bind, emit. rewrite Hreply. reflexivity. }
  destruct (loadCodeAssist_brings env c w response Hc Hreply)
    as (c' & Hload & Hacc & Hproject).
  rewrite Hload. cbn [fst snd]. rewrite Hproject.
  rewrite <- cloudcode_pick_tier_as_claimed.
  destruct (brought_project response) as [p|] eqn:Hbrought.
  { eexists. split; reflexivity. }
  destruct (truthy (CloudCode.pick_tier response)) as [tier|].
  2: { eexists. split; reflexivity. }
  unfold bind at 1.
  set (w1 := with_trace (trace w ++ [LoadCodeAssist (CloudCode.client_account c)])%list w).
  set (w2 := with_trace (trace w1 ++ [OnboardUser (CloudCode.client_account c') tier])%list
               w1).
  assert (Hon : try_catch (CloudCode.onboardUser env c' tier) (fun _ => ret tt) w1 =
                Returns tt w2).
  { unfold try_catch, CloudCode.onboardUser, bind, emit. fold w2.
    destruct (onboardUserReply env _ tier _); reflexivity. }
  rewrite Hon.
  destruct (retry_loop_calls env retryDelayMs maxRetries c' w2)
    as (n & Hn & Hrun & Hbefore & Hlast); [now rewrite Hproject |].
  assert (Hlen : forall k : nat,
            (length (trace w2) + 2 * k - 1 = length (trace w) + 2 * k + 1)%nat).
  { intros k. unfold w2, w1. simpl. rewrite !length_app. simpl. lia. }
  eexists. split.
  - rewrite Hrun. unfold w2, w1. simpl trace. rewrite Hacc, <- !app_assoc.
    reflexivity.
  - exists n. split; [exact Hn |]. split; [reflexivity |]. split.
    + intros k Hk. rewrite <- Hlen, <- Hacc. apply Hbefore, Hk.
    + intros Hlt. rewrite <- Hlen, <- Hacc. apply Hlast, Hlt.
Qed.

(** X20. An error thrown by [resolveProjectId] of the API client is an
    error of a load of the assist status; what the onboarding request
    throws never comes out. *)
Theorem resolveProjectId_throws_only_load_errors (env : Env) (maxRetries : nat)
    (retryDelayMs : Z) (c : CloudCode.Client) (w w' : World) (e : js_error) :
  CloudCode.resolveProjectId env maxRetries retryDelayMs c w = Throws e w' ->
  exists n : nat, loadCodeAssistReply env (CloudCode.client_account c) n = inl e.
Proof.
  unfold CloudCode.resolveProjectId.
  destruct (truthy (CloudCode.client_projectId c)); [discriminate |].
  unfold bind at 1.
  destruct (CloudCode.loadCodeAssist env c w) as [r1 w1|e1 w1] eqn:Hload.
  2: { intros [= <- _]. exact (loadCodeAssist_thrown _ _ _ _ _ Hload). }
  destruct (loadCodeAssist_account env c w w1 r1 Hload) as [Hacc _].
  destruct (truthy (CloudCode.client_projectId r1.2)); [discriminate |].
  destruct (truthy (CloudCode.pick_tier r1.1)) as [tier|]; [| discriminate].
  unfold bind at 1.
  destruct (try_catch _ _ w1) as [u w2|e2 w2] eqn:Hon.
  2: { unfold try_catch in Hon.
       destruct (CloudCode.onboardUser env r1.2 tier w1); discriminate. }
  rewrite <- Hacc. generalize r1.2 w2. clear.
  induction maxRetries as [|k IH]; intros c w; [discriminate |].
  cbn [CloudCode.retry_loop]. unfold bind at 1, emit at 1. unfold bind at 1.
  destruct (CloudCode.loadCodeAssist env c _) as [r1 w1|e1 w1] eqn:Hload.
  - destruct (loadCodeAssist_account env c _ w1 r1 Hload) as [Hacc _].
    destruct (truthy (CloudCode.client_projectId r1.2)); [discriminate |].
    intros Hrun. rewrite <- Hacc. exact (IH _ _ Hrun).
  - intros [= <- _]. exact (loadCodeAssist_thrown _ _ _ _ _ Hload).
Qed.

Lemma resolveProjectId_throws_only_load_errors_witness :
  CloudCode.resolveProjectId Sample.env 5 2000
    {| CloudCode.client_account := "a@x.com"; CloudCode.client_projectId := None |}
    Sample.w0 =
    Throws (PlainError "Network error")
      (world_of
         (CloudCode.resolveProjectId Sample.env 5 2000
            {| CloudCode.client_account := "a@x.com";
               CloudCode.client_projectId := None |} Sample.w0)) /\
  exists n : nat,
    loadCodeAssistReply Sample.env
      (CloudCode.client_account
         {| CloudCode.client_account := "a@x.com";
            CloudCode.client_projectId := None |}) n =
    inl (PlainError "Network error").
Proof.
  assert (H : CloudCode.resolveProjectId Sample.env 5 2000
                {| CloudCode.client_account := "a@x.com";
                   CloudCode.client_projectId := None |} Sample.w0 =
              Throws (PlainError "Network error")
                (world_of
                   (CloudCode.resolveProjectId Sample.env 5 2000
                      {| CloudCode.client_account := "a@x.com";
                         CloudCode.client_projectId := None |} Sample.w0)))
    by (vm_compute; reflexivity).
  split; [exact H |].
  apply (resolveProjectId_throws_only_load_errors Sample.env 5 2000 _ Sample.w0 _ _ H).
Defined.

(** ** The onboarding attempts at login *)

Lemma polls_length (accessToken tier : string) (n : nat) :
  length (polls accessToken tier (S n)) = S (2 * n).
Proof.
  induction n as [|n IH]; [reflexivity |].
  rewrite polls_next by lia. cbn [length]. rewrite IH. lia.
Qed.

(** The loop of [tryOnboardUser]: it goes through the retryable replies
    and stops at the first reply that is not, or after its last attempt. *)
Lemma onboard_loop_settles (env : Env) (accessToken tier : string) (remaining : nat) :
  forall (attempt : nat) (w : World) (k : nat),
    (attempt + remaining = S OAuth.onboardAttempts)%nat ->
    (k <= remaining)%nat -> (1 <= remaining)%nat ->
    (forall j : nat,
       (j < k)%nat ->
       retryable (fetchOnboardUserReply env accessToken tier
                    (length (trace w) + 2 * j)) = true) ->
    (k < remaining ->
     retryable (fetchOnboardUserReply env accessToken tier
                  (length (trace w) + 2 * k)) = false)%nat ->
    exists w' : World,
      OAuth.onboard_loop env accessToken tier attempt remaining w =
        Returns
          (if (k <? remaining)%nat
           then onboarded_project
                  (fetchOnboardUserReply env accessToken tier
                     (length (trace w) + 2 * k))
           else None) w' /\
      trace w' =
        (trace w ++ polls accessToken tier (if (k <? remaining)%nat then S k else k))%list.
Proof.
  induction remaining as [|rem IH]; intros attempt w k Hsum Hk Hpos Hretry Hfinal;
    [lia |].
  rewrite onboard_loop_S. cbv zeta. unfold bind at 1, emit at 1.
  set (w1 := with_trace (trace w ++ [FetchOnboardUser accessToken tier])%list w).
  destruct k as [|k].
  - (* the first reply ends the attempts *)
    cbn [Nat.ltb Nat.leb]. specialize (Hfinal ltac:(lia)).
    rewrite Nat.mul_0_r, Nat.add_0_r in Hfinal |- *.
    exists w1. split; [| reflexivity].
    unfold retryable in Hfinal. unfold onboarded_project.
    destruct (fetchOnboardUserReply env accessToken tier (length (trace w)))
      as [e|status body]; [discriminate |].
    destruct (OAuth.ok status); cbn [negb] in Hfinal |- *.
    + destruct body as [data|]; [| discriminate].
      destruct (done data) as [[|]|]; [reflexivity | discriminate | discriminate].
    + apply negb_false_iff in Hfinal. rewrite Hfinal.
      destruct body; reflexivity.
  - (* the first reply is retryable *)
    pose proof (Hretry 0%nat ltac:(lia)) as H0.
    rewrite Nat.mul_0_r, Nat.add_0_r in H0.
    assert (Hnext :
      exists w' : World,
        ((if (attempt <? OAuth.onboardAttempts)%nat
          then emit (Sleep OAuth.onboardDelayMs) >> ret tt
          else ret tt) >>
         OAuth.onboard_loop env accessToken tier (S attempt) rem) w1 =
          Returns
            (if (S k <? S rem)%nat
             then onboarded_project
                    (fetchOnboardUserReply env accessToken tier
                       (length (trace w) + 2 * S k))
             else None) w' /\
        trace w' =
          (trace w ++
           polls accessToken tier (if (S k <? S rem)%nat then S (S k) else S k))%list).
    { unfold OAuth.onboardAttempts in *. destruct rem as [|rem'].
      - assert (k = 0%nat) as -> by lia. assert (attempt = 5%nat) as -> by lia.
        exists w1. split; reflexivity.
      - assert (Hlt : (attempt <? 5)%nat = true) by (apply Nat.ltb_lt; lia).
        rewrite Hlt.
        set (w2 := with_trace (trace w1 ++ [Sleep OAuth.onboardDelayMs])%list w1).
        assert (Hlen : length (trace w2) = (length (trace w) + 2)%nat).
        { unfold w2, w1. simpl. rewrite !length_app. simpl. lia. }
        destruct (IH (S attempt) w2 k) as (w' & Hrun & Htr); [lia | lia | lia | | |].
        + intros j Hj. rewrite Hlen.
          replace (length (trace w) + 2 + 2 * j)%nat
            with (length (trace w) + 2 * S j)%nat by lia.
          apply Hretry. lia.
        + intros Hlt'. rewrite Hlen.
          replace (length (trace w) + 2 + 2 * k)%nat
            with (length (trace w) + 2 * S k)%nat by lia.
          apply Hfinal. lia.
        + exists w'. split.
          * unfold bind at 1, bind at 1, emit at 1, ret at 1. fold w2.
            rewrite Hrun, Hlen.
            replace (length (trace w) + 2 + 2 * k)%nat
              with (length (trace w) + 2 * S k)%nat by lia.
            reflexivity.
          * rewrite Htr. unfold w2, w1. simpl trace. rewrite <- !app_assoc.
            change (S k <? S (S rem'))%nat with (k <? S rem')%nat.
            destruct (k <? S rem')%nat eqn:E.
            -- rewrite (polls_next _ _ (S k)) by lia. reflexivity.
            -- destruct k as [|k']; [discriminate E |].
               rewrite (polls_next _ _ (S k')) by lia. reflexivity. }
    unfold retryable in H0.
    destruct (fetchOnboardUserReply env accessToken tier (length (trace w)))
      as [e|status body]; [exact Hnext |].
    destruct (OAuth.ok status); cbn [negb] in H0 |- *.
    + destruct body as [data|]; [| exact Hnext].
      destruct (done data) as [[|]|]; [discriminate | exact Hnext | exact Hnext].
    + apply negb_true_iff in H0. rewrite H0. exact Hnext.
Qed.

(** X21. [tryOnboardUser] stops at the first reply that is not retryable:
    when the replies to its first [k] requests ([k < 5]) are retryable and
    the next one is not, it returns what that reply gives (the project ID
    of a [done] response; nothing for a 401 or 403) after exactly [k + 1]
    requests, with a 2-second sleep between one request and the next and
    none after the last. *)
Theorem tryOnboardUser_stops_at_the_first_final_reply (env : Env)
    (accessToken tier : string) (w : World) (k : nat) :
  (k < 5)%nat ->
  (forall j : nat,
     (j < k)%nat ->
     retryable (fetchOnboardUserReply env accessToken tier
                  (length (trace w) + 2 * j)) = true) ->
  retryable (fetchOnboardUserReply env accessToken tier
               (length (trace w) + 2 * k)) = false ->
  exists w' : World,
    OAuth.tryOnboardUser env accessToken tier w =
      Returns
        (onboarded_project
           (fetchOnboardUserReply env accessToken tier (length (trace w) + 2 * k)))
        w' /\
    trace w' = (trace w ++ polls accessToken tier (S k))%list.
Proof.
  intros Hk Hretry Hfinal.
  destruct (onboard_loop_settles env accessToken tier OAuth.onboardAttempts 1%nat w k)
    as (w' & Hrun & Htr);
    [reflexivity | unfold OAuth.onboardAttempts; lia | unfold OAuth.onboardAttempts; lia |
     exact Hretry | intros _; exact Hfinal |].
  assert (Hlt : (k <? OAuth.onboardAttempts)%nat = true)
    by (apply Nat.ltb_lt; unfold OAuth.onboardAttempts; lia).
  rewrite Hlt in Hrun, Htr. exists w'. split; [exact Hrun | exact Htr].
Qed.

Lemma tryOnboardUser_stops_at_the_first_final_reply_witness :
  (2 < 5)%nat /\
  (forall j : nat,
     (j < 2)%nat ->
     retryable (fetchOnboardUserReply Fixture.env_onboarded_at_third_attempt
                  "ya29.token" "free-tier"
                  (length (trace Sample.w0) + 2 * j)) = true) /\
  retryable (fetchOnboardUserReply Fixture.env_onboarded_at_third_attempt
               "ya29.token" "free-tier"
               (length (trace Sample.w0) + 2 * 2)) = false /\
  exists w' : World,
    OAuth.tryOnboardUser Fixture.env_onboarded_at_third_attempt "ya29.token"
      "free-tier" Sample.w0 =
      Returns
        (onboarded_project
           (fetchOnboardUserReply Fixture.env_onboarded_at_third_attempt
              "ya29.token" "free-tier" (length (trace Sample.w0) + 2 * 2)))
        w' /\
    trace w' = (trace Sample.w0 ++ polls "ya29.token" "free-tier" 3)%list.
Proof.
  assert (H : forall j : nat,
            (j < 2)%nat ->
            retryable (fetchOnboardUserReply Fixture.env_onboarded_at_third_attempt
                         "ya29.token" "free-tier"
                         (length (trace Sample.w0) + 2 * j)) = true).
  { intros [|[|j]] Hj; [reflexivity | reflexivity | lia]. }
  split; [lia |]. split; [exact H |]. split; [reflexivity |].
  apply (tryOnboardUser_stops_at_the_first_final_reply
           Fixture.env_onboarded_at_third_attempt "ya29.token" "free-tier"
           Sample.w0 2);
    [lia | exact H | reflexivity].
Defined.

(** X22. When the replies to all its requests are retryable,
    [tryOnboardUser] gives up with nothing after exactly 5 requests and 4
    sleeps of 2 seconds: it does not sleep after the last attempt. *)
Theorem tryOnboardUser_exhausts_its_attempts (env : Env) (accessToken tier : string)
    (w : World) :
  (forall j : nat,
     (j < 5)%nat ->
     retryable (fetchOnboardUserReply env accessToken tier
                  (length (trace w) + 2 * j)) = true) ->
  exists w' : World,
    OAuth.tryOnboardUser env accessToken tier w = Returns None w' /\
    trace w' =
      (trace w ++
       [FetchOnboardUser accessToken tier; Sleep 2000;
        FetchOnboardUser accessToken tier; Sleep 2000;
        FetchOnboardUser accessToken tier; Sleep 2000;
        FetchOnboardUser accessToken tier; Sleep 2000;
        FetchOnboardUser accessToken tier])%list.
Proof.
  intros Hretry.
  destruct (onboard_loop_settles env accessToken tier OAuth.onboardAttempts 1%nat w 5)
    as (w' & Hrun & Htr);
    [reflexivity | unfold OAuth.onboardAttempts; lia | unfold OAuth.onboardAttempts; lia |
     exact Hretry | unfold OAuth.onboardAttempts; lia |].
  exists w'. split; [exact Hrun | exact Htr].
Qed.

Lemma tryOnboardUser_exhausts_its_attempts_witness :
  (forall j : nat,
     (j < 5)%nat ->
     retryable (fetchOnboardUserReply Sample.env "ya29.token" "free-tier"
                  (length (trace Sample.w0) + 2 * j)) = true) /\
  exists w' : World,
    OAuth.tryOnboardUser Sample.env "ya29.token" "free-tier" Sample.w0 =
      Returns None w' /\
    trace w' =
      (trace Sample.w0 ++
       [FetchOnboardUser "ya29.token" "free-tier"; Sleep 2000;
        FetchOnboardUser "ya29.token" "free-tier"; Sleep 2000;
        FetchOnboardUser "ya29.token" "free-tier"; Sleep 2000;
        FetchOnboardUser "ya29.token" "free-tier"; Sleep 2000;
        FetchOnboardUser "ya29.token" "free-tier"])%list.
Proof.
  split; [intros j Hj; reflexivity |].
  apply (tryOnboardUser_exhausts_its_attempts Sample.env "ya29.token" "free-tier"
           Sample.w0).
  intros j Hj. reflexivity.
Defined.

Lemma extractProjectId_truthy (value : option ProjectRef) :
  truthy (OAuth.extractProjectId value) = OAuth.extractProjectId value.
Proof.
  destruct value as [[s|[i|]]|]; simpl; try reflexivity.
  - destruct (String.eqb s "") eqn:E; [reflexivity |]. simpl. now rewrite E.
  - destruct (String.eqb i "") eqn:E; [reflexivity |]. simpl. now rewrite E.
Qed.

Lemma onboard_loop_outcome (env : Env) (accessToken tier : string) (remaining : nat) :
  forall (attempt : nat) (w : World),
    exists (r : option string) (w' : World) (calls : list Event),
      OAuth.onboard_loop env accessToken tier attempt remaining w = Returns r w' /\
      truthy r = r /\
      disk w' = disk w /\ credentials w' = credentials w /\
      trace w' = (trace w ++ calls)%list.
Proof.
  induction remaining as [|k IH]; intros attempt w.
  - exists None, w, []. repeat split. now rewrite app_nil_r.
  - rewrite onboard_loop_S. cbv zeta. unfold bind at 1, emit at 1.
    set (w1 := with_trace (trace w ++ [FetchOnboardUser accessToken tier])%list w).
    assert (Hstop : forall r : option string,
              truthy r = r ->
              exists (r' : option string) (w' : World) (calls : list Event),
                ret r w1 = Returns r' w' /\ truthy r' = r' /\
                disk w' = disk w /\ credentials w' = credentials w /\
                trace w' = (trace w ++ calls)%list).
    { intros r Hr. exists r, w1, [FetchOnboardUser accessToken tier]. now repeat split. }
    assert (Hnext :
      exists (r : option string) (w' : World) (calls : list Event),
        ((if (attempt <? OAuth.onboardAttempts)%nat
          then emit (Sleep OAuth.onboardDelayMs) >> ret tt
          else ret tt) >>
         OAuth.onboard_loop env accessToken tier (S attempt) k) w1 = Returns r w' /\
        truthy r = r /\ disk w' = disk w /\ credentials w' = credentials w /\
        trace w' = (trace w ++ calls)%list).
    { destruct (attempt <? OAuth.onboardAttempts)%nat.
      - destruct (IH (S attempt)
                    (with_trace (trace w1 ++ [Sleep OAuth.onboardDelayMs])%list w1))
          as (r & w' & calls & Hrun & Hr & Hd & Hc & Htr).
        exists r, w', (FetchOnboardUser accessToken tier ::
                       Sleep OAuth.onboardDelayMs :: calls).
        split; [exact Hrun |]. split; [exact Hr |]. split; [exact Hd |].
        split; [exact Hc |]. rewrite Htr. unfold w1. simpl trace.
        rewrite <- !app_assoc. reflexivity.
      - destruct (IH (S attempt) w1) as (r & w' & calls & Hrun & Hr & Hd & Hc & Htr).
        exists r, w', (FetchOnboardUser accessToken tier :: calls).
        split; [exact Hrun |]. split; [exact Hr |]. split; [exact Hd |].
        split; [exact Hc |]. rewrite Htr. unfold w1. simpl trace.
        rewrite <- !app_assoc. reflexivity. }
    destruct (fetchOnboardUserReply env accessToken tier (length (trace w)))
      as [e | status body]; [exact Hnext |].
    destruct (negb (OAuth.ok status)).
    + destruct ((status =? 401) || (status =? 403))%Z;
        [apply Hstop; reflexivity | exact Hnext].
    + destruct body as [data|]; [| exact Hnext].
      destruct (done data) as [[|]|];
        [apply Hstop, extractProjectId_truthy | exact Hnext | exact Hnext].
Qed.

(** X23. [resolveProjectId] of the login flow never throws and touches
    neither the documents nor the credentials; its first request is the
    load of the assist status; a project ID it returns is never the empty
    string; and when the load fails (the request is rejected, the status is
    not 2xx, or the body is not JSON) or brings a project ID, it makes no
    other request: no onboarding is attempted. *)
Theorem login_resolveProjectId_never_throws (env : Env) (accessToken : string)
    (w : World) :
  exists (r : ProjectIdResult) (w' : World) (calls : list Event),
    OAuth.resolveProjectId env accessToken w = Returns r w' /\
    disk w' = disk w /\ credentials w' = credentials w /\
    trace w' = (trace w ++ FetchLoadCodeAssist accessToken :: calls)%list /\
    truthy (projectId r) = projectId r /\
    match loaded (fetchLoadCodeAssistReply env accessToken (length (trace w))) with
    | None => r = {| projectId := None; tierId := None |} /\ calls = []
    | Some data =>
        forall p : string,
          OAuth.extractProjectId (cloudaicompanionProject data) = Some p ->
          r = {| projectId := Some p;
                 tierId := or_opt (paidTier data ≫= id) (currentTier data ≫= id) |} /\
          calls = []
    end.
Proof.
  unfold OAuth.resolveProjectId. cbv zeta. unfold bind at 1, emit at 1.
  set (w1 := with_trace (trace w ++ [FetchLoadCodeAssist accessToken])%list w).
  unfold loaded.
  destruct (fetchLoadCodeAssistReply env accessToken (length (trace w)))
    as [e|status body].
  { eexists _, w1, []. now repeat split. }
  destruct (OAuth.ok status); cbn [negb].
  2: { destruct body; eexists _, w1, []; now repeat split. }
  destruct body as [data|]; [| eexists _, w1, []; now repeat split].
  pose proof (extractProjectId_truthy (cloudaicompanionProject data)) as Htruthy.
  destruct (OAuth.extractProjectId (cloudaicompanionProject data)) as [p|] eqn:Hp.
  - rewrite Htruthy. eexists _, w1, []. do 4 (split; [reflexivity |]).
    split; [exact Htruthy |]. intros p' [= <-]. now split.
  - cbn [truthy].
    destruct (truthy (OAuth.pickOnboardTier (allowedTiers data) _)) as [tier|].
    + destruct (onboard_loop_outcome env accessToken tier OAuth.onboardAttempts 1%nat w1)
        as (r & w' & calls & Hrun & Hr & Hd & Hc & Htr).
      eexists _, w', calls. unfold bind, OAuth.tryOnboardUser. rewrite Hrun.
      split; [reflexivity |]. split; [exact Hd |]. split; [exact Hc |].
      split; [rewrite Htr; unfold w1; simpl trace; rewrite <- app_assoc; reflexivity |].
      split; [exact Hr | discriminate].
    + eexists _, w1, []. do 4 (split; [reflexivity |]). split; [reflexivity |].
      discriminate.
Qed.

(** ** The test trigger *)

(** X24. On a disk that takes writes, [testTrigger] returns the result of
    the one model it asked for, never the placeholder [No result returned]:
    the result it returns is the one recorded as the newest entry of the
    history, as a manual trigger of that model for that account. *)
Theorem testTrigger_returns_the_recorded_result (env : Env)
    (modelId accountEmail : string) (prompt : option string) (w : World) :
  write_fault (disk w) = None ->
  exists (r : ModelTriggerResult) (w' : World) (stamp : string),
    TriggerService.testTrigger env modelId accountEmail prompt w = Returns r w' /\
    res_modelId r = modelId /\
    well_formed r /\
    history_of (disk w') =
      take 100
        (record_of (test_options modelId accountEmail prompt) stamp r ::
         history_of (disk w)) /\
    besides_history w' = besides_history w.
Proof.
  intros Hw. unfold TriggerService.testTrigger.
  fold (test_options modelId accountEmail prompt).
  destruct (executeTrigger_phases env (test_options modelId accountEmail prompt) w
              ltac:(discriminate))
    as (computed & w2 & Hrun & Hids & Hwf & Hd & _).
  destruct computed as [|r [|r' rest]]; try discriminate Hids.
  injection Hids as Hid.
  destruct (recordResults_written env (test_options modelId accountEmail prompt)
              [r] w2) as (w' & Hrec & Hb & _ & _ & _ & Hh); [now rewrite Hd |].
  exists r, w', (toISOString env (clock env (ticks w2))).
  split; [unfold bind at 1; rewrite Hrun; unfold bind; rewrite Hrec; reflexivity |].
  split; [exact Hid |]. split; [now inversion Hwf |].
  split; [rewrite Hh, Hd; reflexivity |].
  rewrite Hb. unfold besides_history. now rewrite Hd.
Qed.

Lemma testTrigger_returns_the_recorded_result_witness :
  write_fault (disk Sample.w0) = None /\
  exists (r : ModelTriggerResult) (w' : World) (stamp : string),
    TriggerService.testTrigger Sample.env "gemini-3-flash" "a@x.com" (Some "ping")
      Sample.w0 = Returns r w' /\
    res_modelId r = "gemini-3-flash" /\
    well_formed r /\
    history_of (disk w') =
      take 100
        (record_of (test_options "gemini-3-flash" "a@x.com" (Some "ping")) stamp r ::
         history_of (disk Sample.w0)) /\
    besides_history w' = besides_history Sample.w0.
Proof.
  split; [reflexivity |].
  apply (testTrigger_returns_the_recorded_result Sample.env "gemini-3-flash"
           "a@x.com" (Some "ping") Sample.w0).
  reflexivity.
Defined.

(** ** The executor with a valid token *)





(** ** The scheduled run *)







(** X27. The scheduled run on a disk that refuses writes (enabled
    configuration, at least one account and one model): the write error of
    the first record comes out of the run, after the tokens of the first
    account were loaded; the accounts after it are not attempted.  (The
    orchestrator of the reset detection catches the same error account by
    account.) *)
Theorem runScheduledTrigger_aborts_on_refused_write (env : Env) (isScheduled : bool)
    (w : World) (config : WakeupConfig) (err : js_error) (first : string)
    (others : list string) :
  Storage.loadWakeupConfig w = Returns (Some config) w ->
  enabled config = true ->
  AccountResolver.resolveAccounts (accountManager env) (selectedAccounts config) =
    first :: others ->
  selectedModels config <> [] ->
  write_fault (disk w) = Some err ->
  exists w' : World,
    WakeupCommand.runScheduledTrigger env isScheduled w = Throws err w' /\
    token_loads (trace w') = (token_loads (trace w) ++ [first])%list /\
    disk w' = disk w.
Proof.
  intros Hcfg Hen Haccounts Hmodels Hw.
  unfold WakeupCommand.runScheduledTrigger. cbv zeta.
  unfold bind at 1. rewrite Hcfg, Hen, Haccounts. cbn [negb length Nat.eqb].
  destruct (length (selectedModels config) =? 0)%nat eqn:Hlen'.
  { apply Nat.eqb_eq, length_zero_iff_nil in Hlen'. contradiction. }
  fold (scheduled_options config isScheduled first).
  destruct (executeTrigger_phases env (scheduled_options config isScheduled first) w
              Hmodels)
    as (computed & w2 & Hrun & Hids & _ & Hd & Hl & _).
  destruct (recordResults_refused env (scheduled_options config isScheduled first)
              computed w2 err)
    as (w' & Hrec & Hd' & Ht & _); [now rewrite Hd | |].
  { intros ->. simpl in Hids. symmetry in Hids. contradiction. }
  exists w'. split; [| split].
  - cbn [for_each]. unfold bind at 1, bind at 1.
    unfold scheduled_options in Hrun, Hrec. rewrite Hrun.
    unfold bind at 1. rewrite Hrec. reflexivity.
  - rewrite Ht. exact Hl.
  - congruence.
Qed.

Lemma runScheduledTrigger_aborts_on_refused_write_witness :
  Storage.loadWakeupConfig (Sample.world Fixture.readonly_disk) =
    Returns (Some Sample.config) (Sample.world Fixture.readonly_disk) /\
  enabled Sample.config = true /\
  AccountResolver.resolveAccounts (accountManager Sample.env)
    (selectedAccounts Sample.config) = ["a@x.com"] /\
  selectedModels Sample.config <> [] /\
  write_fault (disk (Sample.world Fixture.readonly_disk)) =
    Some (PlainError "EACCES: permission denied") /\
  exists w' : World,
    WakeupCommand.runScheduledTrigger Sample.env false
      (Sample.world Fixture.readonly_disk) =
      Throws (PlainError "EACCES: permission denied") w' /\
    token_loads (trace w') =
      (token_loads (trace (Sample.world Fixture.readonly_disk)) ++ ["a@x.com"])%list /\
    disk w' = disk (Sample.world Fixture.readonly_disk).
Proof.
  split; [reflexivity |]. split; [reflexivity |]. split; [reflexivity |].
  split; [discriminate |]. split; [reflexivity |].
  apply (runScheduledTrigger_aborts_on_refused_write Sample.env false
           (Sample.world Fixture.readonly_disk) Sample.config
           (PlainError "EACCES: permission denied") "a@x.com" []);
    [reflexivity | reflexivity | reflexivity | discriminate | reflexivity].
Defined.

(** ** The refresh of the access token *)

Section Refresh.

Import GoogleTokenManager.

Context (toLowerCase : string -> string)
        (clock : nat -> Z)
        (refreshAccessTokenReply : string -> nat -> js_error + OAuthTokenResponse)
        (storageFault : nat -> option js_error)
        (accountEmail : option string).

Local Abbreviation loop :=
  (refresh_loop toLowerCase clock refreshAccessTokenReply storageFault accountEmail).

Lemma failed_attempts_then_request (rt : string) (k : nat) :
  (k <= 2)%nat ->
  (failed_attempts rt 1 k ++ [Refresh rt])%list = take (S (2 * k)) (three_attempts rt).
Proof.
  intros Hk. destruct k as [|[|[|k]]]; [reflexivity | reflexivity | reflexivity | lia].
Qed.

Lemma failed_attempts_length (rt : string) (k : nat) :
  forall attempt : nat, length (failed_attempts rt attempt k) = (2 * k)%nat.
Proof.
  induction k as [|k IH]; intros attempt; [reflexivity |].
  cbn [failed_attempts length]. rewrite IH. lia.
Qed.

(** The loop goes through [k] transient failures of the token endpoint,
    pausing after each, and holds the same tokens afterwards. *)
Lemma refresh_loop_skips (rt : string) (t : Tokens) (k : nat) :
  forall (attempt remaining : nat) (lastError : option string) (s : State),
    (attempt + k < 4)%nat -> (k <= remaining)%nat ->
    (forall j : nat,
       (j < k)%nat ->
       transient toLowerCase
         (refreshAccessTokenReply rt (length (calls s) + 2 * j)) = true) ->
    loop attempt remaining t rt lastError s =
    loop (attempt + k) (remaining - k) t rt
      (match k with
       | O => lastError
       | S k' => cause_of (refreshAccessTokenReply rt (length (calls s) + 2 * k'))
       end)
      {| tokens := tokens s;
         calls := (calls s ++ failed_attempts rt attempt k)%list;
         readings := readings s |}.
Proof.
  induction k as [|k IH]; intros attempt remaining lastError s Hlt Hle Htransient.
  - rewrite Nat.add_0_r, Nat.sub_0_r. cbn [failed_attempts]. rewrite app_nil_r.
    destruct s; reflexivity.
  - destruct remaining as [|remaining]; [lia |].
    pose proof (Htransient 0%nat ltac:(lia)) as H0.
    rewrite Nat.mul_0_r, Nat.add_0_r in H0.
    cbn [refresh_loop]. unfold attempt_once.
    unfold transient in H0.
    destruct (refreshAccessTokenReply rt (length (calls s))) as [err|response] eqn:Hreply;
      [| discriminate].
    apply negb_true_iff in H0. rewrite H0.
    assert (Hpause : (attempt <? MAX_RETRIES)%nat = true)
      by (apply Nat.ltb_lt; unfold MAX_RETRIES; lia).
    rewrite Hpause. unfold BASE_DELAY_MS.
    rewrite (IH (S attempt) remaining); [| lia | lia |].
    + cbn [Nat.sub]. replace (S attempt + k)%nat with (attempt + S k)%nat by lia.
      f_equal.
      * destruct k as [|k'].
        -- rewrite Nat.mul_0_r, Nat.add_0_r, Hreply. reflexivity.
        -- cbn [calls called]. rewrite !length_app. cbn [length].
           replace (length (calls s) + 1 + 1 + 2 * k')%nat
             with (length (calls s) + 2 * S k')%nat by lia.
           reflexivity.
      * cbn [calls called tokens readings failed_attempts]. f_equal.
        rewrite <- !app_assoc. reflexivity.
    + intros j Hj. cbn [calls called]. rewrite !length_app. cbn [length].
      replace (length (calls s) + 1 + 1 + 2 * j)%nat
        with (length (calls s) + 2 * S j)%nat by lia.
      apply Htransient. lia.
Qed.

(** X28. How [refreshToken] fails.  When the token endpoint answers the
    first [k] requests with transient errors and, if [k < 3], the next one
    with a permanent error (a message that, in lower case, contains
    [invalid_grant], [400], [401], [invalid_token] or
    [token has been revoked]), it throws a [TokenRefreshError] after
    [k + 1] requests, at most 3: not retryable, [Refresh token invalid or
    expired], for the permanent error; retryable, [Failed to refresh token
    after 3 attempts], after three transient ones.  Its cause is the last
    error, and the trigger executor records the failure as the message
    followed by the cause; the pauses are 1 second after the first request
    and 2 seconds after the second, and there is none after the last; the
    tokens the manager holds are as they were. *)
Theorem refreshToken_gives_up (s : State) (t : Tokens) (rt : string) (k : nat) :
  tokens s = Some t ->
  truthy (tok_refreshToken t) = Some rt ->
  (k <= 3)%nat ->
  (forall j : nat,
     (j < k)%nat ->
     transient toLowerCase
       (refreshAccessTokenReply rt (length (calls s) + 2 * j)) = true) ->
  ((k < 3)%nat ->
   exists err : js_error,
     refreshAccessTokenReply rt (length (calls s) + 2 * k) = inl err /\
     isPermanentError toLowerCase (error_text err) = true) ->
  exists (cause : string) (s' : State),
    refreshToken toLowerCase clock refreshAccessTokenReply storageFault accountEmail s =
      Failed
        (TokenRefreshFailed
           (if (k <? 3)%nat
            then "Refresh token invalid or expired. Please login again."
            else "Failed to refresh token after 3 attempts")
           (Some cause) (negb (k <? 3)%nat)) s' /\
    cause_of (refreshAccessTokenReply rt
                (length (calls s) + 2 * (if (k <? 3)%nat then k else 2))) =
      Some cause /\
    calls s' = (calls s ++ take (S (2 * Nat.min k 2)) (three_attempts rt))%list /\
    tokens s' = Some t /\
    forall account : string,
      TriggerService.refresh_error_message account
        (thrown_value
           (TokenRefreshFailed
              (if (k <? 3)%nat
               then "Refresh token invalid or expired. Please login again."
               else "Failed to refresh token after 3 attempts")
              (Some cause) (negb (k <? 3)%nat))) =
      (if (k <? 3)%nat
       then "Refresh token invalid or expired. Please login again."
       else "Failed to refresh token after 3 attempts") ++ ": " ++ cause.
Proof.
  intros Htokens Hrt Hk Htransient Hpermanent.
  unfold refreshToken. cbv zeta. rewrite Htokens, Hrt. unfold MAX_RETRIES.
  destruct (k <? 3)%nat eqn:Hlt.
  - apply Nat.ltb_lt in Hlt. destruct (Hpermanent Hlt) as (err & Hreply & Hperm).
    rewrite (refresh_loop_skips rt t k 1 3 None s); [| lia | lia | exact Htransient].
    destruct (3 - k)%nat as [|remaining] eqn:Hrem; [lia |].
    cbn [refresh_loop]. unfold attempt_once. cbn [calls].
    rewrite length_app, failed_attempts_length. rewrite Hreply, Hperm.
    eexists _, _. split; [reflexivity |].
    split; [reflexivity |].
    cbn [calls called tokens].
    rewrite <- app_assoc, failed_attempts_then_request, Nat.min_l by lia.
    split; [reflexivity |]. split; [exact Htokens | reflexivity].
  - apply Nat.ltb_ge in Hlt. assert (k = 3%nat) as -> by lia.
    rewrite (refresh_loop_skips rt t 2 1 3 None s);
      [| lia | lia | intros j Hj; apply Htransient; lia].
    cbn [Nat.sub Nat.add refresh_loop]. unfold attempt_once. cbn [calls].
    rewrite length_app, failed_attempts_length.
    pose proof (Htransient 2%nat ltac:(lia)) as H2. unfold transient in H2.
    destruct (refreshAccessTokenReply rt (length (calls s) + 2 * 2)) as [err|response];
      [| discriminate].
    apply negb_true_iff in H2. rewrite H2. cbn [Nat.ltb Nat.leb MAX_RETRIES].
    eexists _, _. split; [reflexivity |]. split; [reflexivity |].
    cbn [calls called tokens]. rewrite <- app_assoc.
    split; [reflexivity |]. split; [exact Htokens | reflexivity].
Qed.

(** X29. How [getValidAccessToken] refreshes.  When the stored token is
    within 5 minutes of its expiry (or past it), the token endpoint answers
    the first [k < 3] requests with transient errors and the next one with
    new tokens, and the storage takes them, it returns the new access
    token; the manager then holds it with the new refresh token, or the old
    one when the reply has none, an expiry computed from the clock, and the
    e-mail and project ID it had; the new tokens are saved once, after the
    [k + 1] requests. *)
Theorem getValidAccessToken_refreshes (s : State) (t : Tokens) (rt : string) (k : nat)
    (response : OAuthTokenResponse) :
  tokens s = Some t ->
  truthy (tok_refreshToken t) = Some rt ->
  (tok_expiresAt t - 5 * 60 * 1000 <= clock (readings s)) ->
  (k < 3)%nat ->
  (forall j : nat,
     (j < k)%nat ->
     transient toLowerCase
       (refreshAccessTokenReply rt (length (calls s) + 2 * j)) = true) ->
  refreshAccessTokenReply rt (length (calls s) + 2 * k) = inr response ->
  (forall n : nat, storageFault n = None) ->
  exists (t' : Tokens) (s' : State),
    getValidAccessToken toLowerCase clock refreshAccessTokenReply storageFault
      accountEmail s = Done (access_token response) s' /\
    tokens s' = Some t' /\
    t' = {| tok_accessToken := access_token response;
            tok_refreshToken := Some (or_else (refresh_token response) rt);
            tok_expiresAt := clock (S (readings s)) + expires_in response * 1000;
            tok_email := tok_email t;
            tok_projectId := tok_projectId t |} /\
    calls s' =
      (calls s ++ take (S (2 * k)) (three_attempts rt) ++
       match truthy accountEmail with
       | Some account => [SaveAccountTokens account t'; UpdateLastUsed account]
       | None => [SaveTokens t']
       end)%list.
Proof.
  intros Htokens Hrt Hexpired Hk Htransient Hreply Hstorage.
  unfold getValidAccessToken. rewrite Htokens. cbv zeta.
  assert (Hleb : (tok_expiresAt t - EXPIRY_BUFFER_MS <=? clock (readings s))%Z = true)
    by (apply Z.leb_le; exact Hexpired).
  rewrite Hleb.
  unfold refreshToken. cbv zeta. cbn [tokens]. rewrite Hrt.
  unfold MAX_RETRIES.
  rewrite (refresh_loop_skips rt t k 1 3 None); [| lia | lia | exact Htransient].
  destruct (3 - k)%nat as [|remaining] eqn:Hrem; [lia |].
  cbn [refresh_loop]. unfold attempt_once. cbn [calls tokens readings called].
  rewrite length_app, failed_attempts_length, Hreply.
  destruct (truthy accountEmail) as [account|]; rewrite ?Hstorage;
    eexists _, _; (split; [reflexivity |]); (split; [reflexivity |]);
    (split; [reflexivity |]); cbn [calls called];
    rewrite <- (failed_attempts_then_request rt k) by lia;
    rewrite <- !app_assoc; reflexivity.
Qed.

End Refresh.

Section RefreshSamples.

Import GoogleTokenManager.

Lemma refreshToken_gives_up_witness :
  tokens Fixture.expired_manager = Some Fixture.expired_tokens /\
  truthy (tok_refreshToken Fixture.expired_tokens) = Some "1//refresh" /\
  (1 <= 3)%nat /\
  (forall j : nat,
     (j < 1)%nat ->
     transient Fixture.lower
       (Fixture.revoked_after_a_network_error "1//refresh"
          (length (calls Fixture.expired_manager) + 2 * j)) = true) /\
  ((1 < 3)%nat ->
   exists err : js_error,
     Fixture.revoked_after_a_network_error "1//refresh"
       (length (calls Fixture.expired_manager) + 2 * 1) = inl err /\
     isPermanentError Fixture.lower (error_text err) = true) /\
  exists (cause : string) (s' : State),
    refreshToken Fixture.lower Fixture.noon Fixture.revoked_after_a_network_error
      (fun _ => None) (Some "a@x.com") Fixture.expired_manager =
      Failed
        (TokenRefreshFailed
           (if (1 <? 3)%nat
            then "Refresh token invalid or expired. Please login again."
            else "Failed to refresh token after 3 attempts")
           (Some cause) (negb (1 <? 3)%nat)) s' /\
    cause_of (Fixture.revoked_after_a_network_error "1//refresh"
                (length (calls Fixture.expired_manager) +
                 2 * (if (1 <? 3)%nat then 1 else 2))) =
      Some cause /\
    calls s' =
      (calls Fixture.expired_manager ++
       take (S (2 * Nat.min 1 2)) (three_attempts "1//refresh"))%list /\
    tokens s' = Some Fixture.expired_tokens /\
    forall account : string,
      TriggerService.refresh_error_message account
        (thrown_value
           (TokenRefreshFailed
              (if (1 <? 3)%nat
               then "Refresh token invalid or expired. Please login again."
               else "Failed to refresh token after 3 attempts")
              (Some cause) (negb (1 <? 3)%nat))) =
      (if (1 <? 3)%nat
       then "Refresh token invalid or expired. Please login again."
       else "Failed to refresh token after 3 attempts") ++ ": " ++ cause.
Proof.
  assert (H1 : forall j : nat,
            (j < 1)%nat ->
            transient Fixture.lower
              (Fixture.revoked_after_a_network_error "1//refresh"
                 (length (calls Fixture.expired_manager) + 2 * j)) = true).
  { intros [|j] Hj; [reflexivity | lia]. }
  assert (H2 : (1 < 3)%nat ->
            exists err : js_error,
              Fixture.revoked_after_a_network_error "1//refresh"
                (length (calls Fixture.expired_manager) + 2 * 1) = inl err /\
              isPermanentError Fixture.lower (error_text err) = true).
  { intros _. eexists. split; reflexivity. }
  split; [reflexivity |]. split; [reflexivity |]. split; [lia |].
  split; [exact H1 |]. split; [exact H2 |].
  apply (refreshToken_gives_up Fixture.lower Fixture.noon
           Fixture.revoked_after_a_network_error (fun _ => None) (Some "a@x.com")
           Fixture.expired_manager Fixture.expired_tokens "1//refresh" 1);
    [reflexivity | reflexivity | lia | exact H1 | exact H2].
Defined.

Lemma getValidAccessToken_refreshes_witness :
  tokens Fixture.expired_manager = Some Fixture.expired_tokens /\
  truthy (tok_refreshToken Fixture.expired_tokens) = Some "1//refresh" /\
  (tok_expiresAt Fixture.expired_tokens - 5 * 60 * 1000 <=
   Fixture.noon (readings Fixture.expired_manager)) /\
  (1 < 3)%nat /\
  (forall j : nat,
     (j < 1)%nat ->
     transient Fixture.lower
       (Fixture.refreshed_after_a_network_error "1//refresh"
          (length (calls Fixture.expired_manager) + 2 * j)) = true) /\
  Fixture.refreshed_after_a_network_error "1//refresh"
    (length (calls Fixture.expired_manager) + 2 * 1) = inr Fixture.new_tokens /\
  (forall n : nat, (fun _ : nat => @None js_error) n = None) /\
  exists (t' : Tokens) (s' : State),
    getValidAccessToken Fixture.lower Fixture.noon
      Fixture.refreshed_after_a_network_error (fun _ => None) (Some "a@x.com")
      Fixture.expired_manager = Done (access_token Fixture.new_tokens) s' /\
    tokens s' = Some t' /\
    t' = {| tok_accessToken := access_token Fixture.new_tokens;
            tok_refreshToken :=
              Some (or_else (refresh_token Fixture.new_tokens) "1//refresh");
            tok_expiresAt :=
              Fixture.noon (S (readings Fixture.expired_manager)) +
              expires_in Fixture.new_tokens * 1000;
            tok_email := tok_email Fixture.expired_tokens;
            tok_projectId := tok_projectId Fixture.expired_tokens |} /\
    calls s' =
      (calls Fixture.expired_manager ++ take (S (2 * 1)) (three_attempts "1//refresh") ++
       match truthy (Some "a@x.com") with
       | Some account => [SaveAccountTokens account t'; UpdateLastUsed account]
       | None => [SaveTokens t']
       end)%list.
Proof.
  assert (H1 : forall j : nat,
            (j < 1)%nat ->
            transient Fixture.lower
              (Fixture.refreshed_after_a_network_error "1//refresh"
                 (length (calls Fixture.expired_manager) + 2 * j)) = true).
  { intros [|j] Hj; [reflexivity | lia]. }
  split; [reflexivity |]. split; [reflexivity |]. split; [vm_compute; discriminate |].
  split; [lia |]. split; [exact H1 |]. split; [reflexivity |].
  split; [reflexivity |].
  apply (getValidAccessToken_refreshes Fixture.lower Fixture.noon
           Fixture.refreshed_after_a_network_error (fun _ => None) (Some "a@x.com")
           Fixture.expired_manager Fixture.expired_tokens "1//refresh" 1
           Fixture.new_tokens);
    [reflexivity | reflexivity | vm_compute; discriminate | lia | exact H1 |
     reflexivity | reflexivity].
Defined.

End RefreshSamples.

(** ** Parsed models and the unused-model predicate *)

Lemma parseModelInfo_returns (env : Env) (modelId : string) (model : Parser.ModelInfo)
    (w : World) :
  exists (timeUntilResetMs : option Q) (w' : World),
    Parser.parseModelInfo env modelId model w =
      Returns
        {| label := or_else (or_opt (Parser.displayName model) (Parser.info_label model))
                      modelId;
           modelId := modelId;
           remainingPercentage := Parser.quotaInfo model ≫= Parser.remainingFraction;
           isExhausted :=
             match Parser.quotaInfo model ≫= Parser.quota_isExhausted with
             | Some b => b
             | None =>
                 match Parser.quotaInfo model ≫= Parser.remainingFraction with
                 | Some f => Qeq_bool f 0
                 | None => false
                 end
             end;
           resetTime := Parser.quotaInfo model ≫= Parser.quota_resetTime;
           timeUntilResetMs := timeUntilResetMs |} w' /\
    match timeUntilResetMs with
    | Some t => (0 < t)%Q
    | None => True
    end /\
    disk w' = disk w /\ trace w' = trace w.
Proof.
  unfold Parser.parseModelInfo, Parser.parseResetTime. cbv zeta.
  destruct (truthy (Parser.quotaInfo model ≫= Parser.quota_resetTime)) as [s|].
  - unfold bind, Date_now, ret.
    destruct (dateParse env s) as [resetDate|].
    + destruct (0 <? resetDate - clock env (ticks w))%Z eqn:E.
      * eexists _, _. split; [reflexivity |]. split; [| now split].
        apply Z.ltb_lt in E. unfold Qlt, inject_Z. simpl. lia.
      * eexists _, _. split; [reflexivity |]. now repeat split.
    + eexists _, _. split; [reflexivity |]. now repeat split.
  - eexists _, _. split; [reflexivity |]. now repeat split.
Qed.

(** X30. The parser stores the remaining fraction of the API (0 to 1) in
    [remainingPercentage], and [isModelUnused] compares that field with 99:
    a record made by [parseModelInfo] from a model whose fraction is at
    most 1 is never unused, and for a snapshot made of such records
    [findUnusedModels] is empty and [hasUnusedModels] is false. *)
Theorem parsed_models_are_never_unused (env : Env) (snapshot : QuotaSnapshot) :
  Forall
    (fun parsed =>
       exists (modelId : string) (model : Parser.ModelInfo) (w w' : World),
         Parser.parseModelInfo env modelId model w = Returns parsed w' /\
         fraction_at_most_one model)
    (models snapshot) ->
  Forall (fun parsed => isModelUnused parsed = false) (models snapshot) /\
  findUnusedModels snapshot = [] /\
  hasUnusedModels snapshot = false.
Proof.
  intros Hparsed.
  assert (Hall : Forall (fun parsed => isModelUnused parsed = false) (models snapshot)).
  { eapply Forall_impl; [exact Hparsed |].
    intros parsed (modelId & model & w & w' & Hrun & Hfraction).
    destruct (parseModelInfo_returns env modelId model w) as (t & w1 & Hrun' & _).
    rewrite Hrun' in Hrun. injection Hrun as <- _.
    unfold isModelUnused. cbn [remainingPercentage].
    unfold fraction_at_most_one in Hfraction.
    destruct (Parser.quotaInfo model ≫= Parser.remainingFraction) as [f|];
      [| reflexivity].
    assert (Hlt : js_lt f FULL_QUOTA_THRESHOLD = true).
    { assert (H : (f < FULL_QUOTA_THRESHOLD)%Q).
      { eapply Qle_lt_trans; [exact Hfraction | reflexivity]. }
      unfold js_lt. destruct (f ?= FULL_QUOTA_THRESHOLD)%Q eqn:E; [| reflexivity |].
      - apply Qeq_alt in E. rewrite E in H. destruct (Qlt_irrefl _ H).
      - apply Qgt_alt in E. destruct (Qlt_irrefl f).
        eapply Qlt_trans; eassumption. }
    now rewrite Hlt. }
  split; [exact Hall |].
  assert (Hnone : findUnusedModels snapshot = []).
  { unfold findUnusedModels. clear Hparsed. revert Hall.
    generalize (models snapshot). intros l Hall.
    induction Hall as [|m l Hm _ IH]; [reflexivity |].
    cbn [List.filter]. rewrite Hm. exact IH. }
  split; [exact Hnone | apply hasUnusedModels_false, Hnone].
Qed.

Lemma parsed_models_are_never_unused_witness :
  Forall
    (fun parsed =>
       exists (modelId : string) (model : Parser.ModelInfo) (w w' : World),
         Parser.parseModelInfo Fixture.env_reset_in_five_hours modelId model w =
           Returns parsed w' /\
         fraction_at_most_one model)
    (models Fixture.parsed_snapshot) /\
  Forall (fun parsed => isModelUnused parsed = false) (models Fixture.parsed_snapshot) /\
  findUnusedModels Fixture.parsed_snapshot = [] /\
  hasUnusedModels Fixture.parsed_snapshot = false.
Proof.
  assert (H : Forall
                (fun parsed =>
                   exists (modelId : string) (model : Parser.ModelInfo) (w w' : World),
                     Parser.parseModelInfo Fixture.env_reset_in_five_hours modelId
                       model w = Returns parsed w' /\
                     fraction_at_most_one model)
                (models Fixture.parsed_snapshot)).
  { constructor; [| constructor].
    exists "gemini-3-flash", Fixture.full_model, Sample.w0.
    eexists. split; [reflexivity |]. unfold fraction_at_most_one. simpl.
    apply Qle_refl. }
  split; [exact H |].
  apply (parsed_models_are_never_unused Fixture.env_reset_in_five_hours
           Fixture.parsed_snapshot H).
Defined.
